(** * A shallow embedding of the mdb-reader browser example

    The repository ships two variants of the same browser front end:
    [examples/browser/src/index.mjs] (module [IndexMjs] below) and an
    older copy of it whose file name is not known (module [Part000]).
    Both sit on top of three collaborators that are not part of the
    repository: the [mdb-reader] library (database and table handles),
    the browser's storage (localStorage, IndexedDB, FileReader, [atob])
    and the grid widget.  The collaborators are modelled as interfaces
    (records of operations that may throw) or, for base64, by the
    algorithm the platform specifies. *)

From Stdlib Require Import ZArith NArith Ascii String List Lia.
From Stdlib Require Import QArith Qcanon Qround.
From Stdlib.Strings Require Import Byte.
From stdpp Require Import base option list gmap strings sorting pretty.

Local Open Scope string_scope.
Local Open Scope list_scope.
Local Open Scope N_scope.

(** ** JavaScript values and exceptions *)

(** A thrown value, as far as [isQuotaError] inspects it. *)
Record JsError := mkError {
  err_name : string;
  err_code : Z;
  err_message : string
}.

(** The outcome of evaluating a JavaScript expression: a value, or a
    thrown exception. *)
Inductive Result (A : Type) : Type :=
| Ok (a : A)
| Throw (e : JsError).
Arguments Ok {A} a.
Arguments Throw {A} e.

Global Instance result_ret : MRet Result := fun A a => Ok a.

Global Instance result_bind : MBind Result := fun A B k r =>
  match r with
  | Ok a => k a
  | Throw e => Throw e
  end.

(** JavaScript numbers: the finite doubles are rationals (the two zeros
    are identified, as [===] identifies them), plus the infinities and
    NaN. *)
Inductive JsNumber : Type :=
| NaN
| Infinity (negative : bool)
| Finite (q : Qc).

(** The values a row of [mdb-reader] can hold.  Dates and buffers are
    objects: [===] compares them by reference.  A string is a sequence of
    8-bit characters, each one UTF-16 code unit of the JavaScript string,
    so that [String.length] is the [length] JavaScript reports; text
    outside Latin-1 is not modelled. *)
Inductive Value : Type :=
| VUndefined
| VNull
| VBool (b : bool)
| VNumber (n : JsNumber)
| VString (s : string)
| VObject (ref : positive).

Definition number_strict_eq (a b : JsNumber) : bool :=
  match a, b with
  | Finite p, Finite q => Qeq_bool p q
  | Infinity s, Infinity t => Bool.eqb s t
  | _, _ => false
  end.

(** [a === b] *)
Definition strict_eq (a b : Value) : bool :=
  match a, b with
  | VUndefined, VUndefined => true
  | VNull, VNull => true
  | VBool x, VBool y => Bool.eqb x y
  | VNumber x, VNumber y => number_strict_eq x y
  | VString x, VString y => String.eqb x y
  | VObject x, VObject y => Pos.eqb x y
  | _, _ => false
  end.

(** [typeof], up to the distinction [===] makes. *)
Inductive JsType := TUndefined | TNull | TBoolean | TNumber | TString | TObject.

Definition type_of (v : Value) : JsType :=
  match v with
  | VUndefined => TUndefined
  | VNull => TNull
  | VBool _ => TBoolean
  | VNumber _ => TNumber
  | VString _ => TString
  | VObject _ => TObject
  end.

(** A row is a plain object from column name to value; reading a missing
    property gives [undefined]. *)
Abbreviation Row := (gmap string Value).

Definition row_get (r : Row) (col : string) : Value :=
  default VUndefined (r !! col).

(** The keys and the values of [Object.keys(row)] and
    [Object.values(row)].  A row of the model keeps the properties of
    the object, not the order of their creation: the two lists are in the
    order of the map, and they are used where the code only asks whether
    some key or some value qualifies.  Where the code uses the order
    itself, the list is [Object_keys_order] of the platform. *)
Definition Object_keys (r : Row) : list string := (map_to_list r).*1.
Definition Object_values (r : Row) : list Value := (map_to_list r).*2.

(** The property names every plain object inherits from
    [Object.prototype].  All the members are functions, except
    [__proto__], an accessor whose getter gives the prototype and whose
    setter replaces it when the value assigned is an object or [null],
    and does nothing otherwise. *)
Definition Object_prototype_keys : list string :=
  ["constructor"; "hasOwnProperty"; "isPrototypeOf"; "propertyIsEnumerable";
   "toLocaleString"; "toString"; "valueOf"; "__proto__";
   "__defineGetter__"; "__defineSetter__"; "__lookupGetter__";
   "__lookupSetter__"].

(** ** The mdb-reader collaborator *)

(** The options object of [getData]; an absent field is [None]. *)
Record GetDataOpts := mkOpts { rowOffset : option N; rowLimit : option N }.

Definition no_opts : GetDataOpts := mkOpts None None.
Definition limit_opts (n : N) : GetDataOpts := mkOpts None (Some n).

(** Modelled from the spec: the table handle of the [mdb-reader] library,
    whose code is not among the sources read here.  The specification
    lists [tableHandle.rowCount] (a non-negative integer),
    [tableHandle.getColumnNames()] and
    [tableHandle.getData({rowOffset, rowLimit}) -> rows]; the front end
    also reads [columnCount].  Every operation may throw. *)
Record TableHandle := mkTable {
  rowCount : Result N;
  columnCount : Result N;
  getColumnNames : Result (list string);
  getData : GetDataOpts → Result (list Row)
}.

(** Modelled from the spec: the database handle of the library
    ([new MDBReader(buf)]), with [handle.listTables() -> [name]] (here
    [getTableNames]) and [handle.getTable(name) -> tableHandle], which
    may fail per table. *)
Record Reader := mkReader {
  getTableNames : Result (list string);
  getTable : string → Result TableHandle
}.

(** Modelled from the spec: what [getData] returns on a table holding
    [rows] when the handle honours offset and limit (no offset: from the
    first row; no limit: to the last row). *)
Definition slice_rows (o : GetDataOpts) (rows : list Row) : list Row :=
  let from := drop (N.to_nat (default 0 (rowOffset o))) rows in
  match rowLimit o with
  | Some k => take (N.to_nat k) from
  | None => from
  end.

(** The handle of a healthy table with the given columns and rows. *)
Definition table_of (cols : list string) (rows : list Row) : TableHandle :=
  {| rowCount := Ok (N.of_nat (length rows));
     columnCount := Ok (N.of_nat (length cols));
     getColumnNames := Ok cols;
     getData := fun o => Ok (slice_rows o rows) |}.

(** A handle reports its row count accurately and honours offset/limit
    fetches without failing. *)
Definition honours (t : TableHandle) (rows : list Row) : Prop :=
  rowCount t = Ok (N.of_nat (length rows)) ∧
  ∀ o, getData t o = Ok (slice_rows o rows).

(** A catalog entry [{ name, rowCount }]. *)
Record CatalogEntry := mkEntry { entry_name : string; entry_rowCount : N }.

(** ** Base64, as the platform performs it *)

Definition b64_alphabet : list ascii :=
  list_ascii_of_string
    "ABCDEFGHIJKLMNOPQRSTUVWXYZabcdefghijklmnopqrstuvwxyz0123456789+/".

Definition b64_char (n : N) : ascii :=
  nth (N.to_nat n) b64_alphabet "A"%char.

Fixpoint index_from (c : ascii) (l : list ascii) (i : N) : option N :=
  match l with
  | [] => None
  | x :: l' => if Ascii.eqb x c then Some i else index_from c l' (N.succ i)
  end.

Definition b64_index (c : ascii) : option N := index_from c b64_alphabet 0.

(** The 6-bit groups of a byte sequence (the last group is zero-filled). *)
Fixpoint b64_sextets (bs : list N) : list N :=
  match bs with
  | [] => []
  | [a] => [a / 4; (a mod 4) * 16]
  | [a; b] => [a / 4; (a mod 4) * 16 + b / 16; (b mod 16) * 4]
  | a :: b :: c :: rest =>
      a / 4 :: (a mod 4) * 16 + b / 16 :: (b mod 16) * 4 + c / 64 :: c mod 64
        :: b64_sextets rest
  end.

Definition b64_padding (len : nat) : list ascii :=
  match (len mod 3)%nat with
  | 0%nat => []
  | 1%nat => ["="; "="]%char
  | _ => ["="]%char
  end.

(** The base64 text of a byte sequence: [btoa] on a binary string, and
    the payload of the data URL [FileReader.readAsDataURL] produces. *)
Definition base64_encode (bs : list Byte.byte) : string :=
  string_of_list_ascii
    (map b64_char (b64_sextets (map Byte.to_N bs)) ++ b64_padding (length bs)).

Definition is_ascii_whitespace (c : ascii) : bool :=
  match N_of_ascii c with
  | 9 | 10 | 12 | 13 | 32 => true
  | _ => false
  end.

(** Step 2 of the forgiving decoder: with a length divisible by four, one
    or two trailing [=] are dropped. *)
Definition strip_padding (l : list ascii) : list ascii :=
  if (length l mod 4 =? 0)%nat then
    match rev l with
    | "="%char :: "="%char :: r => rev r
    | "="%char :: r => rev r
    | _ => l
    end
  else l.

Fixpoint bytes_of_sextets (ss : list N) : list N :=
  match ss with
  | s1 :: s2 :: s3 :: s4 :: rest =>
      s1 * 4 + s2 / 16 :: (s2 mod 16) * 16 + s3 / 4 :: (s3 mod 4) * 64 + s4
        :: bytes_of_sextets rest
  | [s1; s2; s3] => [s1 * 4 + s2 / 16; (s2 mod 16) * 16 + s3 / 4]
  | [s1; s2] => [s1 * 4 + s2 / 16]
  | _ => []
  end.

(** [atob]: the forgiving base64 decoder.  [None] stands for the
    [InvalidCharacterError] it throws; the result is a binary string, one
    character per byte. *)
Definition atob (s : string) : option string :=
  let data := strip_padding
                (List.filter (fun c => negb (is_ascii_whitespace c))
                   (list_ascii_of_string s)) in
  if (length data mod 4 =? 1)%nat then None
  else
    ss ← mapM b64_index data;
    Some (string_of_list_ascii (map ascii_of_N (bytes_of_sextets ss))).

(** Storing a character code into a [Uint8Array] slot. *)
Definition uint8_of_charCode (n : N) : Byte.byte :=
  default Byte.x00 (Byte.of_N (n mod 256)).

Definition invalid_character : JsError :=
  mkError "InvalidCharacterError" 5
    "The string to be decoded is not correctly encoded.".

(** ** State and exceptions

    Code that touches the storage or the view state is a function from
    the state to an outcome and the state it leaves behind; a throw keeps
    the mutations made before it. *)

Definition Eff (S A : Type) : Type := S → Result A * S.

Definition eret {S A} (a : A) : Eff S A := fun s => (Ok a, s).

Definition ethrow {S A} (e : JsError) : Eff S A := fun s => (Throw e, s).

Definition ebind {S A B} (m : Eff S A) (k : A → Eff S B) : Eff S B :=
  fun s =>
    match m s with
    | (Ok a, s') => k a s'
    | (Throw e, s') => (Throw e, s')
    end.

(** [try { m } catch (e) { h e }] over the state. *)
Definition etry {S A} (m : Eff S A) (h : JsError → Eff S A) : Eff S A :=
  fun s =>
    match m s with
    | (Ok a, s') => (Ok a, s')
    | (Throw e, s') => h e s'
    end.

Definition elift {S A} (r : Result A) : Eff S A := fun s => (r, s).

Definition emodify {S} (f : S → S) : Eff S unit := fun s => (Ok tt, f s).

Definition egets {S A} (f : S → A) : Eff S A := fun s => (Ok (f s), s).

Notation "'let!' x ':=' m 'in' k" := (ebind m (fun x => k))
  (at level 10, x binder, m at level 100, k at level 200).
Notation "m ';;;' k" := (ebind m (fun _ => k))
  (at level 100, k at level 200, right associativity).

(** [TypeError], thrown when a property of [undefined] or [null] is read. *)
Definition type_error : JsError :=
  mkError "TypeError" 0 "Cannot read properties of undefined".

(** [TypeError], thrown when what is called is not a function. *)
Definition not_a_function (callee : string) : JsError :=
  mkError "TypeError" 0 (callee +:+ " is not a function").

(** ** Files and the browser's two stores *)

Record File := mkFile { file_name : string; file_bytes : list Byte.byte }.

(** The value kept in the object store: [{ file, name }]. *)
Record IdbEntry := mkIdbEntry { idb_file : File; idb_name : string }.

(** The storage of the origin, with the faults the environment injects:
    [ls_fault items k v] is what [localStorage.setItem(k, v)] throws on
    the current content (a quota, a disabled store), [idb_faults] lists
    the outcome of the coming IndexedDB operations (an empty list: no
    fault), the two [read_*] oracles are [FileReader] errors and
    [blob_fault] is a rejected [Blob.arrayBuffer()]. *)
Record World := mkWorld {
  ls_items : gmap string string;
  ls_fault : gmap string string → string → string → option JsError;
  idb_files : gmap string IdbEntry;
  idb_faults : list (option JsError);
  read_dataURL_fault : File → option JsError;
  read_arrayBuffer_fault : File → option JsError;
  blob_fault : File → bool
}.

Definition set_ls_items (f : gmap string string → gmap string string)
    (w : World) : World :=
  mkWorld (f (ls_items w)) (ls_fault w) (idb_files w) (idb_faults w)
    (read_dataURL_fault w) (read_arrayBuffer_fault w) (blob_fault w).

(** The state after one IndexedDB operation: [f] applied to the object
    store, and the fault of this operation consumed. *)
Definition set_idb (f : gmap string IdbEntry → gmap string IdbEntry)
    (w : World) : World :=
  mkWorld (ls_items w) (ls_fault w) (f (idb_files w)) (tail (idb_faults w))
    (read_dataURL_fault w) (read_arrayBuffer_fault w) (blob_fault w).

(** [localStorage.setItem(k, v)]: a failed write leaves the store as it
    was. *)
Definition localStorage_setItem (k v : string) : Eff World unit :=
  fun w =>
    match ls_fault w (ls_items w) k v with
    | Some e => (Throw e, w)
    | None => (Ok tt, set_ls_items (insert k v) w)
    end.

(** [localStorage.getItem(k)]: [None] is [null]. *)
Definition localStorage_getItem (k : string) (w : World) : option string :=
  ls_items w !! k.

(** One IndexedDB operation (open the database, run one request): it
    consumes the next fault, and applies [f] to the object store when
    there is none. *)
Definition idb_request (f : gmap string IdbEntry → gmap string IdbEntry)
    : Eff World unit :=
  fun w =>
    match idb_faults w with
    | Some e :: _ => (Throw e, set_idb id w)
    | _ => (Ok tt, set_idb f w)
    end.

(** Truthiness of a string that may be [null]. *)
Definition truthy_string (o : option string) : bool :=
  match o with
  | Some s => negb (String.eqb s EmptyString)
  | None => false
  end.

(** [s.indexOf(c)], [-1] when [c] does not occur. *)
Fixpoint index_of_char (c : ascii) (s : string) : Z :=
  match s with
  | EmptyString => (-1)%Z
  | String x s' =>
      if Ascii.eqb x c then 0%Z
      else
        let i := index_of_char c s' in
        if (i <? 0)%Z then (-1)%Z else (i + 1)%Z
  end.

Fixpoint string_drop (n : nat) (s : string) : string :=
  match n, s with
  | O, _ => s
  | S n', String _ s' => string_drop n' s'
  | S _, EmptyString => EmptyString
  end.

(** [s.slice(start)]: a negative [start] counts from the end. *)
Definition string_slice_from (start : Z) (s : string) : string :=
  if (start <? 0)%Z
  then string_drop (Z.to_nat (Z.max 0 (Z.of_nat (String.length s) + start))) s
  else string_drop (Z.to_nat start) s.

(** [s.charCodeAt(i)] on a binary string. *)
Definition charCodeAt (s : string) (i : nat) : N :=
  match String.get i s with
  | Some c => N_of_ascii c
  | None => 0
  end.

(** [s.toLowerCase()] on the ASCII letters. *)
Definition lower_ascii (c : ascii) : ascii :=
  let n := N_of_ascii c in
  if (65 <=? n) && (n <=? 90) then ascii_of_N (n + 32) else c.

Fixpoint toLowerCase (s : string) : string :=
  match s with
  | EmptyString => EmptyString
  | String c s' => String (lower_ascii c) (toLowerCase s')
  end.

(** [s.endsWith(suffix)] *)
Definition endsWith (s suffix : string) : bool :=
  (String.length suffix <=? String.length s)%nat &&
  String.eqb (string_drop (String.length s - String.length suffix) s) suffix.

(** ** The catalog builder shared by the two variants

    The callback both variants pass to [names.map]: open the table, read
    its row count, cache the handle; a throw anywhere gives
    [{ name, rowCount: 0 }] and leaves the cache alone. *)
Definition catalog_entry (r : Reader) (name : string)
    : Eff (gmap string TableHandle) CatalogEntry :=
  etry
    (let! t := elift (getTable r name) in
     let! rc := elift (rowCount t) in
     emodify (insert name t) ;;;
     eret (mkEntry name rc))
    (fun _ => eret (mkEntry name 0)).

(** [names.map(callback)]: the callbacks run in order, none of them
    suspends before its end. *)
Fixpoint catalog_entries (r : Reader) (names : list string)
    : Eff (gmap string TableHandle) (list CatalogEntry) :=
  match names with
  | [] => eret []
  | name :: rest =>
      let! e := catalog_entry r name in
      let! es := catalog_entries r rest in
      eret (e :: es)
  end.

(** ** Platform functions the front end calls

    [Number_toString] and [Object_toString] are what [String(v)] gives
    on a number and on an object; [MDBReader_new] is the constructor of
    the library's database handle.  [Object_keys_order] is
    [Object.keys(row)] with its order: the engine lists the integer-like
    keys first, ascending, then the other keys in the order of their
    creation, which the rows of the model do not record; the list holds
    the keys of the row, each once. *)
Class Platform := {
  Number_toString : JsNumber → string;
  Object_toString : positive → string;
  MDBReader_new : list Byte.byte → Result Reader;
  Object_keys_order : Row → list string;
  Object_keys_order_perm : ∀ r, Object_keys_order r ≡ₚ Object_keys r
}.

(** [String(v)] *)
Definition JS_String `{Platform} (v : Value) : string :=
  match v with
  | VUndefined => "undefined"
  | VNull => "null"
  | VBool true => "true"
  | VBool false => "false"
  | VNumber n => Number_toString n
  | VString s => s
  | VObject r => Object_toString r
  end.

(** [Math.ceil(a / b)] and [Math.floor(a / b)] on non-negative integers. *)
Definition ceil_div (a b : N) : N := (a + b - 1) / b.
Definition floor_div (a b : N) : N := a / b.

(** The value of the [width] property of a column definition: a number
    of pixels, or the member of [Object.prototype] of the given name (a
    function, or the prototype itself for [__proto__]). *)
Inductive WidthValue : Type :=
| WidthPx (w : Z)
| WidthMember (name : string).

(** A column definition handed to the grid; [None] is a definition
    without a [width] property. *)
Record ColDef := mkColDef { field : string; width : option WidthValue }.

(** A pending [setTimeout] callback. *)
Inductive TimerTask : Type :=
| RemoveToolbarClass (c : string)
| SelectMatchingRows (table : string) (value : Value).

Record Timer := mkTimer { delay : N; task : TimerTask }.

(** Run a computation on one component of the state. *)
Definition ezoom {S T A} (get : S → T) (set : T → S → S) (m : Eff T A)
    : Eff S A :=
  fun s => let '(r, t) := m (get s) in (r, set t s).

(** ** [examples/browser/src/index.mjs] *)

Module IndexMjs.

(** The state the script closes over; the grids are represented by the
    options last handed to them.  The page carries the [.toolbar]
    element. *)
Record App := mkApp {
  world : World;
  reader : option Reader;
  tableMap : gmap string TableHandle;
  leftRowData : list CatalogEntry;
  rightColumnDefs : list ColDef;
  rightRowData : list Row;
  status : string;
  toolbar : gset string;
  timers : list Timer
}.

Definition set_world (w : World) (a : App) : App :=
  mkApp w (reader a) (tableMap a) (leftRowData a) (rightColumnDefs a)
    (rightRowData a) (status a) (toolbar a) (timers a).

Definition set_reader (r : Reader) (a : App) : App :=
  mkApp (world a) (Some r) (tableMap a) (leftRowData a) (rightColumnDefs a)
    (rightRowData a) (status a) (toolbar a) (timers a).

Definition set_tableMap (m : gmap string TableHandle) (a : App) : App :=
  mkApp (world a) (reader a) m (leftRowData a) (rightColumnDefs a)
    (rightRowData a) (status a) (toolbar a) (timers a).

Definition set_leftRowData (l : list CatalogEntry) (a : App) : App :=
  mkApp (world a) (reader a) (tableMap a) l (rightColumnDefs a)
    (rightRowData a) (status a) (toolbar a) (timers a).

Definition set_right (cols : list ColDef) (rows : list Row) (a : App) : App :=
  mkApp (world a) (reader a) (tableMap a) (leftRowData a) cols rows
    (status a) (toolbar a) (timers a).

Definition setStatus (text : string) : Eff App unit :=
  emodify (fun a =>
    mkApp (world a) (reader a) (tableMap a) (leftRowData a)
      (rightColumnDefs a) (rightRowData a) text (toolbar a) (timers a)).

Definition set_toolbar (f : gset string → gset string) (a : App) : App :=
  mkApp (world a) (reader a) (tableMap a) (leftRowData a) (rightColumnDefs a)
    (rightRowData a) (status a) (f (toolbar a)) (timers a).

Definition setTimeout (t : TimerTask) (ms : N) (a : App) : App :=
  mkApp (world a) (reader a) (tableMap a) (leftRowData a) (rightColumnDefs a)
    (rightRowData a) (status a) (toolbar a) (timers a ++ [mkTimer ms t]).

Definition isQuotaError (err : JsError) : bool :=
  String.eqb (err_name err) "QuotaExceededError"
  || String.eqb (err_name err) "NS_ERROR_DOM_QUOTA_REACHED"
  || (err_code err =? 22)%Z
  || (err_code err =? 1014)%Z.

Definition idbSaveFile (file : File) (name : string) : Eff World unit :=
  idb_request (insert "file" (mkIdbEntry file name)).

(** What [loadStoredFile] resolves to: [{ arrayBuffer, name }]; the name
    read from localStorage may be [null]. *)
Record StoredFile := mkStored {
  arrayBuffer : list Byte.byte;
  stored_name : option string
}.

Definition idbLoadFile : Eff World (option StoredFile) :=
  let! entry := egets (fun w => idb_files w !! "file") in
  let! faulty := egets blob_fault in
  idb_request id ;;;
  match entry with
  | None => eret None
  | Some entry =>
      if faulty (idb_file entry) then eret None
      else eret (Some (mkStored (file_bytes (idb_file entry))
                         (Some (idb_name entry))))
  end.

Definition idbDeleteFile : Eff World unit := idb_request (delete "file").

Definition base64ToArrayBuffer (base64 : string) : Result (list Byte.byte) :=
  match atob base64 with
  | None => Throw invalid_character
  | Some binaryString =>
      let len := String.length binaryString in
      let bytes := replicate len Byte.x00 in
      Ok (foldl (fun bytes i =>
                   <[i := uint8_of_charCode (charCodeAt binaryString i)]> bytes)
            bytes (seq 0 len))
  end.

(** The data URL read from the file has the form the source's comment
    gives; the base64 text is what follows its first comma. *)
Definition fileToBase64 (file : File) : Eff World string :=
  let! fault := egets (fun w => read_dataURL_fault w file) in
  match fault with
  | Some e => ethrow e
  | None =>
      let dataUrl := "data:application/octet-stream;base64,"
                       +:+ base64_encode (file_bytes file) in
      let idx := index_of_char "," dataUrl in
      eret (string_slice_from (idx + 1) dataUrl)
  end.

Definition saveFile (file : File) : Eff World string :=
  etry
    (let! base64 := fileToBase64 file in
     etry
       (localStorage_setItem "mdb-base64" base64 ;;;
        localStorage_setItem "mdb-name" (file_name file) ;;;
        eret "localStorage")
       (fun err =>
          if isQuotaError err then
            idbSaveFile file (file_name file) ;;; eret "indexedDB"
          else
            idbSaveFile file (file_name file) ;;; eret "indexedDB"))
    (fun err =>
       etry (idbSaveFile file (file_name file) ;;; eret "indexedDB")
         (fun e => ethrow e)).

Definition loadStoredFile : Eff World (option StoredFile) :=
  let! base64 := egets (localStorage_getItem "mdb-base64") in
  let! name := egets (localStorage_getItem "mdb-name") in
  if truthy_string base64 then
    let! ab := elift (base64ToArrayBuffer (default EmptyString base64)) in
    eret (Some (mkStored ab name))
  else
    etry idbLoadFile (fun _ => eret None).

(** The loop of [sampleRowsForTable]: [todo] is [blocks - i]. *)
Fixpoint sample_blocks (t : TableHandle) (rc sampleSize blocks blockSize : N)
    (todo : nat) (i : N) (rows : list Row) : list Row :=
  match todo with
  | O => rows
  | S todo' =>
      if sampleSize <=? N.of_nat (length rows) then rows
      else
        let offset := floor_div (i * rc) blocks in
        let rows' :=
          match getData t (mkOpts (Some offset) (Some blockSize)) with
          | Ok chunk => rows ++ chunk
          | Throw _ => rows
          end in
        sample_blocks t rc sampleSize blocks blockSize todo' (i + 1) rows'
  end.

Definition sampleRowsForTable (t : TableHandle) (sampleSize : N)
    : Result (list Row) :=
  rc ← rowCount t;
  if rc <=? sampleSize then getData t no_opts
  else
    let blocks := 20 in
    let blockSize := ceil_div sampleSize blocks in
    let rows :=
      sample_blocks t rc sampleSize blocks blockSize (N.to_nat blocks) 0 [] in
    Ok (take (N.to_nat sampleSize) rows).

Definition isAllowedFileName (name : string) : bool :=
  if String.eqb name EmptyString then false
  else
    let n := toLowerCase name in
    endsWith n ".mdb" || endsWith n ".accdb".

Section WithPlatform.
Context `{Platform}.

(** [lengths[name].push(x)] *)
Definition push_length (name : string) (x : nat)
    (lengths : gmap string (list nat)) : gmap string (list nat) :=
  alter (fun arr => arr ++ [x]) name lengths.

(** The text whose length [computeColumnWidths] records for a cell. *)
Definition cell_text (v : Value) : string :=
  match v with
  | VUndefined | VNull => EmptyString
  | _ => JS_String v
  end.

(** [floor(n * 0.75)] is computed on rationals: the product of an array
    length by the double 0.75 is exact. *)
Definition percentile75 (arr : list nat) : nat :=
  if (length arr =? 0)%nat then 0%nat
  else
    let sorted := merge_sort Nat.le arr in
    let index := Qfloor (inject_Z (Z.of_nat (length sorted)) * (3 # 4)) in
    nth (Z.to_nat index) sorted 0%nat.

Definition charWidth : Q := 12 # 1.
Definition cellPadding : Z := 24.
Definition minWidth : Z := 60.
Definition maxWidth : Z := 800.

(** [widths[name] = w] on the plain object [widths], for a number [w]:
    every name creates or replaces the own property of that name, except
    [__proto__], which reaches the setter inherited from
    [Object.prototype]; the setter ignores a number, and no property is
    stored. *)
Definition assign_number (name : string) (w : Z) (widths : gmap string Z)
    : gmap string Z :=
  if String.eqb name "__proto__" then widths else <[name := w]> widths.

(** The result is the own properties of the object returned.  In
    [lengths] the values are arrays, which are objects: under the name
    [__proto__] the assignment of an array replaces the prototype of
    [lengths], and [lengths[name]] reads it back, so that the entry of
    the map under that name stands for the prototype. *)
Definition computeColumnWidths (columnNames : list string)
    (sampleRows : list Row) : gmap string Z :=
  let lengths0 :=
    foldl (fun lengths name => <[name := []]> lengths) ∅ columnNames in
  let lengths :=
    foldl (fun lengths row =>
             foldl (fun lengths name =>
                      let s := cell_text (row_get row name) in
                      push_length name (String.length s) lengths)
               lengths columnNames)
      lengths0 sampleRows in
  foldl (fun widths name =>
           let len75 := percentile75 (default [] (lengths !! name)) in
           let w := (Qceiling (inject_Z (Z.of_nat len75) * charWidth)
                     + cellPadding)%Z in
           assign_number name (Z.min (Z.max w minWidth) maxWidth) widths)
    ∅ columnNames.

(** [widths[c] || 100]: a name that is not an own property of [widths]
    is looked up in [Object.prototype], whose members are truthy. *)
Definition width_or_default (widths : gmap string Z) (c : string)
    : WidthValue :=
  match widths !! c with
  | Some w => if (w =? 0)%Z then WidthPx 100 else WidthPx w
  | None =>
      if decide (c ∈ Object_prototype_keys) then WidthMember c
      else WidthPx 100
  end.

(** The rows handed to the right grid are those of [t.getData()], with
    no options; the sampled rows only size the columns.  The selection
    flags of the left grid are not part of the state. *)
Definition showTable (name : string) : Eff App unit :=
  let! t := egets (fun a => tableMap a !! name) in
  match t with
  | None => emodify (set_right [] [])
  | Some t =>
      let! rows := elift (getData t no_opts) in
      let columnNames :=
        match getColumnNames t with
        | Ok names => names
        | Throw _ =>
            match rows with
            | r :: _ => Object_keys_order r
            | [] => []
            end
        end in
      match sampleRowsForTable t 1000 with
      | Ok sampleRows =>
          let widths := computeColumnWidths columnNames sampleRows in
          let cols :=
            map (fun c => mkColDef c (Some (width_or_default widths c)))
              columnNames in
          emodify (set_right cols rows)
      | Throw _ =>
          let cols := map (fun c => mkColDef c None) columnNames in
          emodify (set_right cols rows)
      end
  end.

Definition buildTablesList : Eff App unit :=
  etry
    (let! rd := egets reader in
     let! r := elift (match rd with
                      | Some r => Ok r
                      | None => Throw type_error
                      end) in
     let! names := elift (getTableNames r) in
     let! tables := ezoom tableMap set_tableMap (catalog_entries r names) in
     emodify (set_leftRowData tables) ;;;
     match tables with
     | e :: _ => showTable (entry_name e)
     | [] => emodify (set_right [] [])
     end)
    (fun _ => setStatus EmptyString).

(** [handleFile], from the call to the end of the [onload] callback; a
    file that cannot be read never reaches the callback. *)
Definition handleFile (file : File) : Eff App unit :=
  let! fault := egets (fun a => read_arrayBuffer_fault (world a) file) in
  match fault with
  | Some _ => eret tt
  | None =>
      etry
        (let! rd := elift (MDBReader_new (file_bytes file)) in
         emodify (set_reader rd) ;;;
         etry (ezoom world set_world (saveFile file) ;;; eret tt)
           (fun _ => eret tt) ;;;
         buildTablesList ;;;
         setStatus (file_name file))
        (fun _ => setStatus EmptyString)
  end.

(** The [drop] listener on the window; [files] is
    [e.dataTransfer.files]. *)
Definition onDrop (files : list File) : Eff App unit :=
  emodify
    (set_toolbar (fun c => c ∖ {["drag-invalid"]} ∖ {["drag-valid"]})) ;;;
  match files with
  | f :: _ =>
      if negb (isAllowedFileName (file_name f)) then
        emodify (set_toolbar (fun c => c ∪ {["drag-invalid"]})) ;;;
        emodify (setTimeout (RemoveToolbarClass "drag-invalid") 1200)
      else handleFile f
  | [] => eret tt
  end.

(** Running a timer callback of this script. *)
Definition fire (t : TimerTask) (a : App) : App :=
  match t with
  | RemoveToolbarClass c => set_toolbar (fun cs => cs ∖ {[c]}) a
  | SelectMatchingRows _ _ => a
  end.

Definition initFromStorage : Eff App unit :=
  etry
    (let! entry := ezoom world set_world loadStoredFile in
     match entry with
     | None => setStatus EmptyString
     | Some entry =>
         let! rd := elift (MDBReader_new (arrayBuffer entry)) in
         emodify (set_reader rd) ;;;
         buildTablesList ;;;
         setStatus (default EmptyString (stored_name entry))
     end)
    (fun _ => setStatus EmptyString).

End WithPlatform.

(** *** The divider between the two panels *)

(** The state of the drag-to-resize logic: the flag, the width last
    written to the left panel ([None] before the first move of a drag),
    and the two styles of the body the listeners set.  Coordinates are
    finite numbers. *)
Record Divider := mkDivider {
  isDragging : bool;
  leftWidth : option Q;
  bodyCursor : string;
  bodyUserSelect : string
}.

Definition minLeft : Q := 160 # 1.
Definition maxLeft : Q := 900 # 1.

Definition onMouseDown (d : Divider) : Divider :=
  mkDivider true (leftWidth d) "col-resize" "none".

(** [clientX] is the pointer's, [containerLeft] the left edge of the
    container's bounding rectangle. *)
Definition onMouseMove (clientX containerLeft : Q) (d : Divider) : Divider :=
  if negb (isDragging d) then d
  else
    let newLeft := (clientX - containerLeft)%Q in
    let newLeft := if Qlt_le_dec newLeft minLeft then minLeft else newLeft in
    let newLeft := if Qlt_le_dec maxLeft newLeft then maxLeft else newLeft in
    mkDivider (isDragging d) (Some newLeft) (bodyCursor d) (bodyUserSelect d).

Definition onMouseUp (d : Divider) : Divider :=
  if negb (isDragging d) then d
  else mkDivider false (leftWidth d) EmptyString EmptyString.

Inductive MouseEvent : Type :=
| MouseDown
| MouseMove (clientX containerLeft : Q)
| MouseUp.

Definition dispatch (d : Divider) (e : MouseEvent) : Divider :=
  match e with
  | MouseDown => onMouseDown d
  | MouseMove clientX containerLeft => onMouseMove clientX containerLeft d
  | MouseUp => onMouseUp d
  end.

(** The divider when the page has loaded. *)
Definition divider_init : Divider :=
  mkDivider false None EmptyString EmptyString.

(** *** The drag indicators of the toolbar *)

(** What [items[0].getAsFile()] gives during a drag: a file, [null], or
    a throw. *)
Inductive DragItem : Type :=
| ItemFile (f : File)
| ItemNull
| ItemThrows (e : JsError).

(** The [dragenter] listener; [items] is [e.dataTransfer.items]. *)
Definition onDragEnter (items : list DragItem) : Eff App unit :=
  match items with
  | [] => eret tt
  | item :: _ =>
      let file :=
        match item with
        | ItemFile f => Some f
        | ItemNull | ItemThrows _ => None
        end in
      match file with
      | Some f =>
          if negb (isAllowedFileName (file_name f)) then
            emodify (set_toolbar (fun c => c ∪ {["drag-invalid"]}))
          else
            emodify (set_toolbar (fun c => c ∖ {["drag-invalid"]})) ;;;
            emodify (set_toolbar (fun c => c ∪ {["drag-valid"]}))
      | None =>
          emodify (set_toolbar (fun c => c ∖ {["drag-invalid"]})) ;;;
          emodify (set_toolbar (fun c => c ∪ {["drag-valid"]}))
      end
  end.

(** The [dragleave] listener. *)
Definition onDragLeave : Eff App unit :=
  emodify (set_toolbar (fun c => c ∖ {["drag-invalid"]} ∖ {["drag-valid"]})).

Section Listeners.
Context `{Platform}.

(** The [change] listener of the file input; [files] is
    [e.target.files]. *)
Definition onInputChange (files : list File) : Eff App unit :=
  match files with
  | [] => eret tt
  | f :: _ => handleFile f
  end.

End Listeners.

End IndexMjs.

(** ** The second variant of the front end (file name unknown) *)

Module Part000.

(** A row node of the tables grid. *)
Record GridNode := mkNode {
  node_data : CatalogEntry;
  node_rowClass : string;
  node_selected : bool
}.

(** The options object of the rows grid, as far as the script fills it:
    the table shown, the fields of the column definitions, the row data,
    and whether the widget has attached its [api] to this object (it does
    so to the object passed to [new Grid]). *)
Record RowsOptions := mkRowsOptions {
  opt_table : string;
  opt_fields : list string;
  opt_rowData : list Row;
  opt_api : bool
}.

(** The globals of the script.  [tablesGrid] and [rowsGrid] are the
    widgets ([None] before their creation) with the data they were
    created on; [tablesApi] tells whether the current
    [tablesGridOptions] object carries an [api]. *)
Record App := mkApp {
  world : World;
  input_files : list File;
  reader : option Reader;
  tables : list CatalogEntry;
  tableMap : gmap string TableHandle;
  relationships : list Row;
  tablesGrid : option (list GridNode);
  tablesApi : bool;
  rowsGrid : option (list Row);
  rowsGridOptions : option RowsOptions;
  currentTable : string;
  tableInfo : option (N * N);
  status : string;
  timers : list Timer
}.

Definition set_world (w : World) (a : App) : App :=
  mkApp w (input_files a) (reader a) (tables a) (tableMap a)
    (relationships a) (tablesGrid a) (tablesApi a) (rowsGrid a)
    (rowsGridOptions a) (currentTable a) (tableInfo a) (status a) (timers a).

Definition set_input_files (fs : list File) (a : App) : App :=
  mkApp (world a) fs (reader a) (tables a) (tableMap a)
    (relationships a) (tablesGrid a) (tablesApi a) (rowsGrid a)
    (rowsGridOptions a) (currentTable a) (tableInfo a) (status a) (timers a).

Definition set_reader (r : Reader) (a : App) : App :=
  mkApp (world a) (input_files a) (Some r) (tables a) (tableMap a)
    (relationships a) (tablesGrid a) (tablesApi a) (rowsGrid a)
    (rowsGridOptions a) (currentTable a) (tableInfo a) (status a) (timers a).

Definition set_tables (l : list CatalogEntry) (a : App) : App :=
  mkApp (world a) (input_files a) (reader a) l (tableMap a)
    (relationships a) (tablesGrid a) (tablesApi a) (rowsGrid a)
    (rowsGridOptions a) (currentTable a) (tableInfo a) (status a) (timers a).

Definition set_tableMap (m : gmap string TableHandle) (a : App) : App :=
  mkApp (world a) (input_files a) (reader a) (tables a) m
    (relationships a) (tablesGrid a) (tablesApi a) (rowsGrid a)
    (rowsGridOptions a) (currentTable a) (tableInfo a) (status a) (timers a).

Definition set_relationships (rels : list Row) (a : App) : App :=
  mkApp (world a) (input_files a) (reader a) (tables a) (tableMap a)
    rels (tablesGrid a) (tablesApi a) (rowsGrid a)
    (rowsGridOptions a) (currentTable a) (tableInfo a) (status a) (timers a).

Definition set_tablesGrid (g : option (list GridNode)) (api : bool) (a : App)
    : App :=
  mkApp (world a) (input_files a) (reader a) (tables a) (tableMap a)
    (relationships a) g api (rowsGrid a)
    (rowsGridOptions a) (currentTable a) (tableInfo a) (status a) (timers a).

Definition set_rowsGrid (g : option (list Row)) (o : option RowsOptions)
    (a : App) : App :=
  mkApp (world a) (input_files a) (reader a) (tables a) (tableMap a)
    (relationships a) (tablesGrid a) (tablesApi a) g
    o (currentTable a) (tableInfo a) (status a) (timers a).

Definition set_currentTable (name : string) (a : App) : App :=
  mkApp (world a) (input_files a) (reader a) (tables a) (tableMap a)
    (relationships a) (tablesGrid a) (tablesApi a) (rowsGrid a)
    (rowsGridOptions a) name (tableInfo a) (status a) (timers a).

Definition set_tableInfo (columns rows : N) (a : App) : App :=
  mkApp (world a) (input_files a) (reader a) (tables a) (tableMap a)
    (relationships a) (tablesGrid a) (tablesApi a) (rowsGrid a)
    (rowsGridOptions a) (currentTable a) (Some (columns, rows)) (status a)
    (timers a).

Definition setStatus (text : string) : Eff App unit :=
  emodify (fun a =>
    mkApp (world a) (input_files a) (reader a) (tables a) (tableMap a)
      (relationships a) (tablesGrid a) (tablesApi a) (rowsGrid a)
      (rowsGridOptions a) (currentTable a) (tableInfo a) text (timers a)).

Definition setTimeout (t : TimerTask) (ms : N) (a : App) : App :=
  mkApp (world a) (input_files a) (reader a) (tables a) (tableMap a)
    (relationships a) (tablesGrid a) (tablesApi a) (rowsGrid a)
    (rowsGridOptions a) (currentTable a) (tableInfo a) (status a)
    (timers a ++ [mkTimer ms t]).

Definition string_of_bytes (bs : list Byte.byte) : string :=
  string_of_list_ascii (map ascii_of_byte bs).

(** [btoa] on a binary string (every character of a [string] is below
    256, so it does not throw). *)
Definition btoa (binary : string) : string :=
  base64_encode (map byte_of_ascii (list_ascii_of_string binary)).

(** The chunk loop of [arrayBufferToBase64]; [todo] bounds the number of
    chunks. *)
Fixpoint binary_of_chunks (chunkSize : nat) (todo : nat)
    (bytes : list Byte.byte) : string :=
  match todo with
  | O => EmptyString
  | S todo' =>
      match bytes with
      | [] => EmptyString
      | _ => string_of_bytes (take chunkSize bytes)
               +:+ binary_of_chunks chunkSize todo' (drop chunkSize bytes)
      end
  end.

Definition arrayBufferToBase64 (buffer : list Byte.byte) : string :=
  let chunkSize := N.to_nat 32768 in
  btoa (binary_of_chunks chunkSize (length buffer) buffer).

Definition base64ToArrayBuffer (base64 : string) : Result (list Byte.byte) :=
  match atob base64 with
  | None => Throw invalid_character
  | Some binary =>
      let len := String.length binary in
      let bytes := replicate len Byte.x00 in
      Ok (foldl (fun bytes i =>
                   <[i := uint8_of_charCode (charCodeAt binary i)]> bytes)
            bytes (seq 0 len))
  end.

(** There is no second store in this variant: a failed write is logged
    and reported in the status line. *)
Definition saveFileToLocalStorage (base64 name : string) : Eff App unit :=
  etry
    (ezoom world set_world
       (localStorage_setItem "mdb-reader:lastFile" base64 ;;;
        localStorage_setItem "mdb-reader:lastFileName" name) ;;;
     setStatus "Saved to local storage")
    (fun _ => setStatus "Loaded (localStorage save failed)").

(** [new Grid(tablesGridDiv, tablesGridOptions)] happens once; a later
    call builds a fresh options object, which has no [api], and returns. *)
Definition renderTablesGrid : Eff App unit :=
  emodify (fun a =>
    match tablesGrid a with
    | Some g => set_tablesGrid (Some g) false a
    | None =>
        set_tablesGrid
          (Some (map (fun e => mkNode e EmptyString false) (tables a))) true a
    end).

Definition highlightTableInList (name : string) : Eff App unit :=
  emodify (fun a =>
    if negb (tablesApi a) then a
    else
      set_tablesGrid
        (option_map
           (map (fun n =>
                   mkNode (node_data n) (node_rowClass n)
                     (String.eqb (entry_name (node_data n)) name)))
           (tablesGrid a))
        (tablesApi a) a).

(** The widths measured on a canvas are not part of the state; the
    options object gets the fields and the rows. *)
Definition renderRowsGrid (tableName : string) (columnNames : list string)
    (rows : list Row) : Eff App unit :=
  emodify (fun a =>
    match rowsGrid a with
    | Some g =>
        set_rowsGrid (Some g)
          (Some (mkRowsOptions tableName columnNames rows false)) a
    | None =>
        set_rowsGrid (Some rows)
          (Some (mkRowsOptions tableName columnNames rows true)) a
    end).

Definition selectTable (name : string) : Eff App unit :=
  let! tbl := egets (fun a => tableMap a !! name) in
  match tbl with
  | None => eret tt
  | Some tbl =>
      emodify (set_currentTable name) ;;;
      let! cc := elift (columnCount tbl) in
      let! rc := elift (rowCount tbl) in
      emodify (set_tableInfo cc rc) ;;;
      let! rows := elift (getData tbl (limit_opts 5000)) in
      let! columnNames := elift (getColumnNames tbl) in
      renderRowsGrid name columnNames rows ;;;
      highlightTableInList name
  end.

(** [Object.keys(row)] contains a column whose cell [=== value]. *)
Definition row_has_value (value : Value) (row : Row) : bool :=
  existsb (fun col => strict_eq (row_get row col) value) (Object_keys row).

(** The body of the [try] in [followValue] for one catalog entry: [Some]
    of the table name stands for the [return] after the navigation,
    [None] for reaching the end of the two inner loops. *)
Definition follow_one (t : CatalogEntry) (value : Value)
    : Eff App (option string) :=
  let! tbl := egets (fun a => tableMap a !! entry_name t) in
  let! tbl := elift (match tbl with
                     | Some tbl => Ok tbl
                     | None => Throw type_error
                     end) in
  let! data := elift (getData tbl (limit_opts 10000)) in
  if existsb (row_has_value value) data then
    selectTable (entry_name t) ;;;
    emodify (setTimeout (SelectMatchingRows (entry_name t) value) 50) ;;;
    eret (Some (entry_name t))
  else eret None.

Fixpoint follow_tables (ts : list CatalogEntry) (originTable : string)
    (value : Value) : Eff App (option string) :=
  match ts with
  | [] =>
      setStatus "No matching value found in other tables" ;;; eret None
  | t :: rest =>
      if String.eqb (entry_name t) originTable
      then follow_tables rest originTable value
      else
        let! hit := etry (follow_one t value) (fun _ => eret None) in
        match hit with
        | Some name => eret (Some name)
        | None => follow_tables rest originTable value
        end
  end.

(** [followValue]: the result is the table the scan navigated to before
    returning, [None] when the loop over the catalog ran to its end. *)
Definition followValue (originTable originCol : string) (value : Value)
    : Eff App (option string) :=
  setStatus "Searching referenced tables..." ;;;
  let! ts := egets tables in
  follow_tables ts originTable value.

(** [data.some(r => Object.values(r).some(v => v === value))] *)
Definition data_has_value (value : Value) (data : list Row) : bool :=
  existsb (fun r => existsb (fun v => strict_eq v value) (Object_values r))
    data.

(** [api.forEachNode(callback)]: the callback runs on the row nodes in
    turn; a throw of the callback ends the iteration. *)
Fixpoint forEachNode (nodes : list GridNode)
    (callback : GridNode → Eff App unit) : Eff App unit :=
  match nodes with
  | [] => eret tt
  | n :: rest => callback n ;;; forEachNode rest callback
  end.

(** [node.setRowClass(c)]: the row nodes of the grid have [setSelected]
    and no [setRowClass], and the script gives them none: the call throws
    a [TypeError]. *)
Definition node_setRowClass (n : GridNode) (c : string) : Eff App unit :=
  ethrow (not_a_function "node.setRowClass").

(** The callback of the second [forEachNode] of the hover path. *)
Definition hover_callback (value : Value) (originTable : string)
    (n : GridNode) : Eff App unit :=
  if String.eqb (entry_name (node_data n)) originTable then eret tt
  else
    etry
      (let! tbl := egets (fun a => tableMap a !! entry_name (node_data n)) in
       let! tbl := elift (match tbl with
                          | Some tbl => Ok tbl
                          | None => Throw type_error
                          end) in
       let! data := elift (getData tbl (limit_opts 200)) in
       if data_has_value value data
       then node_setRowClass n "referenced-table"
       else eret tt)
      (fun _ => eret tt).

Definition highlightTablesReferencingValue (value : Value)
    (originTable originCol : string) : Eff App unit :=
  let! api := egets tablesApi in
  if negb api then eret tt
  else
    let! nodes := egets (fun a => default [] (tablesGrid a)) in
    forEachNode nodes (fun node => node_setRowClass node EmptyString) ;;;
    forEachNode nodes (hover_callback value originTable).

(** The cell handlers of the rows grid leave [null] and [undefined]
    alone. *)
Definition is_nullish (v : Value) : bool :=
  match v with
  | VUndefined | VNull => true
  | _ => false
  end.

Definition onCellClicked (tableName field : string) (value : Value)
    : Eff App (option string) :=
  if is_nullish value then eret None
  else followValue tableName field value.

Definition onCellMouseOver (tableName field : string) (value : Value)
    : Eff App unit :=
  if is_nullish value then eret tt
  else highlightTablesReferencingValue value tableName field.

Section WithPlatform.
Context `{Platform}.

Definition buildTablesList : Eff App unit :=
  let! rd := egets reader in
  let! r := elift (match rd with
                   | Some r => Ok r
                   | None => Throw type_error
                   end) in
  let! names := elift (getTableNames r) in
  let! ts := ezoom tableMap set_tableMap (catalog_entries r names) in
  emodify (set_tables ts) ;;;
  etry
    (let! relTable := elift (getTable r "MSysRelationships") in
     let! rels := elift (getData relTable (limit_opts 10000)) in
     emodify (set_relationships rels))
    (fun _ => emodify (set_relationships [])) ;;;
  renderTablesGrid.

Definition tryLoadFromLocalStorage : Eff App unit :=
  let! base64 :=
    egets (fun a => localStorage_getItem "mdb-reader:lastFile" (world a)) in
  if negb (truthy_string base64) then eret tt
  else
    setStatus "Loading last file from local storage..." ;;;
    etry
      (let! ab := elift (base64ToArrayBuffer (default EmptyString base64)) in
       let! rd := elift (MDBReader_new ab) in
       emodify (set_reader rd) ;;;
       buildTablesList ;;;
       setStatus "Loaded from local storage")
      (fun _ => setStatus "Failed to load saved DB").

(** [loadFile], from the call to the end of the [onload] callback. *)
Definition loadFile (droppedFile : option File) : Eff App unit :=
  setStatus "Loading file..." ;;;
  let! files := egets input_files in
  match
    match droppedFile with
    | Some f => Some f
    | None =>
        match files with
        | [f] => Some f
        | _ => None
        end
    end
  with
  | None => setStatus "Select one file"
  | Some file =>
      let! fault := egets (fun a => read_arrayBuffer_fault (world a) file) in
      match fault with
      | Some _ => eret tt
      | None =>
          etry
            (let! rd := elift (MDBReader_new (file_bytes file)) in
             emodify (set_reader rd) ;;;
             etry
               (saveFileToLocalStorage (arrayBufferToBase64 (file_bytes file))
                  (file_name file))
               (fun _ => eret tt) ;;;
             buildTablesList ;;;
             setStatus "Loaded")
            (fun err =>
               setStatus ("Error loading file: " +:+ err_message err))
      end
  end.

(** The [drop] listener on the window: no check on the file name. *)
Definition onDrop (files : list File) : Eff App unit :=
  match files with
  | f :: _ =>
      emodify (set_input_files files) ;;;
      loadFile (Some f)
  | [] => eret tt
  end.

End WithPlatform.

(** *** Cell rendering and column sizing of the rows grid *)

(** The replacement [escapeHtml] makes for one character. *)
Definition escape_char (c : ascii) : string :=
  if Ascii.eqb c "&" then "&amp;"
  else if Ascii.eqb c "<" then "&lt;"
  else if Ascii.eqb c ">" then "&gt;"
  else if Ascii.eqb c "034" then "&quot;"
  else if Ascii.eqb c "'" then "&#39;"
  else String c EmptyString.

(** [String(s).replace(re, c => table[c])], where [re] matches, anywhere
    in the text, the five characters of the table. *)
Fixpoint escapeHtml (s : string) : string :=
  match s with
  | EmptyString => EmptyString
  | String c s' => escape_char c +:+ escapeHtml s'
  end.

Definition SAMPLE_LIMIT : N := 1000.

(** The loop [for (i = 0; i < rows.length; i += step) sampled.push(rows[i])];
    [todo] bounds the number of iterations. *)
Fixpoint sample_loop (rows : list Row) (step : nat) (todo : nat) (i : nat)
    (sampled : list Row) : list Row :=
  match todo with
  | O => sampled
  | S todo' =>
      if (i <? length rows)%nat then
        sample_loop rows step todo' (i + step)
          (sampled ++ option_list (rows !! i))
      else sampled
  end.

(** The rows [renderRowsGrid] measures. *)
Definition sampleRows (rows : list Row) : list Row :=
  if SAMPLE_LIMIT <? N.of_nat (length rows) then
    let step := N.max 1 (floor_div (N.of_nat (length rows)) SAMPLE_LIMIT) in
    let sampled := sample_loop rows (N.to_nat step) (length rows) 0 [] in
    take (N.to_nat SAMPLE_LIMIT) sampled
  else rows.

(** [rows.length > 0 && rows.every(r => r[c] === null || typeof r[c] === 'number')] *)
Definition isNumeric (c : string) (rows : list Row) : bool :=
  negb (length rows =? 0)%nat &&
  forallb (fun r =>
             match row_get r c with
             | VNull | VNumber _ => true
             | _ => false
             end) rows.

(** A column definition of the rows grid: the field, the width, and
    whether the cells get the class [ag-right-aligned-cell]. *)
Record RowsColDef := mkRowsColDef {
  col_field : string;
  col_width : Z;
  col_rightAligned : bool
}.

Section RowsGrid.
Context `{Platform}.

(** [JSON.stringify] on an object, and the width in pixels the canvas
    measures for a text in the font of the grid, rounded up. *)
Variable JSON_stringify : positive → string.
Variable measureTextWidth : string → Z.

(** [(typeof v === 'object') ? JSON.stringify(v) : String(v)], on a value
    that is neither [null] nor [undefined]. *)
Definition cell_string (v : Value) : string :=
  match v with
  | VObject r => JSON_stringify r
  | _ => JS_String v
  end.

(** The function [cellRendererFactory] returns, applied to a cell value. *)
Definition cellRenderer (v : Value) : string :=
  if is_nullish v then EmptyString
  else
    "<span style=" +:+ String "034"
      "color:#0b64c6;cursor:pointer;text-decoration:underline;"
    +:+ String "034" ">" +:+ escapeHtml (cell_string v) +:+ "</span>".

(** The loop over the sampled rows that computes [maxWidth] for column
    [c]. *)
Definition content_width (c : string) (sample : list Row) : Z :=
  foldl (fun maxWidth row =>
           let v := row_get row c in
           if is_nullish v then maxWidth
           else
             let w := measureTextWidth (cell_string v) in
             if (maxWidth <? w)%Z then w else maxWidth)
    24%Z sample.

(** The callback of [columnNames.map] in [renderRowsGrid]. *)
Definition columnDef (rows : list Row) (c : string) : RowsColDef :=
  let maxWidth := content_width c (sampleRows rows) in
  let padding := 28%Z in
  let width := Z.min (Z.max (maxWidth + padding) 40) 2000 in
  mkRowsColDef c width (isNumeric c rows).

Definition columnDefs (columnNames : list string) (rows : list Row)
    : list RowsColDef :=
  map (columnDef rows) columnNames.

End RowsGrid.

End Part000.

(** ** Definitions used to state the properties *)

(** The row count a database handle reports for a name: [None] when
    opening the table or reading its count throws. *)
Definition reported_count (r : Reader) (name : string) : option N :=
  match getTable r name with
  | Ok t =>
      match rowCount t with
      | Ok rc => Some rc
      | Throw _ => None
      end
  | Throw _ => None
  end.

(** [catalog] is the catalog of the names [names] of the handle [r]:
    one entry per name, in order, with the reported row count or [0],
    and no negative count. *)
Definition catalog_of (r : Reader) (names : list string)
    (catalog : list CatalogEntry) : Prop :=
  length catalog = length names ∧
  (∀ i name, names !! i = Some name →
     ∃ e, catalog !! i = Some e ∧
          entry_name e = name ∧
          (∀ rc, reported_count r name = Some rc → entry_rowCount e = rc) ∧
          (reported_count r name = None → entry_rowCount e = 0)) ∧
  Forall (fun e => (0 <= Z.of_N (entry_rowCount e))%Z) catalog.

(** The offset of sampling block [i] in a table of [rc] rows, and the
    rows an honest handle returns for it. *)
Definition block_offset (rc i : N) : N := floor_div (i * rc) 20.

Definition sample_block (rows : list Row) (sampleSize i : N) : list Row :=
  slice_rows
    (mkOpts (Some (block_offset (N.of_nat (length rows)) i))
       (Some (ceil_div sampleSize 20)))
    rows.

(** The block indices [from], [from + 1], ..., [n] of them. *)
Definition block_indices (from : N) (n : nat) : list N :=
  map (fun k => from + N.of_nat k) (seq 0 n).

(** The row positions the 20 blocks of 50 rows cover, in fetch order. *)
Definition sample_positions (rc : N) : list nat :=
  flat_map (fun i => seq (N.to_nat (block_offset rc i)) 50)
    (block_indices 0 20).

(** The column width estimator, as the specification words it. *)
Section WidthSpec.
Context `{Platform}.

(** The length recorded for a cell: that of its text, [null] and
    [undefined] counting as the empty string. *)
Definition cell_length (v : Value) : nat :=
  match v with
  | VUndefined | VNull => String.length EmptyString
  | _ => String.length (JS_String v)
  end.

Definition sampled_lengths (name : string) (rows : list Row) : list nat :=
  map (fun row => cell_length (row_get row name)) rows.

(** The element at index [floor(0.75 × count)] of the ascending-sorted
    lengths, [0] for an empty sample. *)
Definition percentile_75 (lens : list nat) : nat :=
  match lens with
  | [] => 0%nat
  | _ =>
      nth (Z.to_nat (Qfloor ((3 # 4) * inject_Z (Z.of_nat (length lens)))))
        (merge_sort Nat.le lens) 0%nat
  end.

Definition clamp (lo hi x : Z) : Z :=
  if (x <? lo)%Z then lo else if (hi <? x)%Z then hi else x.

Definition estimated_width (name : string) (rows : list Row) : Z :=
  clamp 60 800
    (Qceiling (inject_Z (Z.of_nat (percentile_75 (sampled_lengths name rows)))
               * (12 # 1)) + 24)%Z.

End WidthSpec.

(** Every element repeated [m] times in place. *)
Definition repeat_each {A} (m : nat) (l : list A) : list A :=
  flat_map (replicate m) l.

(** How often [name] is listed among the column names. *)
Definition occurrences (name : string) (cols : list string) : nat :=
  length (filter (fun c => c = name) cols).

(** Some row of [data] holds, in some column, a cell of the same type
    and value as [value] (which [NaN] never is, not even to itself). *)
Definition holds_value (value : Value) (data : list Row) : Prop :=
  ∃ row col, row ∈ data ∧ row !! col = Some value ∧ value ≠ VNumber NaN.

Definition is_ok {A} (r : Result A) : bool :=
  match r with
  | Ok _ => true
  | Throw _ => false
  end.

(** [selectTable] runs to its end on this handle. *)
Definition navigable (tbl : TableHandle) : bool :=
  is_ok (columnCount tbl) && is_ok (rowCount tbl)
  && is_ok (getData tbl (limit_opts 5000)) && is_ok (getColumnNames tbl).

(** The click-path scan stops at the catalog entry [e]: it is not the
    origin, its handle is cached, the fetch of its first 10000 rows
    succeeds and holds a cell [=== value], and the navigation to it
    does not throw. *)
Definition scan_hit (tm : gmap string TableHandle) (value : Value)
    (originTable : string) (e : CatalogEntry) : bool :=
  negb (String.eqb (entry_name e) originTable) &&
  match tm !! entry_name e with
  | Some tbl =>
      match getData tbl (limit_opts 10000) with
      | Ok data => existsb (Part000.row_has_value value) data && navigable tbl
      | Throw _ => false
      end
  | None => false
  end.

(** The error the two fast-store writes of a save end with, if any:
    the first write that fails leaves the store as it is. *)
Definition ls_write_fault (k1 v1 k2 v2 : string) (w : World)
    : option JsError :=
  match ls_fault w (ls_items w) k1 v1 with
  | Some e => Some e
  | None => ls_fault w (<[k1 := v1]> (ls_items w)) k2 v2
  end.

(** The transactional store takes a write at the first attempt or at
    the retry of [saveFile]. *)
Definition idb_accepts (faults : list (option JsError)) : bool :=
  match faults with
  | Some _ :: Some _ :: _ => false
  | _ => true
  end.

(** The handle the catalog builder caches for a name: the one the
    database opens, provided its row count can be read. *)
Definition opened (r : Reader) (name : string) : option TableHandle :=
  match getTable r name with
  | Ok t =>
      match rowCount t with
      | Ok _ => Some t
      | Throw _ => None
      end
  | Throw _ => None
  end.

(** The cache entry for [name] after the catalog of [names] has been
    built on the cache [tm]. *)
Definition cached_after (r : Reader) (names : list string)
    (tm : gmap string TableHandle) (name : string) : option TableHandle :=
  if decide (name ∈ names) then
    match opened r name with
    | Some t => Some t
    | None => tm !! name
    end
  else tm !! name.

(** The part of the state of [index.mjs] that only [handleFile],
    [initFromStorage] and the drag listeners write. *)
Definition index_frame (a a' : IndexMjs.App) : Prop :=
  IndexMjs.world a' = IndexMjs.world a ∧
  IndexMjs.reader a' = IndexMjs.reader a ∧
  IndexMjs.toolbar a' = IndexMjs.toolbar a ∧
  IndexMjs.timers a' = IndexMjs.timers a.

(** What a click on a cell leaves alone in the second variant: the
    storage, the database handle, the catalog, the table cache and the
    relationships. *)
Definition click_frame (a a' : Part000.App) : Prop :=
  Part000.world a' = Part000.world a ∧
  Part000.reader a' = Part000.reader a ∧
  Part000.tables a' = Part000.tables a ∧
  Part000.tableMap a' = Part000.tableMap a ∧
  Part000.relationships a' = Part000.relationships a.

(** The characters that open or close markup or an attribute value:
    the two angle brackets, the double quote and the single quote. *)
Definition is_markup (c : ascii) : bool :=
  Ascii.eqb c "<" || Ascii.eqb c ">" || Ascii.eqb c "034" || Ascii.eqb c "'".

(** ** Concrete data for the examples *)

Module Demo.

Definition bytes_of (s : string) : list Byte.byte :=
  map byte_of_ascii (list_ascii_of_string s).

Definition quota_error : JsError :=
  mkError "QuotaExceededError" 22 "The quota has been exceeded.".

Definition idb_error : JsError :=
  mkError "UnknownError" 0 "Internal error opening backing store.".

(** A fast store that refuses any value of more than [capacity]
    characters. *)
Definition quota_fault (capacity : nat)
    : gmap string string → string → string → option JsError :=
  fun _ _ v =>
    if (capacity <? String.length v)%nat then Some quota_error else None.

(** An origin whose fast store takes values of 8 characters at most,
    with the given IndexedDB faults to come and readable files. *)
Definition world (faults : list (option JsError)) : World :=
  mkWorld ∅ (quota_fault 8) ∅ faults
    (fun _ => None) (fun _ => None) (fun _ => false).

Definition old_file : File := mkFile "old.mdb" (bytes_of "OLD").
Definition new_file : File := mkFile "new.mdb" (bytes_of "A LARGER DATABASE").
Definition backup_file : File :=
  mkFile "northwind.backup" (bytes_of "A LARGER DATABASE").

Definition num (z : Z) : Value := VNumber (Finite (Q2Qc (inject_Z z))).

Definition table_A : TableHandle := table_of ["id"] [ {["id" := num 42]} ].
Definition table_B : TableHandle :=
  table_of ["code"] [ {["code" := VString "42"]} ].
Definition table_C : TableHandle :=
  table_of ["ref"; "label"]
    [ {["ref" := num 7; "label" := VString "seven"]};
      {["ref" := num 42; "label" := VNull]} ].

(** 10001 rows; only the last one holds 42. *)
Definition late_rows : list Row :=
  replicate (N.to_nat 10000) {["x" := num 0]} ++ [ {["x" := num 42]} ].
Definition table_Late : TableHandle := table_of ["x"] late_rows.

(** 50000 rows. *)
Definition orders_rows : list Row :=
  replicate (N.to_nat 50000) {["total" := num 10]}.
Definition table_Orders : TableHandle := table_of ["total"] orders_rows.

(** 1001 rows, numbered. *)
Definition numbered_rows : list Row :=
  map (fun i => {["n" := num (Z.of_nat i)]}) (seq 0 1001).
Definition table_Numbered : TableHandle := table_of ["n"] numbered_rows.

(** A table whose row count cannot be read. *)
Definition table_NoCount : TableHandle :=
  mkTable (Throw type_error) (Ok 1) (Ok ["a"]) (fun _ => Ok []).

Definition reader_of (names : list string)
    (open : string → Result TableHandle) : Reader :=
  mkReader (Ok names) open.

Definition no_such_table : JsError :=
  mkError "Error" 0 "Could not find table with name".

Definition northwind : Reader :=
  reader_of ["A"; "B"; "Broken"; "NoCount"; "C"]
    (fun name =>
       if String.eqb name "A" then Ok table_A
       else if String.eqb name "B" then Ok table_B
       else if String.eqb name "C" then Ok table_C
       else if String.eqb name "NoCount" then Ok table_NoCount
       else Throw no_such_table).

Definition warehouse : Reader :=
  reader_of ["A"; "Late"; "C"; "Orders"]
    (fun name =>
       if String.eqb name "A" then Ok table_A
       else if String.eqb name "Late" then Ok table_Late
       else if String.eqb name "C" then Ok table_C
       else if String.eqb name "Orders" then Ok table_Orders
       else Throw no_such_table).

(** A platform for the examples: numbers print as integers, every
    non-empty file decodes to the [warehouse] database, and the keys of a
    row are listed in the order of the map. *)
Definition platform : Platform :=
  {| Number_toString := fun n =>
       match n with
       | NaN => "NaN"
       | Infinity false => "Infinity"
       | Infinity true => "-Infinity"
       | Finite q => pretty (Qnum q)
       end;
     Object_toString := fun _ => "[object Object]";
     MDBReader_new := fun bytes =>
       match bytes with
       | [] => Throw (mkError "Error" 0 "Wrong file type")
       | _ => Ok warehouse
       end;
     Object_keys_order := Object_keys;
     Object_keys_order_perm := fun r => Permutation_refl (Object_keys r) |}.

(** The two scripts before any file is loaded. *)
Definition index_init (w : World) : IndexMjs.App :=
  IndexMjs.mkApp w None ∅ [] [] [] EmptyString ∅ [].

Definition part000_init (w : World) : Part000.App :=
  Part000.mkApp w [] None [] ∅ [] None false None None EmptyString None
    EmptyString [].

(** The scripts with a database open and its catalog built. *)
Definition index_with (r : Reader) : IndexMjs.App :=
  (@IndexMjs.buildTablesList platform
     (IndexMjs.set_reader r (index_init (world [])))).2.

Definition part000_with (r : Reader) : Part000.App :=
  (Part000.buildTablesList
     (Part000.set_reader r (part000_init (world [])))).2.

(** An origin whose fast store holds a text that is not base64, and
    whose IndexedDB holds a file. *)
Definition corrupt_world : World :=
  mkWorld {["mdb-base64" := "%%%"]} (quota_fault 8)
    {["file" := mkIdbEntry new_file "new.mdb"]} []
    (fun _ => None) (fun _ => None) (fun _ => false).

(** An origin whose fast store refuses every write and whose next two
    IndexedDB operations fail. *)
Definition hostile_world : World :=
  mkWorld ∅ (quota_fault 0) ∅ [Some idb_error; Some idb_error]
    (fun _ => None) (fun _ => None) (fun _ => false).


(** A second database: its table [A] cannot be opened, and its table
    [C] holds what [B] holds in [northwind]. *)
Definition second_db : Reader :=
  reader_of ["A"; "C"]
    (fun name =>
       if String.eqb name "C" then Ok table_B else Throw no_such_table).

End Demo.

(** * Properties *)

Ltac eff_unfold :=
  unfold ebind, etry, elift, eret, ethrow, emodify, egets, ezoom in *.

(** ** Table catalog *)

Lemma catalog_entry_run r name tm :
  ∃ tm', catalog_entry r name tm
         = (Ok (mkEntry name (default 0 (reported_count r name))), tm').
Proof.
  unfold catalog_entry, reported_count. eff_unfold.
  destruct (getTable r name) as [t|e]; simpl; [|eauto].
  destruct (rowCount t) as [rc|e]; simpl; eauto.
Qed.

Lemma catalog_entries_run r names tm :
  ∃ tm', catalog_entries r names tm
         = (Ok (map (fun name =>
                       mkEntry name (default 0 (reported_count r name)))
                  names), tm').
Proof.
  revert tm. induction names as [|name rest IH]; intros tm; simpl.
  - eexists. reflexivity.
  - unfold ebind at 1.
    destruct (catalog_entry_run r name tm) as [tm1 ->].
    unfold ebind at 1.
    destruct (IH tm1) as [tm2 ->]. eexists. reflexivity.
Qed.

Section Catalog.
Context `{Platform}.

Lemma index_showTable_leftRowData name a :
  IndexMjs.leftRowData (IndexMjs.showTable name a).2 = IndexMjs.leftRowData a.
Proof.
  unfold IndexMjs.showTable. eff_unfold. simpl.
  destruct (IndexMjs.tableMap a !! name) as [t|]; simpl; [|done].
  destruct (getData t no_opts) as [rows|e]; simpl; [|done].
  destruct (IndexMjs.sampleRowsForTable t 1000); done.
Qed.

Lemma index_buildTablesList_rows a r names :
  IndexMjs.reader a = Some r →
  getTableNames r = Ok names →
  IndexMjs.leftRowData (IndexMjs.buildTablesList a).2
  = map (fun name => mkEntry name (default 0 (reported_count r name))) names.
Proof.
  intros Hr Hn. unfold IndexMjs.buildTablesList.
  unfold etry, ebind at 1, egets. rewrite Hr.
  unfold ebind at 1, elift. unfold ebind at 1. rewrite Hn.
  unfold ebind at 1, ezoom.
  destruct (catalog_entries_run r names (IndexMjs.tableMap a)) as [tm ->].
  unfold ebind at 1, emodify.
  set (tables := map _ names).
  set (a1 := IndexMjs.set_leftRowData tables (IndexMjs.set_tableMap tm a)).
  destruct tables as [|e es] eqn:Ht.
  - reflexivity.
  - pose proof (index_showTable_leftRowData (entry_name e) a1) as Hs.
    destruct (IndexMjs.showTable (entry_name e) a1) as [[[]|err] a2];
      simpl in *; exact Hs.
Qed.

Lemma part000_buildTablesList_rows a r names :
  Part000.reader a = Some r →
  getTableNames r = Ok names →
  Part000.tables (Part000.buildTablesList a).2
  = map (fun name => mkEntry name (default 0 (reported_count r name))) names.
Proof.
  intros Hr Hn. unfold Part000.buildTablesList.
  unfold ebind at 1, egets. rewrite Hr.
  unfold ebind at 1, elift. unfold ebind at 1. rewrite Hn.
  unfold ebind at 1, ezoom.
  destruct (catalog_entries_run r names (Part000.tableMap a)) as [tm ->].
  unfold Part000.renderTablesGrid. eff_unfold. simpl.
  destruct (getTable r "MSysRelationships") as [t|e]; simpl.
  - destruct (getData t (limit_opts 10000)); simpl;
      destruct (Part000.tablesGrid a); reflexivity.
  - destruct (Part000.tablesGrid a); reflexivity.
Qed.

(** C3. On a database handle whose enumeration returns the names
    [names], both variants of [buildTablesList] leave a catalog of
    exactly [length names] entries, in enumeration order: entry [i]
    carries the [i]-th name and the row count its table reports, or
    [0] when opening the table or reading its count throws (the other
    entries are still there); no count is negative. *)
Theorem buildTablesList_catalog (r : Reader) (names : list string)
    (a : IndexMjs.App) (b : Part000.App) :
  IndexMjs.reader a = Some r →
  Part000.reader b = Some r →
  getTableNames r = Ok names →
  catalog_of r names (IndexMjs.leftRowData (IndexMjs.buildTablesList a).2) ∧
  catalog_of r names (Part000.tables (Part000.buildTablesList b).2).
Proof.
  intros Ha Hb Hn.
  rewrite (index_buildTablesList_rows a r names Ha Hn).
  rewrite (part000_buildTablesList_rows b r names Hb Hn).
  assert (catalog_of r names
            (map (fun name =>
                    mkEntry name (default 0 (reported_count r name))) names))
    as Hc; [|by split].
  split; [by rewrite length_map|]. split.
  - intros i name Hi. eexists. split.
    + rewrite list_lookup_fmap, Hi. reflexivity.
    + simpl. split; [done|]. split.
      * by intros rc ->.
      * by intros ->.
  - apply Forall_forall. intros e _. lia.
Qed.

End Catalog.

(** ** Row sampling *)

Ltac divlia := zify; Z.to_euclidean_division_equations; lia.

Lemma block_indices_S from n :
  block_indices from (S n) = from :: block_indices (from + 1) n.
Proof.
  unfold block_indices. simpl. f_equal; [lia|].
  rewrite <- seq_shift, map_map. apply map_ext. intros; lia.
Qed.

Lemma block_offset_mono rc i j : i <= j → block_offset rc i <= block_offset rc j.
Proof.
  intros. unfold block_offset, floor_div.
  apply N.Div0.div_le_mono. nia.
Qed.

Lemma block_fits rc s i :
  s < rc → i < 20 → block_offset rc i + ceil_div s 20 <= rc.
Proof.
  intros Hs Hi.
  pose proof (block_offset_mono rc i 19 ltac:(lia)) as Hm.
  unfold block_offset, floor_div, ceil_div in *. divlia.
Qed.

Lemma block_spacing rc i :
  1000 < rc → block_offset rc i + 50 <= block_offset rc (i + 1).
Proof.
  intros. unfold block_offset, floor_div.
  replace ((i + 1) * rc) with (i * rc + rc) by lia.
  generalize (i * rc). intros x. divlia.
Qed.

Lemma sample_block_length rows s i :
  s < N.of_nat (length rows) → i < 20 →
  length (sample_block rows s i) = N.to_nat (ceil_div s 20).
Proof.
  intros Hs Hi. unfold sample_block, slice_rows. simpl.
  pose proof (block_fits _ _ _ Hs Hi).
  rewrite length_take, length_drop. lia.
Qed.

Lemma sample_blocks_take t rows s todo i acc :
  honours t rows →
  take (N.to_nat s)
    (IndexMjs.sample_blocks t (N.of_nat (length rows)) s 20 (ceil_div s 20)
       todo i acc)
  = take (N.to_nat s)
      (acc ++ concat (map (sample_block rows s) (block_indices i todo))).
Proof.
  intros [_ Hd]. revert i acc. induction todo as [|todo IH]; intros i acc.
  - simpl. by rewrite app_nil_r.
  - rewrite block_indices_S. simpl.
    destruct (N.leb_spec s (N.of_nat (length acc))) as [Hle|Hlt].
    + rewrite !take_app_le by lia. done.
    + rewrite Hd, IH. by rewrite <- app_assoc.
Qed.

Lemma concat_blocks_length rows s i n :
  s < N.of_nat (length rows) → (N.to_nat i + n <= 20)%nat →
  length (concat (map (sample_block rows s) (block_indices i n)))
  = (n * N.to_nat (ceil_div s 20))%nat.
Proof.
  intros Hs. revert i. induction n as [|n IH]; intros i Hi; [done|].
  rewrite block_indices_S. simpl.
  rewrite length_app, IH, sample_block_length by lia. done.
Qed.

Lemma sampleRowsForTable_blocks t rows s :
  honours t rows → s < N.of_nat (length rows) →
  IndexMjs.sampleRowsForTable t s
  = Ok (take (N.to_nat s)
          (concat (map (sample_block rows s) (block_indices 0 20)))).
Proof.
  intros Hh Hs. unfold IndexMjs.sampleRowsForTable.
  rewrite (proj1 Hh). unfold mbind, result_bind.
  destruct (N.leb_spec (N.of_nat (length rows)) s); [lia|].
  f_equal. change (N.to_nat 20) with 20%nat.
  by rewrite (sample_blocks_take t rows s 20 0 []).
Qed.

Lemma concat_blocks_lookup rows s i n j k :
  s < N.of_nat (length rows) → (N.to_nat i + n <= 20)%nat →
  (j < n)%nat → (k < N.to_nat (ceil_div s 20))%nat →
  concat (map (sample_block rows s) (block_indices i n))
    !! (j * N.to_nat (ceil_div s 20) + k)%nat
  = sample_block rows s (i + N.of_nat j) !! k.
Proof.
  intros Hs. revert i j. induction n as [|n IH]; intros i j Hi Hj Hk; [lia|].
  rewrite block_indices_S. cbn [map concat].
  pose proof (sample_block_length rows s i Hs ltac:(lia)) as Hlen.
  destruct j as [|j].
  - rewrite lookup_app_l by lia. simpl. f_equal. f_equal. lia.
  - rewrite lookup_app_r by (rewrite Hlen; lia).
    rewrite Hlen.
    replace (S j * N.to_nat (ceil_div s 20) + k - N.to_nat (ceil_div s 20))%nat
      with (j * N.to_nat (ceil_div s 20) + k)%nat by lia.
    rewrite IH by lia. f_equal. f_equal. lia.
Qed.

(** Sampling is best effort: whatever the block fetches do, the result
    is a list of at most [sampleSize] rows. *)
Lemma sampleRowsForTable_best_effort (t : TableHandle) (s rc : N) :
  rowCount t = Ok rc → s < rc →
  ∃ sample,
    IndexMjs.sampleRowsForTable t s = Ok sample ∧
    N.of_nat (length sample) <= s.
Proof.
  intros Hc Hs. unfold IndexMjs.sampleRowsForTable.
  rewrite Hc. unfold mbind, result_bind.
  destruct (N.leb_spec rc s); [lia|].
  eexists. split; [reflexivity|]. rewrite length_take. lia.
Qed.

(** C4. For a handle that reports its row count accurately and honours
    offset/limit fetches without failing: a table of at most
    [sampleSize] rows is returned whole and unsampled; a larger table
    gives exactly [sampleSize] rows, the first [sampleSize] rows of the
    concatenation of the 20 blocks of [ceil(sampleSize / 20)] rows
    fetched at the offsets [floor(i * rowCount / 20)].  The offsets
    start at row 0, every block lies inside the table, and the last
    block starts in the last twentieth of the rows.  When
    [19 * ceil(sampleSize / 20) < sampleSize], as for the sample size
    1000 the script uses, the first row of each of the 20 blocks is in
    the sample. *)
Theorem sampleRowsForTable_honest (t : TableHandle) (rows : list Row) (s : N) :
  honours t rows →
  (N.of_nat (length rows) <= s → IndexMjs.sampleRowsForTable t s = Ok rows) ∧
  (s < N.of_nat (length rows) →
   ∃ sample,
     IndexMjs.sampleRowsForTable t s = Ok sample ∧
     N.of_nat (length sample) = s ∧
     sample = take (N.to_nat s)
                (concat (map (sample_block rows s) (block_indices 0 20))) ∧
     block_offset (N.of_nat (length rows)) 0 = 0 ∧
     (∀ i, i < 20 →
        block_offset (N.of_nat (length rows)) i + ceil_div s 20
        <= N.of_nat (length rows)) ∧
     N.of_nat (length rows)
     <= block_offset (N.of_nat (length rows)) 19
        + ceil_div (N.of_nat (length rows)) 20 ∧
     (19 * ceil_div s 20 < s →
      ∀ i, i < 20 →
        ∃ row,
          rows !! N.to_nat (block_offset (N.of_nat (length rows)) i) = Some row ∧
          sample !! (N.to_nat i * N.to_nat (ceil_div s 20))%nat = Some row)).
Proof.
  intros Hh. split.
  - intros Hle. unfold IndexMjs.sampleRowsForTable.
    destruct Hh as [Hc Hd]. rewrite Hc. unfold mbind, result_bind.
    destruct (N.leb_spec (N.of_nat (length rows)) s); [|lia].
    rewrite Hd. unfold slice_rows. simpl. by rewrite drop_0.
  - intros Hs. eexists. split; [by apply sampleRowsForTable_blocks|].
    split; [|split; [done|split; [done|split; [|split]]]].
    + rewrite length_take, concat_blocks_length by (simpl; lia).
      unfold ceil_div. divlia.
    + intros i Hi. by apply block_fits.
    + unfold block_offset, floor_div, ceil_div. divlia.
    + intros Hall i Hi.
      pose proof (block_fits _ _ i Hs Hi) as Hfit.
      assert (0 < ceil_div s 20) as Hpos by (unfold ceil_div in *; divlia).
      destruct (lookup_lt_is_Some_2 rows
                  (N.to_nat (block_offset (N.of_nat (length rows)) i))
                  ltac:(lia)) as [row Hrow].
      exists row. split; [done|].
      rewrite lookup_take_lt by nia.
      pose proof (concat_blocks_lookup rows s 0 20 (N.to_nat i) 0 Hs
                    ltac:(simpl; lia) ltac:(lia) ltac:(lia)) as Hl.
      rewrite Nat.add_0_r in Hl. rewrite Hl.
      replace (0 + N.of_nat (N.to_nat i)) with i by lia.
      unfold sample_block, slice_rows. simpl.
      rewrite lookup_take_lt by lia. rewrite lookup_drop.
      by rewrite Nat.add_0_r.
Qed.

Lemma slice_positions (rows : list Row) (o k : nat) :
  (o + k <= length rows)%nat →
  Forall2 (fun row p => rows !! p = Some row) (take k (drop o rows)) (seq o k).
Proof.
  intros Hle. apply Forall2_same_length_lookup. split.
  - rewrite length_take, length_drop, length_seq. lia.
  - intros i row p Hr Hp.
    apply lookup_seq in Hp as [-> Hi].
    rewrite lookup_take_lt, lookup_drop in Hr by done. done.
Qed.

Lemma blocks_positions (rows : list Row) i n :
  1000 < N.of_nat (length rows) → (N.to_nat i + n <= 20)%nat →
  Forall2 (fun row p => rows !! p = Some row)
    (concat (map (sample_block rows 1000) (block_indices i n)))
    (flat_map (fun i => seq (N.to_nat (block_offset (N.of_nat (length rows)) i)) 50)
       (block_indices i n)).
Proof.
  intros Hrc. revert i. induction n as [|n IH]; intros i Hi.
  - constructor.
  - rewrite block_indices_S. cbn [concat map flat_map].
    apply Forall2_app; [|apply IH; lia].
    pose proof (block_fits (N.of_nat (length rows)) 1000 i Hrc ltac:(lia)) as Hf.
    change (ceil_div 1000 20) with 50 in Hf.
    unfold sample_block, slice_rows. simpl.
    change (N.to_nat (ceil_div 1000 20)) with 50%nat.
    apply slice_positions. lia.
Qed.

Lemma positions_lower rc i n p :
  p ∈ flat_map (fun i => seq (N.to_nat (block_offset rc i)) 50) (block_indices i n) →
  (N.to_nat (block_offset rc i) <= p)%nat.
Proof.
  revert i. induction n as [|n IH]; intros i Hp.
  - by apply elem_of_nil in Hp.
  - rewrite block_indices_S in Hp. cbn [flat_map] in Hp.
    apply elem_of_app in Hp as [Hp|Hp].
    + apply elem_of_seq in Hp. lia.
    + apply IH in Hp.
      pose proof (block_offset_mono rc i (i + 1) ltac:(lia)). lia.
Qed.

Lemma positions_sorted rc i n :
  1000 < rc →
  StronglySorted lt
    (flat_map (fun i => seq (N.to_nat (block_offset rc i)) 50) (block_indices i n)).
Proof.
  intros Hrc. revert i. induction n as [|n IH]; intros i.
  - constructor.
  - rewrite block_indices_S. cbn [flat_map].
    apply StronglySorted_app_2; [| |apply IH].
    + intros x y Hx Hy. apply elem_of_seq in Hx. apply positions_lower in Hy.
      pose proof (block_spacing rc i Hrc). lia.
    + generalize (N.to_nat (block_offset rc i)). generalize 50%nat.
      intros k. induction k as [|k IHk]; intros o; simpl; constructor.
      * apply IHk.
      * apply Forall_forall. intros x Hx.
        apply elem_of_seq in Hx. lia.
Qed.

Lemma sorted_lt_NoDup (l : list nat) : StronglySorted lt l → NoDup l.
Proof.
  induction 1 as [|x l Hs IH Hall]; constructor; [|done].
  intros Hin. rewrite Forall_forall in Hall. specialize (Hall x Hin). lia.
Qed.

(** C10. For a table of more than 1000 rows whose handle honours offset
    and limit, the block size is [ceil(1000 / 20) = 50], consecutive
    block offsets [floor(i * rowCount / 20)] are at least 50 rows apart,
    and the sample is made of the rows at the positions
    [sample_positions], which are strictly increasing: no row position
    is returned twice. *)
Theorem sample_blocks_disjoint (t : TableHandle) (rows : list Row) :
  honours t rows →
  1000 < N.of_nat (length rows) →
  ceil_div 1000 20 = 50 ∧
  (∀ i, i < 19 →
     block_offset (N.of_nat (length rows)) i + 50
     <= block_offset (N.of_nat (length rows)) (i + 1)) ∧
  ∃ sample,
    IndexMjs.sampleRowsForTable t 1000 = Ok sample ∧
    Forall2 (fun row p => rows !! p = Some row) sample
      (sample_positions (N.of_nat (length rows))) ∧
    StronglySorted lt (sample_positions (N.of_nat (length rows))) ∧
    NoDup (sample_positions (N.of_nat (length rows))).
Proof.
  intros Hh Hrc. split; [reflexivity|]. split.
  - intros i _. by apply block_spacing.
  - eexists. split; [by apply sampleRowsForTable_blocks|].
    pose proof (positions_sorted (N.of_nat (length rows)) 0 20 Hrc) as Hs.
    split; [|split; [exact Hs|by apply sorted_lt_NoDup]].
    rewrite take_ge.
    + apply blocks_positions; [done|simpl; lia].
    + rewrite concat_blocks_length by (simpl; lia).
      change (N.to_nat (ceil_div 1000 20)) with 50%nat. simpl. lia.
Qed.

(** ** Column widths *)

Lemma repeat_each_cons {A} m (x : A) l :
  repeat_each m (x :: l) = replicate m x ++ repeat_each m l.
Proof. reflexivity. Qed.

Lemma repeat_each_length {A} m (l : list A) :
  length (repeat_each m l) = (m * length l)%nat.
Proof.
  induction l as [|x l IH]; [simpl; lia|].
  rewrite repeat_each_cons, length_app, length_replicate, IH. simpl. lia.
Qed.

Lemma repeat_each_Permutation {A} m (l k : list A) :
  l ≡ₚ k → repeat_each m l ≡ₚ repeat_each m k.
Proof.
  induction 1 as [|x l k _ IH|x y l|l k j _ IH1 _ IH2].
  - done.
  - rewrite !repeat_each_cons. by rewrite IH.
  - rewrite !repeat_each_cons, !app_assoc.
    f_equiv. apply Permutation_app_comm.
  - by rewrite IH1.
Qed.

Lemma elem_of_repeat_each {A} m (l : list A) x :
  x ∈ repeat_each m l → x ∈ l.
Proof.
  induction l as [|y l IH]; [done|].
  rewrite repeat_each_cons, elem_of_app. intros [Hx|Hx].
  - apply elem_of_replicate in Hx as [-> _]. left.
  - right. by apply IH.
Qed.

Lemma repeat_each_sorted m (l : list nat) :
  StronglySorted Nat.le l → StronglySorted Nat.le (repeat_each m l).
Proof.
  induction 1 as [|x l Hs IH Hall]; [constructor|].
  rewrite repeat_each_cons. apply StronglySorted_app_2; [| |done].
  - intros a b Ha Hb. apply elem_of_replicate in Ha as [-> _].
    apply elem_of_repeat_each in Hb.
    rewrite Forall_forall in Hall. by apply Hall.
  - clear. induction m as [|m IHm]; simpl; constructor; [done|].
    apply Forall_forall. intros y Hy.
    apply elem_of_replicate in Hy as [-> _]. done.
Qed.

Lemma merge_sort_repeat_each m (l : list nat) :
  merge_sort Nat.le (repeat_each m l) = repeat_each m (merge_sort Nat.le l).
Proof.
  apply (StronglySorted_unique Nat.le).
  - apply StronglySorted_merge_sort; apply _.
  - apply repeat_each_sorted, StronglySorted_merge_sort; apply _.
  - rewrite merge_sort_Permutation.
    apply repeat_each_Permutation. by rewrite merge_sort_Permutation.
Qed.

Lemma nth_repeat_each m (l : list nat) k d :
  (0 < m)%nat → nth k (repeat_each m l) d = nth (k / m) l d.
Proof.
  intros Hm. revert k. induction l as [|x l IH]; intros k.
  - change (repeat_each m []) with (@nil nat).
    by rewrite !(nth_overflow []) by (simpl; lia).
  - rewrite repeat_each_cons.
    destruct (decide (k < m)%nat) as [Hlt|Hge].
    + rewrite app_nth1 by (rewrite length_replicate; lia).
      rewrite Nat.div_small by done. simpl.
      apply nth_lookup_Some with (d := d).
      by apply lookup_replicate_2.
    + rewrite app_nth2 by (rewrite length_replicate; lia).
      rewrite length_replicate, IH.
      replace (k / m)%nat with (S ((k - m) / m)); [done|].
      replace k with ((k - m) + 1 * m)%nat at 2 by lia.
      rewrite Nat.div_add by lia. lia.
Qed.

Lemma Qfloor_three_quarters (k : nat) :
  Qfloor (inject_Z (Z.of_nat k) * (3 # 4)) = (Z.of_nat k * 3 / 4)%Z.
Proof. reflexivity. Qed.

Lemma Qfloor_three_quarters' (k : nat) :
  Qfloor ((3 # 4) * inject_Z (Z.of_nat k)) = (Z.of_nat k * 3 / 4)%Z.
Proof. unfold Qfloor, Qmult, inject_Z. simpl. f_equal. lia. Qed.

Lemma percentile75_repeat_each m (l : list nat) :
  (0 < m)%nat → IndexMjs.percentile75 (repeat_each m l) = percentile_75 l.
Proof.
  intros Hm. unfold IndexMjs.percentile75, percentile_75.
  rewrite merge_sort_repeat_each, !repeat_each_length.
  rewrite (Permutation_length (merge_sort_Permutation Nat.le l)).
  destruct l as [|x l]; [by rewrite Nat.mul_0_r|].
  set (n := length (x :: l)).
  assert (0 < n)%nat by (subst n; simpl; lia).
  destruct (Nat.eqb_spec (m * n) 0) as [E|_]; [nia|].
  rewrite Qfloor_three_quarters, Qfloor_three_quarters'.
  rewrite nth_repeat_each by done. f_equal.
  replace (Z.to_nat (Z.of_nat (m * n) * 3 / 4)) with ((m * n * 3) / 4)%nat
    by (rewrite <- (Nat2Z.id (m * n * 3 / 4)), Nat2Z.inj_div; f_equal; lia).
  replace (Z.to_nat (Z.of_nat n * 3 / 4)) with ((n * 3) / 4)%nat
    by (rewrite <- (Nat2Z.id (n * 3 / 4)), Nat2Z.inj_div; f_equal; lia).
  rewrite Nat.Div0.div_div, (Nat.mul_comm 4 m), <- Nat.mul_assoc.
  rewrite Nat.Div0.div_mul_cancel_l by lia. done.
Qed.

Lemma foldl_insert_lookup {V} (h : string → V) (cols : list string)
    (m0 : gmap string V) (name : string) :
  foldl (fun m n => <[n := h n]> m) m0 cols !! name
  = if decide (name ∈ cols) then Some (h name) else m0 !! name.
Proof.
  revert m0. induction cols as [|c cols IH]; intros m0; cbn [foldl].
  - by rewrite decide_False by apply not_elem_of_nil.
  - rewrite IH. destruct (decide (name ∈ cols)) as [Hin|Hnin].
    + by rewrite decide_True by (by right).
    + destruct (decide (c = name)) as [->|Hne].
      * rewrite decide_True by left. by rewrite lookup_insert_eq.
      * rewrite decide_False by (rewrite elem_of_cons; intros [?|?]; congruence).
        by rewrite lookup_insert_ne.
Qed.

Lemma occurrences_pos name cols : name ∈ cols → (0 < occurrences name cols)%nat.
Proof.
  intros Hin. unfold occurrences.
  assert (name ∈ filter (fun c => c = name) cols) as Hf
    by (by apply list_elem_of_filter).
  destruct (filter _ cols); [by apply elem_of_nil in Hf|simpl; lia].
Qed.

Lemma push_row_lookup (g : string → nat) (cols : list string)
    (lengths : gmap string (list nat)) (name : string) :
  foldl (fun lengths n => IndexMjs.push_length n (g n) lengths) lengths cols
    !! name
  = (fun arr => arr ++ replicate (occurrences name cols) (g name))
      <$> lengths !! name.
Proof.
  revert lengths. induction cols as [|c cols IH]; intros lengths; cbn [foldl].
  - destruct (lengths !! name); simpl; [|done]. by rewrite app_nil_r.
  - rewrite IH. unfold IndexMjs.push_length, occurrences.
    rewrite lookup_alter, filter_cons.
    destruct (decide (c = name)) as [->|Hne].
    + destruct (lengths !! name); simpl; [|done].
      by rewrite <- app_assoc.
    + done.
Qed.

Section Widths.
Context `{Platform}.

Lemma cell_text_length v : String.length (IndexMjs.cell_text v) = cell_length v.
Proof. by destruct v. Qed.

Lemma push_rows_lookup (cols : list string) (rows : list Row)
    (lengths : gmap string (list nat)) (name : string) :
  foldl (fun lengths row =>
           foldl (fun lengths n =>
                    let s := IndexMjs.cell_text (row_get row n) in
                    IndexMjs.push_length n (String.length s) lengths)
             lengths cols)
    lengths rows !! name
  = (fun arr =>
       arr ++ repeat_each (occurrences name cols) (sampled_lengths name rows))
      <$> lengths !! name.
Proof.
  revert lengths. induction rows as [|row rows IH]; intros lengths;
    cbn [foldl].
  - destruct (lengths !! name); simpl; [|done]. by rewrite app_nil_r.
  - rewrite IH.
    rewrite (push_row_lookup
               (fun n => String.length (IndexMjs.cell_text (row_get row n)))).
    destruct (lengths !! name); simpl; [|done].
    by rewrite <- app_assoc, cell_text_length.
Qed.

Lemma clamp_min_max w : Z.min (Z.max w 60) 800 = clamp 60 800 w.
Proof.
  unfold clamp.
  destruct (Z.ltb_spec w 60); [lia|]. destruct (Z.ltb_spec 800 w); lia.
Qed.

Lemma foldl_assign_lookup (h : string → Z) (cols : list string)
    (m0 : gmap string Z) (name : string) :
  foldl (fun m n => IndexMjs.assign_number n (h n) m) m0 cols !! name
  = if decide (name ∈ cols ∧ name ≠ "__proto__") then Some (h name)
    else m0 !! name.
Proof.
  revert m0. induction cols as [|c cols IH]; intros m0; cbn [foldl].
  - rewrite decide_False; [done|]. intros [Hin _]. by apply elem_of_nil in Hin.
  - rewrite IH. unfold IndexMjs.assign_number.
    destruct (decide (name ∈ cols ∧ name ≠ "__proto__")) as [[Hin Hp]|Hn].
    + rewrite decide_True; [done|]. split; [by right|done].
    + destruct (decide (c = name)) as [->|Hne].
      * destruct (String.eqb_spec name "__proto__") as [Hp|Hp].
        -- rewrite decide_False; [done|]. by intros [_ ?].
        -- rewrite decide_True by (split; [left|done]).
           by rewrite lookup_insert_eq.
      * rewrite decide_False.
        -- destruct (String.eqb c "__proto__"); [done|].
           by rewrite lookup_insert_ne.
        -- intros [Hin Hp]. apply elem_of_cons in Hin as [?|?]; [congruence|].
           by apply Hn.
Qed.

(** What [computeColumnWidths] stores under a name. *)
Lemma computeColumnWidths_lookup (columnNames : list string)
    (sampleRows : list Row) (name : string) :
  IndexMjs.computeColumnWidths columnNames sampleRows !! name
  = if decide (name ∈ columnNames ∧ name ≠ "__proto__")
    then Some (estimated_width name sampleRows)
    else None.
Proof.
  unfold IndexMjs.computeColumnWidths.
  rewrite foldl_assign_lookup. rewrite lookup_empty.
  destruct (decide (name ∈ columnNames ∧ name ≠ "__proto__")) as [[Hin _]|];
    [|done].
  f_equal. rewrite push_rows_lookup.
  rewrite (foldl_insert_lookup (fun _ => [])).
  rewrite decide_True by done. simpl.
  rewrite percentile75_repeat_each by (by apply occurrences_pos).
  unfold IndexMjs.minWidth, IndexMjs.maxWidth, IndexMjs.cellPadding,
    IndexMjs.charWidth.
  by rewrite clamp_min_max.
Qed.

(** C5. The claim fails on a column named [__proto__], a name a table
    can carry: whatever the other columns and the sample,
    [computeColumnWidths] stores no width for it, since the assignment
    [widths[name] = w] reaches the setter of [Object.prototype] and is
    dropped, and [widths[c] || 100] then reads [Object.prototype] itself.
    On the columns [id] and [__proto__] of a table without rows the
    claim asks for the width 60 for both; the code stores it for [id]
    only. *)
Theorem computeColumnWidths_drops_proto_column (columnNames : list string)
    (sampleRows : list Row) :
  IndexMjs.computeColumnWidths columnNames sampleRows !! "__proto__" = None ∧
  IndexMjs.width_or_default
    (IndexMjs.computeColumnWidths columnNames sampleRows) "__proto__"
  = WidthMember "__proto__" ∧
  estimated_width "id" [] = 60%Z ∧
  estimated_width "__proto__" [] = 60%Z ∧
  IndexMjs.computeColumnWidths ["id"; "__proto__"] [] = {["id" := 60%Z]}.
Proof.
  assert (IndexMjs.computeColumnWidths columnNames sampleRows !! "__proto__"
          = None) as Hnone.
  { rewrite computeColumnWidths_lookup. rewrite decide_False; [done|].
    by intros [_ ?]. }
  split; [done|]. split.
  { unfold IndexMjs.width_or_default. rewrite Hnone. reflexivity. }
  split; [reflexivity|]. split; [reflexivity|].
  apply map_eq. intros name. rewrite computeColumnWidths_lookup.
  destruct (decide (name = "id")) as [->|Hne].
  - rewrite lookup_singleton_eq. reflexivity.
  - rewrite lookup_singleton_ne by done.
    rewrite decide_False; [done|].
    intros [Hin Hp]. apply elem_of_cons in Hin as [?|Hin]; [done|].
    apply elem_of_cons in Hin as [?|Hin]; [done|]. by apply elem_of_nil in Hin.
Qed.

(** X26. For every list of column names and every list of sample rows,
    and for every name that is not a property name of
    [Object.prototype], [computeColumnWidths] maps the name, when it is
    listed, to [ceil(p × 12) + 24] clamped to [60, 800], where [p] is
    the element at index [floor(0.75 × count)] of the ascending-sorted
    string lengths of the column's sampled cells ([null] and
    [undefined] counting as the empty string), [0] for an empty sample;
    it maps no name that is not listed. *)
Theorem computeColumnWidths_percentile (columnNames : list string)
    (sampleRows : list Row) (name : string) :
  name ∉ Object_prototype_keys →
  IndexMjs.computeColumnWidths columnNames sampleRows !! name
  = if decide (name ∈ columnNames)
    then Some (estimated_width name sampleRows)
    else None.
Proof.
  intros Hord. rewrite computeColumnWidths_lookup.
  assert (name ≠ "__proto__") as Hp.
  { intros ->. apply Hord. unfold Object_prototype_keys.
    do 7 (apply elem_of_cons; right). apply elem_of_cons. by left. }
  destruct (decide (name ∈ columnNames)) as [Hin|Hnin].
  - by rewrite decide_True.
  - rewrite decide_False; [done|]. by intros [? _].
Qed.

End Widths.

(** ** Value matching *)

Lemma number_strict_eq_spec a b :
  number_strict_eq a b = true ↔ a = b ∧ b ≠ NaN.
Proof.
  destruct a as [|s|p], b as [|t|q]; simpl;
    try (split; [discriminate|intros [? ?]; congruence]).
  - rewrite Bool.eqb_true_iff. split; [intros ->; done|intros [? _]; congruence].
  - rewrite Qeq_bool_iff. split.
    + intros Heq. apply Qc_is_canon in Heq. by subst.
    + intros [[= ->] _]. reflexivity.
Qed.

Lemma strict_eq_spec a b :
  strict_eq a b = true ↔ a = b ∧ b ≠ VNumber NaN.
Proof.
  destruct a, b; simpl;
    try (split; [discriminate|intros [? ?]; congruence]);
    try (split; [done|done]).
  - rewrite Bool.eqb_true_iff. split; [intros ->; done|intros [? _]; congruence].
  - rewrite number_strict_eq_spec. split.
    + intros [-> ?]. split; congruence.
    + intros [[= ->] ?]. split; congruence.
  - rewrite String.eqb_eq. split; [intros ->; done|intros [? _]; congruence].
  - rewrite Pos.eqb_eq. split; [intros ->; done|intros [? _]; congruence].
Qed.

Lemma strict_eq_type a b : strict_eq a b = true → type_of a = type_of b.
Proof. intros Heq. apply strict_eq_spec in Heq as [-> _]. done. Qed.

Lemma row_has_value_spec value (row : Row) :
  Part000.row_has_value value row = true
  ↔ ∃ col, row !! col = Some value ∧ value ≠ VNumber NaN.
Proof.
  unfold Part000.row_has_value, Object_keys. rewrite existsb_exists. split.
  - intros (col & Hin & Heq). apply strict_eq_spec in Heq as [Heq Hn].
    apply list_elem_of_In, list_elem_of_fmap in Hin as ([k v] & -> & Hin).
    apply elem_of_map_to_list in Hin. simpl in *.
    unfold row_get in Heq. rewrite Hin in Heq. simpl in Heq. subst v. eauto.
  - intros (col & Hl & Hn). exists col. split.
    + apply list_elem_of_In, list_elem_of_fmap. exists (col, value).
      split; [done|]. by apply elem_of_map_to_list.
    + unfold row_get. rewrite Hl. simpl. by apply strict_eq_spec.
Qed.

Lemma row_values_spec value (row : Row) :
  existsb (fun v => strict_eq v value) (Object_values row) = true
  ↔ ∃ col, row !! col = Some value ∧ value ≠ VNumber NaN.
Proof.
  unfold Object_values. rewrite existsb_exists. split.
  - intros (v & Hin & Heq). apply strict_eq_spec in Heq as [-> Hn].
    apply list_elem_of_In, list_elem_of_fmap in Hin as ([k v] & -> & Hin).
    apply elem_of_map_to_list in Hin. simpl. eauto.
  - intros (col & Hl & Hn). exists value. split.
    + apply list_elem_of_In, list_elem_of_fmap. exists (col, value).
      split; [done|]. by apply elem_of_map_to_list.
    + by apply strict_eq_spec.
Qed.

Lemma click_scan_spec value data :
  existsb (Part000.row_has_value value) data = true ↔ holds_value value data.
Proof.
  rewrite existsb_exists. unfold holds_value. split.
  - intros (row & Hin & Hr). apply row_has_value_spec in Hr as (col & ? & ?).
    exists row, col. by rewrite list_elem_of_In.
  - intros (row & col & Hin & ? & ?). exists row.
    rewrite <- list_elem_of_In. split; [done|].
    apply row_has_value_spec. eauto.
Qed.

Lemma hover_scan_spec value data :
  Part000.data_has_value value data = true ↔ holds_value value data.
Proof.
  unfold Part000.data_has_value. rewrite existsb_exists.
  unfold holds_value. split.
  - intros (row & Hin & Hr). apply row_values_spec in Hr as (col & ? & ?).
    exists row, col. by rewrite list_elem_of_In.
  - intros (row & col & Hin & ? & ?). exists row.
    rewrite <- list_elem_of_In. split; [done|].
    apply row_values_spec. eauto.
Qed.

Lemma selectTable_run name a :
  Part000.tableMap (Part000.selectTable name a).2 = Part000.tableMap a ∧
  ∀ tbl, Part000.tableMap a !! name = Some tbl →
    if navigable tbl then (Part000.selectTable name a).1 = Ok tt
    else ∃ e, (Part000.selectTable name a).1 = Throw e.
Proof.
  unfold Part000.selectTable, navigable, Part000.renderRowsGrid,
    Part000.highlightTableInList.
  eff_unfold. simpl.
  destruct (Part000.tableMap a !! name) as [tbl|]; simpl; [|done].
  split.
  - destruct (columnCount tbl), (rowCount tbl),
      (getData tbl (limit_opts 5000)), (getColumnNames tbl); simpl; try done;
      destruct (Part000.rowsGrid a); simpl;
      destruct (Part000.tablesApi a); reflexivity.
  - intros ? [= <-].
    destruct (columnCount tbl), (rowCount tbl),
      (getData tbl (limit_opts 5000)), (getColumnNames tbl); simpl; eauto.
Qed.

Lemma follow_one_eq t value a tbl data :
  Part000.tableMap a !! entry_name t = Some tbl →
  getData tbl (limit_opts 10000) = Ok data →
  Part000.follow_one t value a
  = if existsb (Part000.row_has_value value) data then
      match Part000.selectTable (entry_name t) a with
      | (Ok _, a1) =>
          (Ok (Some (entry_name t)),
           Part000.setTimeout (SelectMatchingRows (entry_name t) value) 50 a1)
      | (Throw e, a1) => (Throw e, a1)
      end
    else (Ok None, a).
Proof.
  intros Ht Hd. unfold Part000.follow_one. eff_unfold. simpl.
  rewrite Ht. simpl. rewrite Hd.
  destruct (existsb _ data); [|done].
  by destruct (Part000.selectTable (entry_name t) a) as [[[]|e] a1].
Qed.

Lemma follow_one_run t value a tbl data :
  Part000.tableMap a !! entry_name t = Some tbl →
  getData tbl (limit_opts 10000) = Ok data →
  Part000.tableMap (Part000.follow_one t value a).2 = Part000.tableMap a ∧
  if existsb (Part000.row_has_value value) data then
    if navigable tbl
    then (Part000.follow_one t value a).1 = Ok (Some (entry_name t))
    else ∃ e, (Part000.follow_one t value a).1 = Throw e
  else Part000.follow_one t value a = (Ok None, a).
Proof.
  intros Ht Hd. rewrite (follow_one_eq t value a tbl data Ht Hd).
  destruct (existsb _ data); [|done].
  destruct (selectTable_run (entry_name t) a) as [Hm Hn].
  specialize (Hn tbl Ht).
  destruct (Part000.selectTable (entry_name t) a) as [[[]|e] a1]; simpl in *.
  - split; [done|]. destruct (navigable tbl); [done|].
    destruct Hn as [? [=]].
  - split; [done|]. destruct (navigable tbl); [done|eauto].
Qed.

Lemma follow_step t value origin a :
  String.eqb (entry_name t) origin = false →
  let r := etry (Part000.follow_one t value) (fun _ => eret None) a in
  Part000.tableMap r.2 = Part000.tableMap a ∧
  r.1 = Ok (if scan_hit (Part000.tableMap a) value origin t
            then Some (entry_name t) else None).
Proof.
  intros Hne. unfold scan_hit. rewrite Hne. simpl.
  destruct (Part000.tableMap a !! entry_name t) as [tbl|] eqn:Ht.
  - destruct (getData tbl (limit_opts 10000)) as [data|e] eqn:Hd.
    + destruct (follow_one_run t value a tbl data Ht Hd) as [Hm Hr].
      unfold etry.
      destruct (existsb _ data).
      * destruct (navigable tbl); simpl.
        -- destruct (Part000.follow_one t value a) as [[o|e] a1];
             simpl in *; [by inversion Hr|done].
        -- destruct Hr as [e Hr].
           destruct (Part000.follow_one t value a) as [[o|e'] a1];
             simpl in *; [done|]. done.
      * rewrite Hr. done.
    + unfold etry, Part000.follow_one. eff_unfold. simpl. rewrite Ht. simpl.
      by rewrite Hd.
  - unfold etry, Part000.follow_one. eff_unfold. simpl. by rewrite Ht.
Qed.

Lemma follow_tables_run ts origin value a :
  (Part000.follow_tables ts origin value a).1
  = Ok (entry_name <$> find (scan_hit (Part000.tableMap a) value origin) ts).
Proof.
  revert a. induction ts as [|t ts IH]; intros a; [done|].
  cbn [Part000.follow_tables find].
  destruct (String.eqb (entry_name t) origin) eqn:Hne.
  - unfold scan_hit at 1. rewrite Hne. simpl. apply IH.
  - destruct (follow_step t value origin a Hne) as [Hm Hr].
    unfold ebind at 1.
    destruct (etry (Part000.follow_one t value) _ a) as [[hit|e] a1];
      simpl in *; [|done].
    destruct (scan_hit (Part000.tableMap a) value origin t).
    + inversion Hr. done.
    + inversion Hr. rewrite IH, Hm. done.
Qed.

Lemma follow_tables_truncate pre e post origin value a :
  find (scan_hit (Part000.tableMap a) value origin) pre = None →
  scan_hit (Part000.tableMap a) value origin e = true →
  Part000.follow_tables (pre ++ e :: post) origin value a
  = Part000.follow_tables (pre ++ [e]) origin value a.
Proof.
  revert a. induction pre as [|t pre IH]; intros a Hpre He.
  - cbn [app Part000.follow_tables].
    assert (String.eqb (entry_name e) origin = false) as Hne.
    { unfold scan_hit in He. by destruct (String.eqb _ origin). }
    rewrite Hne.
    destruct (follow_step e value origin a Hne) as [Hm Hr].
    rewrite He in Hr. unfold ebind.
    destruct (etry (Part000.follow_one e value) _ a) as [[hit|err] a1];
      simpl in *; [|done].
    by inversion Hr.
  - cbn [app Part000.follow_tables find] in *.
    destruct (scan_hit (Part000.tableMap a) value origin t) eqn:Ht; [done|].
    destruct (String.eqb (entry_name t) origin) eqn:Hne; [by apply IH|].
    destruct (follow_step t value origin a Hne) as [Hm Hr].
    rewrite Ht in Hr. unfold ebind.
    destruct (etry (Part000.follow_one t value) _ a) as [[hit|err] a1];
      simpl in *; [|done].
    inversion Hr. apply IH; by rewrite Hm.
Qed.

(** C7 (as amended). The click-path scan reports the first catalog
    entry, in catalog order and other than the origin table, whose
    first 10000 fetched rows hold a cell [=== value]; an entry whose
    handle is not cached, whose fetch throws or whose navigation throws
    is passed over; it reports none when no entry qualifies.  The
    entries after the hit have no influence on the outcome or on the
    state, and the result depends on the catalog snapshot (the catalog
    and the cached handles) only. *)
Theorem followValue_first_hit (a : Part000.App) (originTable originCol : string)
    (value : Value) :
  (Part000.followValue originTable originCol value a).1
  = Ok (entry_name
          <$> find (scan_hit (Part000.tableMap a) value originTable)
                (Part000.tables a)) ∧
  (∀ pre e post a',
     find (scan_hit (Part000.tableMap a') value originTable) pre = None →
     scan_hit (Part000.tableMap a') value originTable e = true →
     Part000.follow_tables (pre ++ e :: post) originTable value a'
     = Part000.follow_tables (pre ++ [e]) originTable value a') ∧
  (∀ b col, Part000.tables b = Part000.tables a →
     Part000.tableMap b = Part000.tableMap a →
     (Part000.followValue originTable col value b).1
     = (Part000.followValue originTable originCol value a).1).
Proof.
  assert (∀ a col,
    (Part000.followValue originTable col value a).1
    = Ok (entry_name
            <$> find (scan_hit (Part000.tableMap a) value originTable)
                  (Part000.tables a))) as Hrun.
  { intros a0 col. unfold Part000.followValue, Part000.setStatus.
    eff_unfold. simpl. by rewrite follow_tables_run. }
  split; [apply Hrun|]. split.
  - intros. by apply follow_tables_truncate.
  - intros b col Ht Hm. by rewrite !Hrun, Ht, Hm.
Qed.

(** X27. On the click path a cell matches exactly when it has the type
    and the value of the target, as [===] decides: values of different
    types never match, objects such as dates match by reference, [NaN]
    matches nothing.  [followValue] always returns; the table it reports
    is not the origin and holds such a cell among its fetched rows, and
    when it reports none, no table that could be scanned and navigated
    to holds one.  The number 42 does not match the string ["42"] and
    matches the number 42. *)
Theorem click_matcher_strict_equality (a : Part000.App)
    (originTable originCol : string) (value : Value) :
  (∀ cell, strict_eq cell value = true ↔ cell = value ∧ value ≠ VNumber NaN) ∧
  (∀ cell, type_of cell ≠ type_of value → strict_eq cell value = false) ∧
  (∃ hit a',
     Part000.followValue originTable originCol value a = (Ok hit, a') ∧
     match hit with
     | Some name =>
         name ≠ originTable ∧
         ∃ tbl data,
           Part000.tableMap a !! name = Some tbl ∧
           getData tbl (limit_opts 10000) = Ok data ∧
           holds_value value data
     | None =>
         ∀ e tbl data,
           e ∈ Part000.tables a → entry_name e ≠ originTable →
           Part000.tableMap a !! entry_name e = Some tbl →
           getData tbl (limit_opts 10000) = Ok data →
           navigable tbl = true →
           ¬ holds_value value data
     end) ∧
  strict_eq (VString "42") (VNumber (Finite (Q2Qc 42))) = false ∧
  strict_eq (VNumber (Finite (Q2Qc 42))) (VNumber (Finite (Q2Qc 42))) = true.
Proof.
  assert ((Part000.followValue originTable originCol value a).1
          = Ok (entry_name
                  <$> find (scan_hit (Part000.tableMap a) value originTable)
                        (Part000.tables a))) as Hrun.
  { unfold Part000.followValue, Part000.setStatus.
    eff_unfold. simpl. by rewrite follow_tables_run. }
  split; [intros cell; apply strict_eq_spec|].
  split.
  { intros cell Hty. destruct (strict_eq cell value) eqn:Heq; [|done].
    by apply strict_eq_type in Heq. }
  split; [|split; reflexivity].
  destruct (Part000.followValue originTable originCol value a) as [r a'].
  simpl in Hrun. subst r. eexists _, a'. split; [reflexivity|].
  destruct (find _ (Part000.tables a)) as [e|] eqn:Hf; simpl.
  - apply find_some in Hf as [_ Hhit].
    unfold scan_hit in Hhit.
    destruct (String.eqb_spec (entry_name e) originTable); [done|].
    split; [done|]. simpl in Hhit.
    destruct (Part000.tableMap a !! entry_name e) as [tbl|]; [|done].
    destruct (getData tbl (limit_opts 10000)) as [data|] eqn:Hd; [|done].
    apply andb_prop in Hhit as [Hhit _].
    exists tbl, data. split; [done|]. split; [done|].
    by apply click_scan_spec.
  - intros e tbl data He Hne Ht Hd Hnav Hh.
    apply list_elem_of_In in He. apply (find_none _ _ Hf e) in He.
    unfold scan_hit in He. rewrite Ht, Hd, Hnav in He.
    apply click_scan_spec in Hh. rewrite Hh in He.
    destruct (String.eqb_spec (entry_name e) originTable); done.
Qed.

Lemma forEachNode_setRowClass (nodes : list Part000.GridNode) (c : string)
    (a : Part000.App) :
  Part000.forEachNode nodes (fun node => Part000.node_setRowClass node c) a
  = (match nodes with
     | [] => Ok tt
     | _ :: _ => Throw (not_a_function "node.setRowClass")
     end, a).
Proof. by destruct nodes. Qed.

(** What [highlightTablesReferencingValue] does: nothing without an
    [api] or without row nodes; otherwise it throws at the first node,
    before any table is fetched. *)
Lemma highlightTablesReferencingValue_run (value : Value)
    (originTable originCol : string) (a : Part000.App) :
  Part000.highlightTablesReferencingValue value originTable originCol a
  = (match Part000.tablesApi a, Part000.tablesGrid a with
     | true, Some (_ :: _) => Throw (not_a_function "node.setRowClass")
     | _, _ => Ok tt
     end, a).
Proof.
  unfold Part000.highlightTablesReferencingValue.
  unfold ebind at 1, egets.
  destruct (Part000.tablesApi a); [|done]. simpl.
  unfold ebind at 1, egets. unfold ebind at 1.
  rewrite forEachNode_setRowClass.
  by destruct (Part000.tablesGrid a) as [[|n ns]|].
Qed.

(** C6. The claim fails on the hover path.  With the tables grid
    showing at least one table, hovering a cell that is neither [null]
    nor [undefined] throws a [TypeError] at the first row node, whose
    [setRowClass] does not exist: the hover path fetches no table,
    compares no cell and marks no table, whatever the tables hold.  In
    the scenario of the claim, 42 hovered in table [A], the table [C]
    holds the number 42 and is not marked. *)
Theorem hover_path_marks_nothing (a : Part000.App) (tableName field : string)
    (value : Value) :
  Part000.onCellMouseOver tableName field value a
  = (match Part000.is_nullish value, Part000.tablesApi a, Part000.tablesGrid a
     with
     | false, true, Some (_ :: _) => Throw (not_a_function "node.setRowClass")
     | _, _, _ => Ok tt
     end, a) ∧
  (∃ tbl data,
     Part000.tableMap (Demo.part000_with Demo.northwind) !! "C" = Some tbl ∧
     getData tbl (limit_opts 200) = Ok data ∧
     holds_value (Demo.num 42) data) ∧
  Part000.onCellMouseOver "A" "id" (Demo.num 42)
    (Demo.part000_with Demo.northwind)
  = (Throw (not_a_function "node.setRowClass"),
     Demo.part000_with Demo.northwind).
Proof.
  assert (∀ a tableName field value,
            Part000.onCellMouseOver tableName field value a
            = (match Part000.is_nullish value, Part000.tablesApi a,
                     Part000.tablesGrid a with
               | false, true, Some (_ :: _) =>
                   Throw (not_a_function "node.setRowClass")
               | _, _, _ => Ok tt
               end, a)) as Hrun.
  { intros a0 t f v. unfold Part000.onCellMouseOver.
    destruct (Part000.is_nullish v); [done|].
    apply highlightTablesReferencingValue_run. }
  split; [apply Hrun|]. split.
  - eexists _, _. split; [reflexivity|]. split; [reflexivity|].
    apply hover_scan_spec. reflexivity.
  - rewrite Hrun. reflexivity.
Qed.

(** ** Display fetch *)

Lemma honours_limit t rows k :
  honours t rows → getData t (limit_opts k) = Ok (take (N.to_nat k) rows).
Proof. intros [_ Hd]. rewrite Hd. unfold slice_rows. simpl. by rewrite drop_0. Qed.

Lemma honours_all t rows : honours t rows → getData t no_opts = Ok rows.
Proof. intros [_ Hd]. rewrite Hd. unfold slice_rows. simpl. by rewrite drop_0. Qed.

Section Display.
Context `{Platform}.

Lemma showTable_rows name t rows a :
  IndexMjs.tableMap a !! name = Some t →
  getData t no_opts = Ok rows →
  (IndexMjs.showTable name a).1 = Ok tt ∧
  IndexMjs.rightRowData (IndexMjs.showTable name a).2 = rows.
Proof.
  intros Ht Hd. unfold IndexMjs.showTable. eff_unfold. simpl.
  rewrite Ht. simpl. rewrite Hd.
  by destruct (IndexMjs.sampleRowsForTable t 1000).
Qed.

End Display.

(** ** Drop boundary *)

Lemma string_length_app (s t : string) :
  String.length (s +:+ t) = (String.length s + String.length t)%nat.
Proof. induction s as [|c s IH]; simpl; [done|]. by rewrite IH. Qed.

Lemma string_drop_app (s t : string) : string_drop (String.length s) (s +:+ t) = t.
Proof. induction s as [|c s IH]; simpl; [by destruct t|done]. Qed.

Lemma string_drop_split (n : nat) (s : string) :
  (n <= String.length s)%nat →
  ∃ p, s = p +:+ string_drop n s ∧ String.length p = n.
Proof.
  revert s. induction n as [|n IH]; intros s Hn.
  - exists EmptyString. by destruct s.
  - destruct s as [|c s]; simpl in *; [lia|].
    destruct (IH s ltac:(lia)) as (p & Hp & Hl).
    exists (String c p). simpl. split; [|by rewrite Hl].
    change (String c s = String c (p +:+ string_drop n s)). by f_equal.
Qed.

Lemma endsWith_spec (s suffix : string) :
  endsWith s suffix = true ↔ ∃ stem, s = stem +:+ suffix.
Proof.
  unfold endsWith. rewrite andb_true_iff, Nat.leb_le, String.eqb_eq. split.
  - intros [Hle Hd].
    destruct (string_drop_split (String.length s - String.length suffix) s
                ltac:(lia)) as (p & Hp & _).
    exists p. by rewrite Hd in Hp.
  - intros [stem ->]. rewrite string_length_app. split; [lia|].
    replace (String.length stem + String.length suffix - String.length suffix)%nat
      with (String.length stem) by lia.
    apply string_drop_app.
Qed.

Lemma isAllowedFileName_spec (name : string) :
  IndexMjs.isAllowedFileName name = true
  ↔ ∃ stem, toLowerCase name = stem +:+ ".mdb"
            ∨ toLowerCase name = stem +:+ ".accdb".
Proof.
  unfold IndexMjs.isAllowedFileName.
  destruct (String.eqb_spec name EmptyString) as [->|Hne].
  - split; [done|]. intros [stem [Hs|Hs]]; by destruct stem.
  - rewrite orb_true_iff, !endsWith_spec. split.
    + intros [[stem Hs]|[stem Hs]]; exists stem; eauto.
    + intros [stem [Hs|Hs]]; eauto.
Qed.

Section Drop.
Context `{Platform}.

(** C9 (as amended). In [index.mjs] a dropped file is allowed exactly
    when its lower-cased name ends with [.mdb] or [.accdb]; an allowed
    file goes to [handleFile]; any other file only puts the
    [drag-invalid] class on the toolbar, with a timer of 1200 ms that
    removes it: storage, database handle, table cache, grids and status
    are untouched.  The drop listener of the second variant checks no
    name: it loads every dropped file. *)
Theorem drop_gate (f : File) (rest : list File) (a : IndexMjs.App)
    (b : Part000.App) :
  (IndexMjs.isAllowedFileName (file_name f) = true
   ↔ ∃ stem, toLowerCase (file_name f) = stem +:+ ".mdb"
             ∨ toLowerCase (file_name f) = stem +:+ ".accdb") ∧
  (IndexMjs.isAllowedFileName (file_name f) = true →
   IndexMjs.onDrop (f :: rest) a
   = IndexMjs.handleFile f
       (IndexMjs.set_toolbar
          (fun c => c ∖ {["drag-invalid"]} ∖ {["drag-valid"]}) a)) ∧
  (IndexMjs.isAllowedFileName (file_name f) = false →
   ∃ a',
     IndexMjs.onDrop (f :: rest) a = (Ok tt, a') ∧
     IndexMjs.world a' = IndexMjs.world a ∧
     IndexMjs.reader a' = IndexMjs.reader a ∧
     IndexMjs.tableMap a' = IndexMjs.tableMap a ∧
     IndexMjs.leftRowData a' = IndexMjs.leftRowData a ∧
     IndexMjs.rightColumnDefs a' = IndexMjs.rightColumnDefs a ∧
     IndexMjs.rightRowData a' = IndexMjs.rightRowData a ∧
     IndexMjs.status a' = IndexMjs.status a ∧
     "drag-invalid" ∈ IndexMjs.toolbar a' ∧
     IndexMjs.timers a'
     = IndexMjs.timers a ++ [mkTimer 1200 (RemoveToolbarClass "drag-invalid")] ∧
     "drag-invalid" ∉ IndexMjs.toolbar
                        (IndexMjs.fire (RemoveToolbarClass "drag-invalid") a')) ∧
  Part000.onDrop (f :: rest) b
  = Part000.loadFile (Some f) (Part000.set_input_files (f :: rest) b).
Proof.
  split; [apply isAllowedFileName_spec|].
  split; [|split].
  - intros Hok. unfold IndexMjs.onDrop. eff_unfold. simpl. by rewrite Hok.
  - intros Hno. unfold IndexMjs.onDrop. eff_unfold. simpl. rewrite Hno. simpl.
    eexists. split; [reflexivity|]. simpl.
    repeat (split; [done|]).
    split; [by apply elem_of_union_r, elem_of_singleton|].
    split; [done|].
    rewrite elem_of_difference, elem_of_singleton. by intros [_ Hn].
  - unfold Part000.onDrop. eff_unfold. simpl. done.
Qed.

End Drop.

(** ** Base64 *)

Lemma list_ind3 {A} (P : list A → Prop) :
  P [] → (∀ a, P [a]) → (∀ a b, P [a; b]) →
  (∀ a b c l, P l → P (a :: b :: c :: l)) →
  ∀ l, P l.
Proof.
  intros H0 H1 H2 H3 l.
  assert (P l ∧ (∀ a, P (a :: l)) ∧ (∀ a b, P (a :: b :: l))) as [? _];
    [|done].
  induction l as [|x l (IH0 & IH1 & IH2)]; [by auto|].
  split; [apply IH1|]. split; [intros; apply IH2|].
  intros a b. by apply H3.
Qed.

Lemma sextet_cases (P : N → Prop) :
  (∀ n, In n (map N.of_nat (seq 0 64)) → P n) → ∀ n, n < 64 → P n.
Proof.
  intros HP n Hn. apply HP. apply in_map_iff. exists (N.to_nat n).
  split; [lia|]. apply in_seq. lia.
Qed.

Lemma b64_index_char n : n < 64 → b64_index (b64_char n) = Some n.
Proof.
  revert n. apply sextet_cases. intros n Hn. simpl in Hn.
  repeat (destruct Hn as [<-|Hn]; [reflexivity|]). done.
Qed.

Lemma b64_char_plain n :
  n < 64 →
  is_ascii_whitespace (b64_char n) = false ∧ b64_char n ≠ "="%char.
Proof.
  revert n. apply sextet_cases. intros n Hn. simpl in Hn.
  repeat (destruct Hn as [<-|Hn]; [by split|]). done.
Qed.

Lemma b64_sextets_bound bs :
  Forall (fun b => b < 256) bs → Forall (fun s => s < 64) (b64_sextets bs).
Proof.
  induction bs as [|a|a b|a b c l IH] using list_ind3; intros Hb.
  - constructor.
  - inversion_clear Hb. cbn [b64_sextets].
    repeat (constructor; [divlia|]). constructor.
  - inversion_clear Hb as [|?? Ha Hb']. inversion_clear Hb' as [|?? Hb _].
    cbn [b64_sextets]. repeat (constructor; [divlia|]). constructor.
  - inversion_clear Hb as [|?? Ha Hb']. inversion_clear Hb' as [|?? Hb Hc'].
    inversion_clear Hc' as [|?? Hc Hl].
    cbn [b64_sextets]. repeat (constructor; [divlia|]). by apply IH.
Qed.

Lemma bytes_of_b64_sextets bs :
  Forall (fun b => b < 256) bs → bytes_of_sextets (b64_sextets bs) = bs.
Proof.
  induction bs as [|a|a b|a b c l IH] using list_ind3; intros Hb.
  - done.
  - inversion_clear Hb. cbn [b64_sextets bytes_of_sextets]. f_equal. divlia.
  - inversion_clear Hb as [|?? Ha Hb']. inversion_clear Hb' as [|?? Hb _].
    cbn [b64_sextets bytes_of_sextets]. f_equal; [divlia|]. f_equal. divlia.
  - inversion_clear Hb as [|?? Ha Hb']. inversion_clear Hb' as [|?? Hb Hc'].
    inversion_clear Hc' as [|?? Hc Hl].
    cbn [b64_sextets bytes_of_sextets]. rewrite IH by done.
    f_equal; [divlia|]. f_equal; [divlia|]. f_equal. divlia.
Qed.

Lemma b64_sextets_length bs :
  length (b64_sextets bs)
  = (4 * (length bs / 3)
     + match length bs mod 3 with 0 => 0 | 1 => 2 | _ => 3 end)%nat.
Proof.
  induction bs as [|a|a b|a b c l IH] using list_ind3; try reflexivity.
  cbn [b64_sextets length]. rewrite IH.
  replace (S (S (S (length l)))) with (length l + 1 * 3)%nat by lia.
  rewrite Nat.div_add, Nat.Div0.mod_add by lia. lia.
Qed.

Lemma mapM_b64_index ss :
  Forall (fun s => s < 64) ss → mapM b64_index (map b64_char ss) = Some ss.
Proof.
  induction 1 as [|s ss Hs _ IH]; [done|].
  cbn [map mapM]. rewrite b64_index_char by done. simpl. by rewrite IH.
Qed.

Lemma filter_b64_chars ss pad :
  Forall (fun s => s < 64) ss → Forall (fun c => c = "="%char) pad →
  List.filter (fun c => negb (is_ascii_whitespace c)) (map b64_char ss ++ pad)
  = map b64_char ss ++ pad.
Proof.
  intros Hs Hp. apply forallb_filter_id, forallb_forall.
  intros c Hc. apply in_app_or in Hc as [Hc|Hc].
  - apply in_map_iff in Hc as (s & <- & Hin).
    rewrite Forall_forall in Hs. apply list_elem_of_In in Hin.
    by rewrite (proj1 (b64_char_plain s (Hs s Hin))).
  - rewrite Forall_forall in Hp. apply list_elem_of_In in Hc.
    by rewrite (Hp c Hc).
Qed.

Lemma strip_padding_encoded ss pad :
  Forall (fun s => s < 64) ss →
  pad = [] ∨ pad = ["="%char] ∨ pad = ["="%char; "="%char] →
  (length (map b64_char ss ++ pad) mod 4 = 0)%nat →
  strip_padding (map b64_char ss ++ pad) = map b64_char ss.
Proof.
  intros Hs Hpad Hlen. unfold strip_padding.
  rewrite Hlen. simpl.
  assert (∀ r, rev (map b64_char ss) = r →
            match r with
            | "="%char :: _ => False
            | _ => True
            end) as Hlast.
  { intros r <-. destruct ss as [|s ss _] using rev_ind; [done|].
    rewrite map_app, rev_app_distr. simpl.
    rewrite Forall_app in Hs. destruct Hs as [_ Hs]. inversion_clear Hs as [|?? Hs' _].
    pose proof (proj2 (b64_char_plain s Hs')) as Hne.
    destruct (b64_char s) as [[] [] [] [] [] [] [] []]; done. }
  destruct Hpad as [->|[->| ->]].
  - rewrite app_nil_r. specialize (Hlast _ eq_refl).
    destruct (rev (map b64_char ss)) as [|c r]; [done|].
    destruct c as [[] [] [] [] [] [] [] []]; done.
  - rewrite rev_app_distr. simpl. specialize (Hlast _ eq_refl).
    destruct (rev (map b64_char ss)) as [|c r] eqn:Hr.
    + apply (f_equal (@rev _)) in Hr. rewrite rev_involutive in Hr.
      by rewrite Hr.
    + rewrite <- Hr, rev_involutive.
      destruct c as [[] [] [] [] [] [] [] []]; done.
  - rewrite rev_app_distr. simpl. by rewrite rev_involutive.
Qed.

Lemma b64_padding_cases n :
  b64_padding n = [] ∨ b64_padding n = ["="%char]
  ∨ b64_padding n = ["="%char; "="%char].
Proof. unfold b64_padding. destruct (n mod 3)%nat as [|[|?]]; auto. Qed.

Lemma encoded_length_mod bs :
  (length (map b64_char (b64_sextets bs) ++ b64_padding (length bs)) mod 4 = 0)%nat
  ∧ (length (b64_sextets bs) mod 4 ≠ 1)%nat.
Proof.
  rewrite length_app, length_map, b64_sextets_length. unfold b64_padding.
  pose proof (Nat.mod_upper_bound (length bs) 3 ltac:(lia)) as Hm.
  destruct (length bs mod 3)%nat as [|[|[|?]]]; simpl length; try lia.
  - split.
    + rewrite Nat.add_0_r, Nat.add_0_r, Nat.mul_comm. apply Nat.Div0.mod_mul.
    + rewrite Nat.add_0_r, Nat.mul_comm, Nat.Div0.mod_mul. lia.
  - split.
    + replace (4 * (length bs / 3) + 2 + 2)%nat
        with ((length bs / 3 + 1) * 4)%nat by lia.
      apply Nat.Div0.mod_mul.
    + rewrite Nat.add_comm, Nat.mul_comm, Nat.Div0.mod_add. done.
  - split.
    + replace (4 * (length bs / 3) + 3 + 1)%nat
        with ((length bs / 3 + 1) * 4)%nat by lia.
      apply Nat.Div0.mod_mul.
    + rewrite Nat.add_comm, Nat.mul_comm, Nat.Div0.mod_add. done.
Qed.

Lemma byte_bound (b : Byte.byte) : Byte.to_N b < 256.
Proof. pose proof (Byte.to_N_bounded b). lia. Qed.

(** [atob] undoes the encoding: the binary string has one character per
    byte. *)
Lemma atob_base64_encode (bs : list Byte.byte) :
  atob (base64_encode bs)
  = Some (string_of_list_ascii (map ascii_of_N (map Byte.to_N bs))).
Proof.
  unfold atob, base64_encode.
  rewrite list_ascii_of_string_of_list_ascii.
  assert (Forall (fun b => b < 256) (map Byte.to_N bs)) as Hb.
  { apply Forall_forall. intros x Hx.
    apply list_elem_of_fmap in Hx as (b & -> & _). apply byte_bound. }
  pose proof (b64_sextets_bound _ Hb) as Hs.
  destruct (encoded_length_mod (map Byte.to_N bs)) as [Hlen Hne].
  rewrite length_map in Hlen.
  rewrite filter_b64_chars; [|done|].
  2:{ destruct (b64_padding_cases (length bs)) as [->|[->| ->]];
        repeat constructor. }
  rewrite strip_padding_encoded by (done || apply b64_padding_cases).
  rewrite length_map.
  destruct (Nat.eqb_spec (length (b64_sextets (map Byte.to_N bs)) mod 4) 1);
    [done|].
  rewrite mapM_b64_index by done. simpl.
  by rewrite bytes_of_b64_sextets.
Qed.

Lemma fill_by_index {A} (f : nat → A) (d : A) n k (acc : list A) :
  length acc = (k + n)%nat →
  foldl (fun acc i => <[i := f i]> acc) acc (seq k n)
  = take k acc ++ map f (seq k n).
Proof.
  revert k acc. induction n as [|n IH]; intros k acc Hlen.
  - simpl. rewrite app_nil_r, take_ge; [done|lia].
  - cbn [seq foldl map]. rewrite IH by (rewrite length_insert; lia).
    rewrite (take_S_r _ _ (f k)) by (apply list_lookup_insert_eq; lia).
    rewrite take_insert_ge by lia. by rewrite <- app_assoc.
Qed.

Lemma get_string_of_list (l : list ascii) (i : nat) :
  String.get i (string_of_list_ascii l) = l !! i.
Proof.
  revert i. induction l as [|c l IH]; intros [|i]; simpl; try done.
Qed.

Lemma length_string_of_list (l : list ascii) :
  String.length (string_of_list_ascii l) = length l.
Proof. induction l as [|c l IH]; simpl; [done|by rewrite IH]. Qed.

Lemma uint8_of_byte (b : Byte.byte) :
  uint8_of_charCode (N_of_ascii (ascii_of_N (Byte.to_N b))) = b.
Proof. destruct b; reflexivity. Qed.

Lemma bytes_of_binary_string (bs : list Byte.byte) :
  let binary := string_of_list_ascii (map ascii_of_N (map Byte.to_N bs)) in
  map (fun i => uint8_of_charCode (charCodeAt binary i))
    (seq 0 (String.length binary))
  = bs.
Proof.
  simpl. rewrite length_string_of_list, !length_map.
  apply list_eq. intros i. rewrite list_lookup_fmap.
  destruct (decide (i < length bs)%nat) as [Hlt|Hge].
  - rewrite lookup_seq_lt by done. simpl.
    destruct (lookup_lt_is_Some_2 bs i Hlt) as [b Hb]. rewrite Hb.
    unfold charCodeAt. rewrite get_string_of_list, !list_lookup_fmap, Hb.
    simpl. by rewrite uint8_of_byte.
  - rewrite lookup_seq_ge by lia. simpl. symmetry.
    apply lookup_ge_None. lia.
Qed.

(** Decoding what was encoded gives the bytes back, in either variant of
    [base64ToArrayBuffer]. *)
Lemma base64ToArrayBuffer_encode (bs : list Byte.byte) :
  IndexMjs.base64ToArrayBuffer (base64_encode bs) = Ok bs ∧
  Part000.base64ToArrayBuffer (base64_encode bs) = Ok bs.
Proof.
  unfold IndexMjs.base64ToArrayBuffer, Part000.base64ToArrayBuffer.
  rewrite atob_base64_encode.
  rewrite (fill_by_index _ Byte.x00) by (by rewrite length_replicate).
  rewrite take_0. simpl app.
  by rewrite bytes_of_binary_string.
Qed.

Lemma fileToBase64_run (file : File) (w : World) :
  read_dataURL_fault w file = None →
  IndexMjs.fileToBase64 file w = (Ok (base64_encode (file_bytes file)), w).
Proof.
  intros Hf. unfold IndexMjs.fileToBase64. eff_unfold. rewrite Hf.
  reflexivity.
Qed.

(** ** Persistence *)

Lemma idbSaveFile_run file name w :
  IndexMjs.idbSaveFile file name w
  = match idb_faults w with
    | Some e :: _ => (Throw e, set_idb id w)
    | _ => (Ok tt, set_idb (insert "file" (mkIdbEntry file name)) w)
    end.
Proof. reflexivity. Qed.

Lemma saveFile_fallback (file : File) (w : World) (err : JsError) :
  read_dataURL_fault w file = None →
  ls_write_fault "mdb-base64" (base64_encode (file_bytes file))
    "mdb-name" (file_name file) w = Some err →
  ∃ w0,
    ls_fault w0 = ls_fault w ∧ idb_files w0 = idb_files w ∧
    idb_faults w0 = idb_faults w ∧ blob_fault w0 = blob_fault w ∧
    (ls_items w0 = ls_items w ∨
     ls_items w0 = <["mdb-base64" := base64_encode (file_bytes file)]> (ls_items w)) ∧
    IndexMjs.saveFile file w
    = match idb_faults w0 with
      | Some _ :: Some e :: _ => (Throw e, set_idb id (set_idb id w0))
      | Some _ :: _ =>
          (Ok "indexedDB",
           set_idb (insert "file" (mkIdbEntry file (file_name file)))
             (set_idb id w0))
      | _ =>
          (Ok "indexedDB",
           set_idb (insert "file" (mkIdbEntry file (file_name file))) w0)
      end.
Proof.
  intros Hr Hw. unfold ls_write_fault in Hw.
  unfold IndexMjs.saveFile.
  unfold etry at 1. unfold ebind at 1. rewrite fileToBase64_run by done.
  destruct (ls_fault w (ls_items w) "mdb-base64"
              (base64_encode (file_bytes file))) as [e1|] eqn:H1.
  - exists w. repeat (split; [done|]). split; [by left|].
    unfold etry at 1. unfold ebind at 1. unfold localStorage_setItem at 1.
    rewrite H1. injection Hw as ->.
    assert ((if IndexMjs.isQuotaError err
             then IndexMjs.idbSaveFile file (file_name file);;; eret "indexedDB"
             else IndexMjs.idbSaveFile file (file_name file);;; eret "indexedDB")
            = (IndexMjs.idbSaveFile file (file_name file);;; eret "indexedDB"))
      as -> by (by destruct (IndexMjs.isQuotaError err)).
    unfold ebind at 1. rewrite idbSaveFile_run.
    destruct (idb_faults w) as [|[e2|] rest] eqn:Hf; try reflexivity.
    unfold etry, ebind. rewrite idbSaveFile_run. simpl. rewrite Hf. simpl.
    destruct rest as [|[e3|] rest']; reflexivity.
  - set (w0 := set_ls_items
                 (insert "mdb-base64" (base64_encode (file_bytes file))) w).
    exists w0. repeat (split; [done|]). split; [by right|].
    unfold etry at 1. unfold ebind at 1. unfold localStorage_setItem at 1.
    rewrite H1. fold w0.
    unfold ebind at 1. unfold localStorage_setItem at 1.
    change (ls_fault w0 (ls_items w0)) with
      (ls_fault w (<["mdb-base64" := base64_encode (file_bytes file)]> (ls_items w))).
    rewrite Hw.
    assert ((if IndexMjs.isQuotaError err
             then IndexMjs.idbSaveFile file (file_name file);;; eret "indexedDB"
             else IndexMjs.idbSaveFile file (file_name file);;; eret "indexedDB")
            = (IndexMjs.idbSaveFile file (file_name file);;; eret "indexedDB"))
      as -> by (by destruct (IndexMjs.isQuotaError err)).
    unfold ebind at 1. rewrite idbSaveFile_run.
    destruct (idb_faults w0) as [|[e2|] rest] eqn:Hf; try reflexivity.
    unfold etry, ebind. rewrite idbSaveFile_run. simpl.
    change (idb_faults w0) with (idb_faults w) in Hf. rewrite Hf. simpl.
    destruct rest as [|[e3|] rest']; reflexivity.
Qed.

Lemma saveFile_primary (file : File) (w : World) :
  read_dataURL_fault w file = None →
  ls_write_fault "mdb-base64" (base64_encode (file_bytes file))
    "mdb-name" (file_name file) w = None →
  IndexMjs.saveFile file w
  = (Ok "localStorage",
     set_ls_items (insert "mdb-name" (file_name file))
       (set_ls_items (insert "mdb-base64" (base64_encode (file_bytes file)))
          w)).
Proof.
  intros Hr Hw. unfold ls_write_fault in Hw.
  destruct (ls_fault w (ls_items w) "mdb-base64"
              (base64_encode (file_bytes file))) eqn:H1; [done|].
  unfold IndexMjs.saveFile.
  unfold etry at 1. unfold ebind at 1. rewrite fileToBase64_run by done.
  unfold etry at 1. unfold ebind at 1. unfold localStorage_setItem at 1.
  rewrite H1.
  unfold ebind at 1. unfold localStorage_setItem at 1.
  simpl ls_items. simpl ls_fault. rewrite Hw. reflexivity.
Qed.

Lemma saveFile_unreadable (file : File) (w : World) (err : JsError) :
  read_dataURL_fault w file = Some err →
  IndexMjs.saveFile file w
  = match idb_faults w with
    | Some e :: _ => (Throw e, set_idb id w)
    | _ =>
        (Ok "indexedDB",
         set_idb (insert "file" (mkIdbEntry file (file_name file))) w)
    end.
Proof.
  intros Hr. unfold IndexMjs.saveFile, IndexMjs.fileToBase64.
  eff_unfold. rewrite Hr. rewrite idbSaveFile_run.
  by destruct (idb_faults w) as [|[e|] rest].
Qed.

Lemma base64_encode_nonempty (bs : list Byte.byte) :
  bs ≠ [] → String.eqb (base64_encode bs) EmptyString = false.
Proof.
  intros Hne. unfold base64_encode.
  destruct bs as [|a [|b [|c l]]]; [done|reflexivity..].
Qed.

Lemma loadStoredFile_fast (w : World) (bs : list Byte.byte) :
  bs ≠ [] →
  ls_items w !! "mdb-base64" = Some (base64_encode bs) →
  IndexMjs.loadStoredFile w
  = (Ok (Some (IndexMjs.mkStored bs (ls_items w !! "mdb-name"))), w).
Proof.
  intros Hne Hl. unfold IndexMjs.loadStoredFile, localStorage_getItem.
  eff_unfold. rewrite Hl. simpl.
  rewrite base64_encode_nonempty by done. simpl.
  by rewrite (proj1 (base64ToArrayBuffer_encode bs)).
Qed.

Lemma loadStoredFile_fallback (w : World) (entry : IdbEntry) :
  truthy_string (ls_items w !! "mdb-base64") = false →
  idb_files w !! "file" = Some entry →
  match idb_faults w with Some _ :: _ => False | _ => True end →
  blob_fault w (idb_file entry) = false →
  IndexMjs.loadStoredFile w
  = (Ok (Some (IndexMjs.mkStored (file_bytes (idb_file entry))
                 (Some (idb_name entry)))),
     set_idb id w).
Proof.
  intros Hl He Hf Hb. unfold IndexMjs.loadStoredFile, localStorage_getItem.
  eff_unfold. rewrite Hl. unfold IndexMjs.idbLoadFile, idb_request.
  eff_unfold. rewrite He, Hb.
  by destruct (idb_faults w) as [|[e|] rest].
Qed.

(** X4. Without an earlier record in the fast store, a successful save
    of a non-empty file followed by a restore gives the bytes back,
    whichever store took them (the transactional store has to be
    readable). *)
Lemma save_restore_round_trip (file : File) (w w1 : World) (backend : string) :
  IndexMjs.saveFile file w = (Ok backend, w1) →
  truthy_string (ls_items w !! "mdb-base64") = false →
  file_bytes file ≠ [] →
  match idb_faults w1 with Some _ :: _ => False | _ => True end →
  blob_fault w file = false →
  ∃ name w2,
    IndexMjs.loadStoredFile w1
    = (Ok (Some (IndexMjs.mkStored (file_bytes file) name)), w2).
Proof.
  intros Hs Hl Hne Hf Hb.
  destruct (read_dataURL_fault w file) as [e|] eqn:Hr.
  - rewrite (saveFile_unreadable file w e Hr) in Hs.
    destruct (idb_faults w) as [|[e'|] rest]; try done;
      injection Hs as <- <-; eexists _, _;
      apply (loadStoredFile_fallback _ (mkIdbEntry file (file_name file)));
      try done; apply lookup_insert_eq.
  - destruct (ls_write_fault "mdb-base64" (base64_encode (file_bytes file))
                "mdb-name" (file_name file) w) as [err|] eqn:Hw.
    + destruct (saveFile_fallback file w err Hr Hw)
        as (w0 & H1 & H2 & H3 & H4 & Hls & Heq).
      rewrite Heq in Hs. clear Heq.
      assert (∀ w', ls_items w' = ls_items w0 →
                idb_files w' !! "file" = Some (mkIdbEntry file (file_name file)) →
                match idb_faults w' with Some _ :: _ => False | _ => True end →
                blob_fault w' = blob_fault w →
                ∃ name w2,
                  IndexMjs.loadStoredFile w'
                  = (Ok (Some (IndexMjs.mkStored (file_bytes file) name)), w2))
        as Hload.
      { intros w' Hi Hidb Hf' Hb'. destruct Hls as [Hls|Hls].
        - eexists _, _.
          apply (loadStoredFile_fallback _ (mkIdbEntry file (file_name file)));
            try done; [by rewrite Hi, Hls|by rewrite Hb'].
        - eexists _, _. apply loadStoredFile_fast; [done|].
          rewrite Hi, Hls. apply lookup_insert_eq. }
      destruct (idb_faults w0) as [|[e'|] [|[e''|] rest]]; try done;
        injection Hs as <- <-; apply Hload; try done;
        simpl; try apply lookup_insert_eq.
    + rewrite (saveFile_primary file w Hr Hw) in Hs. injection Hs as <- <-.
      eexists _, _. apply loadStoredFile_fast; [done|]. simpl.
      rewrite lookup_insert_ne by done. apply lookup_insert_eq.
Qed.

(** C2 (as amended). When a fast-store write of [saveFile] fails, with
    a quota error or any other, the file and its name go to the
    transactional store and [saveFile] returns ['indexedDB'], provided
    that store takes the write at the first attempt or at the retry;
    when both attempts fail, [saveFile] throws.  The second variant has
    no transactional store: a failed write is caught and reported in the
    status line, and nothing is persisted elsewhere. *)
Theorem saveFile_falls_back (file : File) (w : World) (a : Part000.App)
    (base64 : string) (err err' : JsError) :
  read_dataURL_fault w file = None →
  ls_write_fault "mdb-base64" (base64_encode (file_bytes file))
    "mdb-name" (file_name file) w = Some err →
  ls_write_fault "mdb-reader:lastFile" base64
    "mdb-reader:lastFileName" (file_name file) (Part000.world a) = Some err' →
  (if idb_accepts (idb_faults w) then
     ∃ w1, IndexMjs.saveFile file w = (Ok "indexedDB", w1) ∧
           idb_files w1 !! "file" = Some (mkIdbEntry file (file_name file))
   else ∃ e w1, IndexMjs.saveFile file w = (Throw e, w1)) ∧
  ∃ a',
    Part000.saveFileToLocalStorage base64 (file_name file) a = (Ok tt, a') ∧
    idb_files (Part000.world a') = idb_files (Part000.world a) ∧
    Part000.status a' = "Loaded (localStorage save failed)".
Proof.
  intros Hr Hw Hw'. split.
  - destruct (saveFile_fallback file w err Hr Hw)
      as (w0 & H1 & H2 & H3 & H4 & Hls & ->).
    rewrite H3.
    destruct (idb_faults w) as [|[e'|] [|[e''|] rest]]; simpl;
      try (by eexists _, _);
      (eexists; split; [reflexivity|simpl; apply lookup_insert_eq]).
  - unfold ls_write_fault in Hw'.
    unfold Part000.saveFileToLocalStorage, Part000.setStatus,
      localStorage_setItem.
    eff_unfold. simpl.
    destruct (ls_fault (Part000.world a) (ls_items (Part000.world a))
                "mdb-reader:lastFile" base64) as [e1|] eqn:H1; simpl.
    + eexists. split; [reflexivity|]. done.
    + rewrite Hw'. simpl. eexists. split; [reflexivity|]. done.
Qed.

(** ** The properties on concrete data *)

Lemma table_of_honours cols rows : honours (table_of cols rows) rows.
Proof. by split. Qed.

(** C1. [saveFile] followed by [loadStoredFile] does not give back the
    bytes that were saved when an earlier file sits in the fast store:
    after [old.mdb] went to localStorage, [new.mdb] exceeds the quota
    and goes to IndexedDB, [saveFile] reports ['indexedDB'], and the
    restore returns the bytes and the name of [old.mdb]. *)
Theorem restore_returns_stale_file :
  let first := IndexMjs.saveFile Demo.old_file (Demo.world []) in
  let second := IndexMjs.saveFile Demo.new_file first.2 in
  first.1 = Ok "localStorage" ∧
  second.1 = Ok "indexedDB" ∧
  idb_files second.2 !! "file" = Some (mkIdbEntry Demo.new_file "new.mdb") ∧
  (IndexMjs.loadStoredFile second.2).1
  = Ok (Some (IndexMjs.mkStored (file_bytes Demo.old_file) (Some "old.mdb"))) ∧
  file_bytes Demo.old_file ≠ file_bytes Demo.new_file.
Proof. vm_compute. repeat split; discriminate. Qed.

(** The claim of C2 fails on both variants: with a quota error on the
    fast store and a transactional store that refuses the write twice,
    [saveFile] throws; and [saveFileToLocalStorage] of the second
    variant persists nothing anywhere. *)
Lemma quota_save_not_persisted :
  ls_write_fault "mdb-base64" (base64_encode (file_bytes Demo.new_file))
    "mdb-name" "new.mdb" (Demo.world []) = Some Demo.quota_error ∧
  IndexMjs.isQuotaError Demo.quota_error = true ∧
  (IndexMjs.saveFile Demo.new_file
     (Demo.world [Some Demo.idb_error; Some Demo.idb_error])).1
  = Throw Demo.idb_error ∧
  let a := (Part000.saveFileToLocalStorage
              (Part000.arrayBufferToBase64 (file_bytes Demo.new_file))
              "new.mdb" (Demo.part000_init (Demo.world []))).2 in
  Part000.status a = "Loaded (localStorage save failed)" ∧
  ls_items (Part000.world a) = ∅ ∧
  idb_files (Part000.world a) = ∅.
Proof. vm_compute. repeat split. Qed.

(** The property of C2 where the transactional store refuses the first
    write and takes the retry. *)
Lemma saveFile_falls_back_witness :
  (∃ w1,
     IndexMjs.saveFile Demo.new_file (Demo.world [Some Demo.idb_error])
     = (Ok "indexedDB", w1) ∧
     idb_files w1 !! "file" = Some (mkIdbEntry Demo.new_file "new.mdb")) ∧
  ∃ a',
    Part000.saveFileToLocalStorage
      (Part000.arrayBufferToBase64 (file_bytes Demo.new_file)) "new.mdb"
      (Demo.part000_init (Demo.world []))
    = (Ok tt, a') ∧
    idb_files (Part000.world a')
    = idb_files (Part000.world (Demo.part000_init (Demo.world []))) ∧
    Part000.status a' = "Loaded (localStorage save failed)".
Proof.
  apply (saveFile_falls_back Demo.new_file (Demo.world [Some Demo.idb_error])
           (Demo.part000_init (Demo.world []))
           (Part000.arrayBufferToBase64 (file_bytes Demo.new_file))
           Demo.quota_error Demo.quota_error);
    vm_compute; reflexivity.
Defined.

(** The property of C3 on the [northwind] database: one table cannot
    be opened, one cannot report its count. *)
Lemma buildTablesList_catalog_witness :
  catalog_of Demo.northwind ["A"; "B"; "Broken"; "NoCount"; "C"]
    (IndexMjs.leftRowData (Demo.index_with Demo.northwind)) ∧
  catalog_of Demo.northwind ["A"; "B"; "Broken"; "NoCount"; "C"]
    (Part000.tables (Demo.part000_with Demo.northwind)).
Proof.
  apply (@buildTablesList_catalog Demo.platform Demo.northwind
           ["A"; "B"; "Broken"; "NoCount"; "C"]
           (IndexMjs.set_reader Demo.northwind
              (Demo.index_init (Demo.world [])))
           (Part000.set_reader Demo.northwind
              (Demo.part000_init (Demo.world []))));
    reflexivity.
Defined.

(** The property of C4 on a table of 1001 rows: at the ceiling of 1001
    it is returned whole, one row above the ceiling of 1000 it is
    sampled. *)
Lemma sampleRowsForTable_honest_witness :
  honours Demo.table_Numbered Demo.numbered_rows ∧
  IndexMjs.sampleRowsForTable Demo.table_Numbered 1001
  = Ok Demo.numbered_rows ∧
  ∃ sample,
    IndexMjs.sampleRowsForTable Demo.table_Numbered 1000 = Ok sample ∧
    N.of_nat (length sample) = 1000.
Proof.
  pose proof (table_of_honours ["n"] Demo.numbered_rows) as Hh.
  split; [exact Hh|]. split.
  - refine (proj1 (sampleRowsForTable_honest Demo.table_Numbered
                     Demo.numbered_rows 1001 Hh) _).
    vm_compute. discriminate.
  - destruct (sampleRowsForTable_honest Demo.table_Numbered
                Demo.numbered_rows 1000 Hh) as [_ Hbig].
    destruct (Hbig ltac:(vm_compute; reflexivity)) as (sample & Hs & Hl & _).
    exact (ex_intro _ sample (conj Hs Hl)).
Defined.

(** The property of C10 on the same table. *)
Lemma sample_blocks_disjoint_witness :
  ∃ sample,
    IndexMjs.sampleRowsForTable Demo.table_Numbered 1000 = Ok sample ∧
    Forall2 (fun row p => Demo.numbered_rows !! p = Some row) sample
      (sample_positions (N.of_nat (length Demo.numbered_rows))) ∧
    NoDup (sample_positions (N.of_nat (length Demo.numbered_rows))).
Proof.
  destruct (sample_blocks_disjoint Demo.table_Numbered Demo.numbered_rows
              (table_of_honours ["n"] Demo.numbered_rows)
              ltac:(vm_compute; reflexivity))
    as (_ & _ & sample & Hs & Hp & _ & Hn).
  exact (ex_intro _ sample (conj Hs (conj Hp Hn))).
Defined.

(** The scenario of the click path: 42 was clicked in table [A]; table
    [B] holds the string ["42"] and is passed over, table [C] holds the
    number 42 and is reported. *)
Example click_42_reaches_number :
  (Part000.followValue "A" "id" (Demo.num 42)
     (Demo.part000_with Demo.northwind)).1 = Ok (Some "C") ∧
  scan_hit (Part000.tableMap (Demo.part000_with Demo.northwind))
    (Demo.num 42) "A" (mkEntry "B" 1) = false.
Proof. vm_compute. by split. Qed.

(** The claim of C7 fails on a table whose only matching cell lies
    beyond the first 10000 rows: [Late] comes before [C] in the catalog
    and holds 42 in its last row, and the scan reports [C]. *)
Lemma scan_passes_over_late_match :
  entry_name <$> Part000.tables (Demo.part000_with Demo.warehouse)
  = ["A"; "Late"; "C"; "Orders"] ∧
  reported_count Demo.warehouse "Late" = Some 10001 ∧
  honours Demo.table_Late Demo.late_rows ∧
  holds_value (Demo.num 42) Demo.late_rows ∧
  (Part000.followValue "A" "id" (Demo.num 42)
     (Demo.part000_with Demo.warehouse)).1 = Ok (Some "C").
Proof.
  split; [vm_compute; reflexivity|]. split; [vm_compute; reflexivity|].
  split; [apply table_of_honours|]. split; [|vm_compute; reflexivity].
  apply click_scan_spec. vm_compute. reflexivity.
Qed.

(** The claim of C8 fails on [index.mjs]: selecting the table [Orders]
    of 50000 rows hands all 50000 rows to the grid. *)
Lemma showTable_fetches_every_row :
  reported_count Demo.warehouse "Orders" = Some 50000 ∧
  N.of_nat
    (length
       (IndexMjs.rightRowData
          (@IndexMjs.showTable Demo.platform "Orders"
             (Demo.index_with Demo.warehouse)).2))
  = 50000.
Proof. split; vm_compute; reflexivity. Qed.

(** The claim of C9 fails on the second variant: a dropped file named
    [northwind.backup] is not an allowed name, and it is loaded. *)
Lemma drop_loads_any_file :
  IndexMjs.isAllowedFileName (file_name Demo.backup_file) = false ∧
  let a := (@Part000.onDrop Demo.platform [Demo.backup_file]
              (Demo.part000_init (Demo.world []))).2 in
  getTableNames <$> Part000.reader a = Some (Ok ["A"; "Late"; "C"; "Orders"]) ∧
  entry_name <$> Part000.tables a = ["A"; "Late"; "C"; "Orders"] ∧
  Part000.status a = "Loaded".
Proof. vm_compute. repeat split. Qed.

(** * Further properties of the two scripts *)

(** ** Base64 in both directions *)

Lemma string_of_bytes_app (a b : list Byte.byte) :
  Part000.string_of_bytes (a ++ b)
  = Part000.string_of_bytes a +:+ Part000.string_of_bytes b.
Proof.
  unfold Part000.string_of_bytes.
  induction a as [|x a IH]; simpl; [done|].
  change (String ?c ?s +:+ ?t) with (String c (s +:+ t)). by rewrite <- IH.
Qed.

Lemma binary_of_chunks_whole (chunkSize todo : nat) (bytes : list Byte.byte) :
  (0 < chunkSize)%nat → (length bytes <= todo)%nat →
  Part000.binary_of_chunks chunkSize todo bytes = Part000.string_of_bytes bytes.
Proof.
  intros Hc. revert bytes. induction todo as [|todo IH]; intros bytes Hl.
  - destruct bytes; [done|simpl in Hl; lia].
  - destruct bytes as [|b bytes]; [done|].
    cbn [Part000.binary_of_chunks].
    rewrite IH by (rewrite length_drop; simpl in *; lia).
    rewrite <- string_of_bytes_app. by rewrite take_drop.
Qed.

Lemma bytes_of_string_of_bytes (bs : list Byte.byte) :
  map byte_of_ascii (list_ascii_of_string (Part000.string_of_bytes bs)) = bs.
Proof.
  unfold Part000.string_of_bytes.
  rewrite list_ascii_of_string_of_list_ascii, map_map.
  rewrite <- (map_id bs) at 2. apply map_ext. intros b.
  apply byte_of_ascii_of_byte.
Qed.

Lemma arrayBufferToBase64_encode (buffer : list Byte.byte) :
  Part000.arrayBufferToBase64 buffer = base64_encode buffer.
Proof.
  unfold Part000.arrayBufferToBase64, Part000.btoa.
  rewrite binary_of_chunks_whole by lia.
  by rewrite bytes_of_string_of_bytes.
Qed.

(** X1. In the second variant, decoding what [arrayBufferToBase64]
    produced gives the buffer back, byte for byte and for every buffer
    (the empty one included): the 32 KiB chunks of the encoder leave no
    seam in the text. *)
Theorem arrayBufferToBase64_round_trip (buffer : list Byte.byte) :
  Part000.base64ToArrayBuffer (Part000.arrayBufferToBase64 buffer) = Ok buffer.
Proof.
  rewrite arrayBufferToBase64_encode.
  apply (base64ToArrayBuffer_encode buffer).
Qed.

(** X2. In [index.mjs], [fileToBase64] resolves to the text after the
    first comma of the data URL, and [base64ToArrayBuffer] turns that
    text back into the bytes of the file, while the storage is left
    alone; when the file cannot be read, it rejects with the error of
    the reader. *)
Theorem fileToBase64_decodes (file : File) (w : World) :
  match read_dataURL_fault w file with
  | None =>
      ∃ base64,
        IndexMjs.fileToBase64 file w = (Ok base64, w) ∧
        IndexMjs.base64ToArrayBuffer base64 = Ok (file_bytes file)
  | Some e => IndexMjs.fileToBase64 file w = (Throw e, w)
  end.
Proof.
  destruct (read_dataURL_fault w file) as [e|] eqn:Hr.
  - unfold IndexMjs.fileToBase64. eff_unfold. by rewrite Hr.
  - exists (base64_encode (file_bytes file)).
    split; [by apply fileToBase64_run|].
    apply (base64ToArrayBuffer_encode (file_bytes file)).
Qed.

(** ** What a save leaves behind, and what a restore does on failure *)

(** X3. The backend [saveFile] names holds the file: after
    ['localStorage'] the fast store has the base64 text of the bytes
    under [mdb-base64] and the name under [mdb-name], and IndexedDB has
    not been touched; after ['indexedDB'] the object store has
    [{file, name}] under the key [file].  No other value is ever
    returned. *)
Theorem saveFile_backend_holds_file (file : File) (w w1 : World)
    (backend : string) :
  IndexMjs.saveFile file w = (Ok backend, w1) →
  (backend = "localStorage" ∧
   ls_items w1 !! "mdb-base64" = Some (base64_encode (file_bytes file)) ∧
   ls_items w1 !! "mdb-name" = Some (file_name file) ∧
   idb_files w1 = idb_files w ∧ idb_faults w1 = idb_faults w) ∨
  (backend = "indexedDB" ∧
   idb_files w1 !! "file" = Some (mkIdbEntry file (file_name file))).
Proof.
  intros Hs.
  destruct (read_dataURL_fault w file) as [e|] eqn:Hr.
  - rewrite (saveFile_unreadable file w e Hr) in Hs. right.
    destruct (idb_faults w) as [|[e'|] rest]; try done;
      injection Hs as <- <-; (split; [done|apply lookup_insert_eq]).
  - destruct (ls_write_fault "mdb-base64" (base64_encode (file_bytes file))
                "mdb-name" (file_name file) w) as [err|] eqn:Hw.
    + destruct (saveFile_fallback file w err Hr Hw)
        as (w0 & _ & _ & _ & _ & _ & Heq).
      rewrite Heq in Hs. right.
      destruct (idb_faults w0) as [|[e'|] [|[e''|] rest]]; try done;
        injection Hs as <- <-; (split; [done|apply lookup_insert_eq]).
    + rewrite (saveFile_primary file w Hr Hw) in Hs. injection Hs as <- <-.
      left. split; [done|]. simpl.
      split; [by rewrite lookup_insert_ne, lookup_insert_eq|].
      split; [apply lookup_insert_eq|done].
Qed.

Section CorruptRecord.
Context `{Platform}.

(** X5. A record of the fast store that [atob] cannot decode makes
    [loadStoredFile] throw [InvalidCharacterError]: the IndexedDB copy is
    not consulted (no operation is run on it), and [initFromStorage]
    ends with an empty status line and the storage, the database handle,
    the table cache and both grids as they were. *)
Theorem corrupt_record_blocks_restore (a : IndexMjs.App) (s : string) :
  ls_items (IndexMjs.world a) !! "mdb-base64" = Some s →
  s ≠ EmptyString →
  atob s = None →
  IndexMjs.loadStoredFile (IndexMjs.world a)
  = (Throw invalid_character, IndexMjs.world a) ∧
  IndexMjs.initFromStorage a
  = (Ok tt,
     IndexMjs.mkApp (IndexMjs.world a) (IndexMjs.reader a)
       (IndexMjs.tableMap a) (IndexMjs.leftRowData a)
       (IndexMjs.rightColumnDefs a) (IndexMjs.rightRowData a) EmptyString
       (IndexMjs.toolbar a) (IndexMjs.timers a)).
Proof.
  intros Hl Hne Ha.
  assert (IndexMjs.loadStoredFile (IndexMjs.world a)
          = (Throw invalid_character, IndexMjs.world a)) as Hload.
  { unfold IndexMjs.loadStoredFile, localStorage_getItem. eff_unfold.
    rewrite Hl. simpl.
    destruct (String.eqb_spec s EmptyString) as [->|_]; [done|]. simpl.
    unfold IndexMjs.base64ToArrayBuffer. by rewrite Ha. }
  split; [done|].
  unfold IndexMjs.initFromStorage, IndexMjs.setStatus. eff_unfold.
  rewrite Hload. simpl. by destruct a.
Qed.

End CorruptRecord.

(** X6. With no usable record in the fast store, [loadStoredFile] never
    throws: it resolves to the IndexedDB entry (its bytes and name) when
    the request succeeds, an entry is there and its blob can be read,
    and to [null] in every other case, a failed request included.  The
    content of the two stores is not changed. *)
Theorem loadStoredFile_never_throws_on_idb (w : World) :
  truthy_string (ls_items w !! "mdb-base64") = false →
  ∃ w',
    IndexMjs.loadStoredFile w
    = (Ok (match idb_faults w, idb_files w !! "file" with
           | Some _ :: _, _ => None
           | _, None => None
           | _, Some entry =>
               if blob_fault w (idb_file entry) then None
               else Some (IndexMjs.mkStored (file_bytes (idb_file entry))
                            (Some (idb_name entry)))
           end), w') ∧
    ls_items w' = ls_items w ∧ idb_files w' = idb_files w.
Proof.
  intros Hl. unfold IndexMjs.loadStoredFile, localStorage_getItem.
  eff_unfold. rewrite Hl. unfold IndexMjs.idbLoadFile, idb_request.
  eff_unfold.
  destruct (idb_faults w) as [|[e|] rest];
    destruct (idb_files w !! "file") as [entry|];
    try destruct (blob_fault w (idb_file entry));
    (eexists; split; [reflexivity|done]).
Qed.

(** X7. The three IndexedDB helpers compose as a one-slot store: with
    no fault injected and a readable blob, a file saved with
    [idbSaveFile] is what [idbLoadFile] resolves to (the bytes of the
    blob, and the name), a second save replaces the first, and after
    [idbDeleteFile] the load resolves to [null]. *)
Theorem idb_save_load_delete (file other : File) (name other_name : string)
    (w : World) :
  idb_faults w = [] →
  blob_fault w file = false →
  ((IndexMjs.idbSaveFile file name ;;; IndexMjs.idbLoadFile) w).1
  = Ok (Some (IndexMjs.mkStored (file_bytes file) (Some name))) ∧
  ((IndexMjs.idbSaveFile other other_name ;;;
    IndexMjs.idbSaveFile file name ;;; IndexMjs.idbLoadFile) w).1
  = Ok (Some (IndexMjs.mkStored (file_bytes file) (Some name))) ∧
  ((IndexMjs.idbSaveFile file name ;;; IndexMjs.idbDeleteFile ;;;
    IndexMjs.idbLoadFile) w).1
  = Ok None.
Proof.
  intros Hf Hb. destruct w as [ls lf files faults rd ra bf].
  simpl in Hf, Hb. subst faults.
  unfold IndexMjs.idbSaveFile, IndexMjs.idbDeleteFile, IndexMjs.idbLoadFile,
    idb_request.
  eff_unfold. simpl.
  rewrite !lookup_insert_eq, lookup_delete_eq. simpl. by rewrite Hb.
Qed.

(** ** Opening a file *)

Section Opening.
Context `{Platform}.

Lemma showTable_frame name a :
  index_frame a (IndexMjs.showTable name a).2 ∧
  IndexMjs.tableMap (IndexMjs.showTable name a).2 = IndexMjs.tableMap a ∧
  IndexMjs.status (IndexMjs.showTable name a).2 = IndexMjs.status a.
Proof.
  unfold IndexMjs.showTable, index_frame. eff_unfold. simpl.
  destruct (IndexMjs.tableMap a !! name) as [t|]; simpl; [|done].
  destruct (getData t no_opts) as [rows|e]; simpl; [|done].
  destruct (IndexMjs.sampleRowsForTable t 1000); done.
Qed.

Lemma index_buildTablesList_frame a :
  ∃ a', IndexMjs.buildTablesList a = (Ok tt, a') ∧ index_frame a a'.
Proof.
  unfold IndexMjs.buildTablesList, IndexMjs.setStatus.
  unfold etry, ebind at 1, egets.
  destruct (IndexMjs.reader a) as [r|] eqn:Hr;
    [|eexists; split; [reflexivity|done]].
  unfold ebind at 1, elift. unfold ebind at 1.
  destruct (getTableNames r) as [names|e];
    [|eexists; split; [reflexivity|done]].
  unfold ebind at 1, ezoom.
  destruct (catalog_entries_run r names (IndexMjs.tableMap a)) as [tm ->].
  unfold ebind at 1, emodify.
  set (tables := map _ names).
  set (a1 := IndexMjs.set_leftRowData tables (IndexMjs.set_tableMap tm a)).
  destruct tables as [|e es].
  - eexists; split; [reflexivity|done].
  - destruct (showTable_frame (entry_name e) a1) as [(H1 & H2 & H3 & H4) _].
    destruct (IndexMjs.showTable (entry_name e) a1) as [[[]|err] a2];
      simpl in *; (eexists; split; [reflexivity|done]).
Qed.

Lemma handleFile_eq (file : File) (a : IndexMjs.App) (rd : Reader) :
  read_arrayBuffer_fault (IndexMjs.world a) file = None →
  MDBReader_new (file_bytes file) = Ok rd →
  IndexMjs.handleFile file a
  = (Ok tt,
     (IndexMjs.setStatus (file_name file)
        (IndexMjs.buildTablesList
           (IndexMjs.set_world (IndexMjs.saveFile file (IndexMjs.world a)).2
              (IndexMjs.set_reader rd a))).2).2).
Proof.
  intros Hf Hn. unfold IndexMjs.handleFile.
  unfold ebind at 1, egets. rewrite Hf.
  unfold etry at 1. unfold ebind at 1, elift. rewrite Hn.
  unfold ebind at 1, emodify.
  set (a1 := IndexMjs.set_reader rd a).
  unfold ebind at 1.
  assert (etry (ezoom IndexMjs.world IndexMjs.set_world (IndexMjs.saveFile file)
                  ;;; eret tt) (fun _ => eret tt) a1
          = (Ok tt, IndexMjs.set_world
                      (IndexMjs.saveFile file (IndexMjs.world a)).2 a1))
    as ->.
  { unfold etry, ebind, ezoom, eret. simpl.
    by destruct (IndexMjs.saveFile file (IndexMjs.world a)) as [[b|e] w1]. }
  set (a2 := IndexMjs.set_world _ a1).
  unfold ebind at 1.
  destruct (index_buildTablesList_frame a2) as (a3 & -> & _).
  reflexivity.
Qed.

(** X8. Persistence never stands between the user and the file: when
    the file can be read and [MDBReader] accepts its bytes, [handleFile]
    ends without a throw with the new database handle installed, the
    catalog of its tables in the left grid and the file name in the
    status line, whatever the two stores do (quota, disabled storage,
    failing IndexedDB); the storage is left as [saveFile] left it. *)
Theorem handleFile_opens_despite_storage (file : File) (a : IndexMjs.App)
    (rd : Reader) :
  read_arrayBuffer_fault (IndexMjs.world a) file = None →
  MDBReader_new (file_bytes file) = Ok rd →
  ∃ a',
    IndexMjs.handleFile file a = (Ok tt, a') ∧
    IndexMjs.reader a' = Some rd ∧
    IndexMjs.status a' = file_name file ∧
    IndexMjs.world a' = (IndexMjs.saveFile file (IndexMjs.world a)).2 ∧
    ∀ names, getTableNames rd = Ok names →
      IndexMjs.leftRowData a'
      = map (fun name => mkEntry name (default 0 (reported_count rd name)))
          names.
Proof.
  intros Hf Hn. rewrite (handleFile_eq file a rd Hf Hn).
  set (a2 := IndexMjs.set_world _ (IndexMjs.set_reader rd a)).
  destruct (index_buildTablesList_frame a2) as (a3 & Hb & H1 & H2 & _).
  pose proof (index_buildTablesList_rows a2 rd) as Hrows.
  rewrite Hb in Hrows |- *. simpl in *.
  eexists. split; [reflexivity|]. simpl.
  split; [by rewrite H2|]. split; [done|]. split; [by rewrite H1|].
  intros names Hnames. by apply Hrows.
Qed.

(** X9. A file that [MDBReader] rejects changes nothing but the status
    line: neither store is written, and the database handle, the
    catalog, the table cache and the grids stay those of the file open
    before.  [index.mjs] clears the status line; the second variant
    writes ['Error loading file: '] followed by the message of the
    error.  Neither [handleFile] nor [loadFile] throws. *)
Theorem rejected_file_only_status (file : File) (a : IndexMjs.App)
    (b : Part000.App) (e : JsError) :
  read_arrayBuffer_fault (IndexMjs.world a) file = None →
  read_arrayBuffer_fault (Part000.world b) file = None →
  MDBReader_new (file_bytes file) = Throw e →
  IndexMjs.handleFile file a
  = (Ok tt,
     IndexMjs.mkApp (IndexMjs.world a) (IndexMjs.reader a)
       (IndexMjs.tableMap a) (IndexMjs.leftRowData a)
       (IndexMjs.rightColumnDefs a) (IndexMjs.rightRowData a) EmptyString
       (IndexMjs.toolbar a) (IndexMjs.timers a)) ∧
  Part000.loadFile (Some file) b
  = (Ok tt,
     Part000.mkApp (Part000.world b) (Part000.input_files b)
       (Part000.reader b) (Part000.tables b) (Part000.tableMap b)
       (Part000.relationships b) (Part000.tablesGrid b) (Part000.tablesApi b)
       (Part000.rowsGrid b) (Part000.rowsGridOptions b)
       (Part000.currentTable b) (Part000.tableInfo b)
       ("Error loading file: " +:+ err_message e) (Part000.timers b)).
Proof.
  intros Ha Hb Hn. split.
  - unfold IndexMjs.handleFile, IndexMjs.setStatus. eff_unfold.
    by rewrite Ha, Hn.
  - unfold Part000.loadFile, Part000.setStatus. eff_unfold.
    simpl. by rewrite Hb, Hn.
Qed.

(** X24. In [index.mjs], a file picked in the file input survives a
    reload of the page.  When the file is readable and not empty,
    [MDBReader] accepts its bytes and the fast store takes both writes,
    the [change] listener opens it, and [initFromStorage] on a fresh
    page over the storage left behind installs the handle [MDBReader]
    makes of the same bytes, shows the name of the file in the status
    line and the same catalog, and leaves the storage as it is. *)
Theorem picked_file_survives_reload (file : File) (rest : list File)
    (a b : IndexMjs.App) (rd : Reader) :
  read_arrayBuffer_fault (IndexMjs.world a) file = None →
  read_dataURL_fault (IndexMjs.world a) file = None →
  file_bytes file ≠ [] →
  MDBReader_new (file_bytes file) = Ok rd →
  ls_write_fault "mdb-base64" (base64_encode (file_bytes file))
    "mdb-name" (file_name file) (IndexMjs.world a) = None →
  ∃ a',
    IndexMjs.onInputChange (file :: rest) a = (Ok tt, a') ∧
    IndexMjs.reader a' = Some rd ∧
    (IndexMjs.world b = IndexMjs.world a' →
     ∃ b',
       IndexMjs.initFromStorage b = (Ok tt, b') ∧
       IndexMjs.reader b' = Some rd ∧
       IndexMjs.status b' = file_name file ∧
       IndexMjs.world b' = IndexMjs.world a' ∧
       ∀ names, getTableNames rd = Ok names →
         IndexMjs.leftRowData b' = IndexMjs.leftRowData a').
Proof.
  intros Hra Hrd Hne Hn Hw. cbn [IndexMjs.onInputChange].
  rewrite (handleFile_eq file a rd Hra Hn).
  rewrite (saveFile_primary file _ Hrd Hw). cbn [snd].
  set (w1 := set_ls_items _ (set_ls_items _ (IndexMjs.world a))).
  set (a2 := IndexMjs.set_world w1 (IndexMjs.set_reader rd a)).
  destruct (index_buildTablesList_frame a2) as (a3 & Ha3 & Hw3 & Hr3 & _).
  pose proof (fun names => index_buildTablesList_rows a2 rd names eq_refl)
    as Hrows.
  rewrite Ha3 in Hrows |- *. cbn [snd] in Hrows |- *.
  eexists. split; [reflexivity|]. split; [simpl; by rewrite Hr3|].
  simpl. rewrite Hw3. simpl. intros Hb.
  assert (IndexMjs.loadStoredFile (IndexMjs.world b)
          = (Ok (Some (IndexMjs.mkStored (file_bytes file)
                         (Some (file_name file)))), IndexMjs.world b))
    as Hload.
  { rewrite (loadStoredFile_fast _ (file_bytes file) Hne).
    - rewrite Hb. simpl. by rewrite lookup_insert_eq.
    - rewrite Hb. simpl. by rewrite lookup_insert_ne, lookup_insert_eq. }
  unfold IndexMjs.initFromStorage.
  unfold etry at 1. unfold ebind at 1, ezoom. rewrite Hload.
  cbn [IndexMjs.arrayBuffer IndexMjs.stored_name].
  unfold ebind at 1, elift. rewrite Hn.
  unfold ebind at 1, emodify. unfold ebind at 1.
  set (b1 := IndexMjs.set_reader rd (IndexMjs.set_world (IndexMjs.world b) b)).
  destruct (index_buildTablesList_frame b1) as (b2 & Hbt & H1 & H2 & _).
  pose proof (fun names => index_buildTablesList_rows b1 rd names eq_refl)
    as Hrows'.
  rewrite Hbt in Hrows' |- *. simpl in *.
  eexists. split; [reflexivity|]. simpl.
  split; [by rewrite H2|]. split; [done|]. split; [by rewrite H1, Hb|].
  intros names Hnames. by rewrite (Hrows names), (Hrows' names).
Qed.

End Opening.

(** ** When the table names cannot be read *)

Section FailureModes.
Context `{Platform}.

(** X25. When the table names cannot be read (no database handle, or
    [getTableNames] throws), [buildTablesList] of [index.mjs] swallows
    the error: it clears the status line and changes nothing else.  The
    second variant has no such guard: with no database handle the
    TypeError of the call on [null], and otherwise the error of
    [getTableNames], escapes [buildTablesList] and the state is left as
    it was.  When the
    names can be read, the second variant never throws: a missing or
    unreadable [MSysRelationships] table only empties the relationship
    cache, which otherwise holds the rows fetched with
    [rowLimit: 10000]. *)
Theorem buildTablesList_failure_modes (a : IndexMjs.App) (b : Part000.App) :
  (match IndexMjs.reader a with
   | Some r => is_ok (getTableNames r)
   | None => false
   end = false →
   IndexMjs.buildTablesList a
   = (Ok tt,
      IndexMjs.mkApp (IndexMjs.world a) (IndexMjs.reader a)
        (IndexMjs.tableMap a) (IndexMjs.leftRowData a)
        (IndexMjs.rightColumnDefs a) (IndexMjs.rightRowData a) EmptyString
        (IndexMjs.toolbar a) (IndexMjs.timers a))) ∧
  (Part000.reader b = None →
   Part000.buildTablesList b = (Throw type_error, b)) ∧
  (∀ r e, Part000.reader b = Some r → getTableNames r = Throw e →
     Part000.buildTablesList b = (Throw e, b)) ∧
  (∀ r names, Part000.reader b = Some r → getTableNames r = Ok names →
     ∃ b',
       Part000.buildTablesList b = (Ok tt, b') ∧
       Part000.relationships b'
       = match getTable r "MSysRelationships" with
         | Ok relTable =>
             match getData relTable (limit_opts 10000) with
             | Ok rels => rels
             | Throw _ => []
             end
         | Throw _ => []
         end).
Proof.
  split; [|split; [|split]].
  - destruct a as [w rd tm left cols rows st tb ti]. simpl.
    unfold IndexMjs.buildTablesList, IndexMjs.setStatus.
    unfold etry, ebind at 1, egets. simpl.
    destruct rd as [r|]; [|done].
    unfold ebind at 1, elift. unfold ebind at 1.
    destruct (getTableNames r) as [names|e]; [done|]. done.
  - intros Hr. unfold Part000.buildTablesList.
    unfold ebind at 1, egets. rewrite Hr.
    by unfold ebind at 1, elift.
  - intros r e Hr Hn. unfold Part000.buildTablesList.
    unfold ebind at 1, egets. rewrite Hr.
    unfold ebind at 1, elift. unfold ebind at 1. by rewrite Hn.
  - intros r names Hr Hn. unfold Part000.buildTablesList.
    unfold ebind at 1, egets. rewrite Hr.
    unfold ebind at 1, elift. unfold ebind at 1. rewrite Hn.
    unfold ebind at 1, ezoom.
    destruct (catalog_entries_run r names (Part000.tableMap b)) as [tm ->].
    unfold Part000.renderTablesGrid. eff_unfold. simpl.
    destruct (getTable r "MSysRelationships") as [t|e]; simpl;
      [destruct (getData t (limit_opts 10000)); simpl|];
      destruct (Part000.tablesGrid b); by eexists.
Qed.

End FailureModes.

(** ** Persistence in the second variant *)

Section Reload.
Context `{Platform}.

Lemma part000_buildTablesList_world a :
  ∃ r a',
    Part000.buildTablesList a = (r, a') ∧
    Part000.world a' = Part000.world a ∧
    Part000.reader a' = Part000.reader a.
Proof.
  unfold Part000.buildTablesList.
  unfold ebind at 1, egets.
  destruct (Part000.reader a) as [r|] eqn:Hr;
    [|eexists _, _; split; [reflexivity|done]].
  unfold ebind at 1, elift. unfold ebind at 1.
  destruct (getTableNames r) as [names|e];
    [|eexists _, _; split; [reflexivity|done]].
  unfold ebind at 1, ezoom.
  destruct (catalog_entries_run r names (Part000.tableMap a)) as [tm ->].
  unfold Part000.renderTablesGrid. eff_unfold. simpl.
  destruct (getTable r "MSysRelationships") as [t|e]; simpl;
    [destruct (getData t (limit_opts 10000)); simpl|];
    destruct (Part000.tablesGrid a);
    (eexists _, _; split; [reflexivity|done]).
Qed.

Lemma part000_buildTablesList_ok a r names :
  Part000.reader a = Some r →
  getTableNames r = Ok names →
  (Part000.buildTablesList a).1 = Ok tt.
Proof.
  intros Hr Hn. unfold Part000.buildTablesList.
  unfold ebind at 1, egets. rewrite Hr.
  unfold ebind at 1, elift. unfold ebind at 1. rewrite Hn.
  unfold ebind at 1, ezoom.
  destruct (catalog_entries_run r names (Part000.tableMap a)) as [tm ->].
  unfold Part000.renderTablesGrid. eff_unfold. simpl.
  destruct (getTable r "MSysRelationships") as [t|e]; simpl;
    [destruct (getData t (limit_opts 10000)); simpl|]; done.
Qed.

(** X16. What the second variant saves, it restores.  When the fast
    store takes both writes, [saveFileToLocalStorage] of the text
    [arrayBufferToBase64] made of a non-empty file reports ['Saved to
    local storage'], and on any later page over that storage
    [tryLoadFromLocalStorage] decodes the text to the very bytes of the
    file, opens them, builds the catalog and reports ['Loaded from local
    storage'] (the library accepting the bytes and listing the tables,
    as it did when the file was loaded). *)
Theorem save_then_reload (file : File) (a b : Part000.App) (rd : Reader)
    (names : list string) :
  file_bytes file ≠ [] →
  ls_write_fault "mdb-reader:lastFile" (base64_encode (file_bytes file))
    "mdb-reader:lastFileName" (file_name file) (Part000.world a) = None →
  MDBReader_new (file_bytes file) = Ok rd →
  getTableNames rd = Ok names →
  ∃ a1,
    Part000.saveFileToLocalStorage
      (Part000.arrayBufferToBase64 (file_bytes file)) (file_name file) a
    = (Ok tt, a1) ∧
    Part000.status a1 = "Saved to local storage" ∧
    (Part000.world b = Part000.world a1 →
     ∃ b',
       Part000.tryLoadFromLocalStorage b = (Ok tt, b') ∧
       Part000.reader b' = Some rd ∧
       Part000.status b' = "Loaded from local storage" ∧
       Part000.tables b'
       = map (fun name => mkEntry name (default 0 (reported_count rd name)))
           names).
Proof.
  intros Hne Hw Hrd Hn. rewrite arrayBufferToBase64_encode.
  unfold ls_write_fault in Hw.
  destruct (ls_fault (Part000.world a) (ls_items (Part000.world a))
              "mdb-reader:lastFile" (base64_encode (file_bytes file)))
    eqn:H1; [done|].
  unfold Part000.saveFileToLocalStorage, Part000.setStatus,
    localStorage_setItem.
  eff_unfold. simpl. rewrite H1. simpl. rewrite Hw. simpl.
  eexists. split; [reflexivity|]. split; [done|].
  simpl. intros Hb.
  unfold Part000.tryLoadFromLocalStorage, localStorage_getItem.
  unfold ebind at 1, egets. rewrite Hb. simpl.
  rewrite lookup_insert_ne by done. rewrite lookup_insert_eq. simpl.
  rewrite base64_encode_nonempty by done. simpl.
  unfold ebind at 1, Part000.setStatus at 1, emodify.
  set (b0 := Part000.mkApp _ _ _ _ _ _ _ _ _ _ _ _ _ _).
  unfold etry. unfold ebind at 1, elift.
  rewrite (proj2 (base64ToArrayBuffer_encode (file_bytes file))).
  unfold ebind at 1. rewrite Hrd.
  unfold ebind at 1, emodify. unfold ebind at 1.
  set (b1 := Part000.set_reader rd b0).
  pose proof (part000_buildTablesList_ok b1 rd names eq_refl Hn) as Hok.
  pose proof (part000_buildTablesList_rows b1 rd names eq_refl Hn) as Hrows.
  destruct (part000_buildTablesList_world b1) as (r & b2 & Hbt & _ & Hreader).
  rewrite Hbt in Hok, Hrows |- *. simpl in Hok, Hrows. subst r.
  eexists. split; [reflexivity|]. simpl. done.
Qed.

(** X17. Restoring in the second variant is harmless:
    [tryLoadFromLocalStorage] never throws and never writes to the
    storage; with no text stored (or an empty one) it changes nothing at
    all; with a text that [atob] cannot decode it only sets the status
    to ['Failed to load saved DB'], leaving the database handle, the
    catalog and the table cache as they were. *)
Theorem tryLoadFromLocalStorage_harmless (a : Part000.App) :
  ∃ a',
    Part000.tryLoadFromLocalStorage a = (Ok tt, a') ∧
    Part000.world a' = Part000.world a ∧
    (truthy_string (ls_items (Part000.world a) !! "mdb-reader:lastFile")
     = false → a' = a) ∧
    (∀ s, ls_items (Part000.world a) !! "mdb-reader:lastFile" = Some s →
          s ≠ EmptyString → atob s = None →
          Part000.status a' = "Failed to load saved DB" ∧
          Part000.reader a' = Part000.reader a ∧
          Part000.tables a' = Part000.tables a ∧
          Part000.tableMap a' = Part000.tableMap a).
Proof.
  unfold Part000.tryLoadFromLocalStorage, localStorage_getItem.
  unfold ebind at 1, egets.
  destruct (ls_items (Part000.world a) !! "mdb-reader:lastFile") as [s|]
    eqn:Hl; simpl.
  2:{ exists a. split; [done|]. split; [done|]. split; [done|]. done. }
  destruct (String.eqb_spec s EmptyString) as [->|Hne]; simpl.
  { exists a. split; [done|]. split; [done|]. split; [done|].
    by intros s [= <-]. }
  unfold ebind at 1, Part000.setStatus at 1, emodify.
  set (a0 := Part000.mkApp _ _ _ _ _ _ _ _ _ _ _ _ _ _).
  unfold etry. unfold ebind at 1, elift.
  unfold Part000.base64ToArrayBuffer.
  destruct (atob s) as [binary|] eqn:Ha.
  2:{ eexists. split; [reflexivity|]. simpl. done. }
  unfold ebind at 1.
  destruct (MDBReader_new _) as [rd|e].
  2:{ eexists. split; [reflexivity|]. simpl.
      split; [done|]. split; [done|].
      intros s' [= <-] _ Hnone. congruence. }
  unfold ebind at 1, emodify. unfold ebind at 1.
  destruct (part000_buildTablesList_world (Part000.set_reader rd a0))
    as (r & a2 & Hbt & Hw & _).
  rewrite Hbt. destruct r as [[]|e]; simpl.
  - eexists. split; [reflexivity|]. simpl.
    split; [by rewrite Hw|]. split; [done|].
    intros s' [= <-] _ Hnone. congruence.
  - eexists. split; [reflexivity|]. simpl.
    split; [by rewrite Hw|]. split; [done|].
    intros s' [= <-] _ Hnone. congruence.
Qed.

End Reload.

(** ** The table cache *)

Lemma catalog_entry_cache r n tm :
  (catalog_entry r n tm).2
  = match opened r n with
    | Some t => <[n := t]> tm
    | None => tm
    end.
Proof.
  unfold catalog_entry, opened. eff_unfold.
  destruct (getTable r n) as [t|e]; simpl; [|done].
  by destruct (rowCount t) as [rc|e].
Qed.

Lemma catalog_entries_cache r names tm name :
  (catalog_entries r names tm).2 !! name = cached_after r names tm name.
Proof.
  unfold cached_after.
  revert tm. induction names as [|n rest IH]; intros tm.
  - cbn [catalog_entries eret snd].
    destruct (decide (name ∈ [])) as [Hin|]; [by apply elem_of_nil in Hin|done].
  - cbn [catalog_entries]. unfold ebind at 1.
    pose proof (catalog_entry_cache r n tm) as Hc.
    destruct (catalog_entry_run r n tm) as [tm1 Hrun].
    rewrite Hrun in Hc |- *. simpl in Hc. subst tm1.
    unfold ebind at 1.
    specialize (IH (match opened r n with
                    | Some t => <[n := t]> tm
                    | None => tm
                    end)).
    destruct (catalog_entries_run r rest
                (match opened r n with
                 | Some t => <[n := t]> tm
                 | None => tm
                 end)) as [tm2 Hrun2].
    rewrite Hrun2 in IH |- *. simpl in *. rewrite IH.
    destruct (decide (name = n)) as [->|Hne].
    + rewrite (decide_True (P := n ∈ n :: rest)) by left.
      destruct (opened r n) as [t|] eqn:Ho.
      * rewrite lookup_insert_eq. by destruct (decide (n ∈ rest)).
      * by destruct (decide (n ∈ rest)).
    + assert (match opened r n with
              | Some t => <[n := t]> tm
              | None => tm
              end !! name = tm !! name) as ->.
      { destruct (opened r n); [by rewrite lookup_insert_ne|done]. }
      destruct (decide (name ∈ rest)) as [Hin|Hnin].
      * by rewrite decide_True by (by right).
      * rewrite decide_False; [done|].
        rewrite elem_of_cons. intros [?|?]; congruence.
Qed.

Section Cache.
Context `{Platform}.

Lemma index_showTable_tableMap name a :
  IndexMjs.tableMap (IndexMjs.showTable name a).2 = IndexMjs.tableMap a.
Proof.
  unfold IndexMjs.showTable. eff_unfold. simpl.
  destruct (IndexMjs.tableMap a !! name) as [t|]; simpl; [|done].
  destruct (getData t no_opts) as [rows|e]; simpl; [|done].
  destruct (IndexMjs.sampleRowsForTable t 1000); done.
Qed.

Lemma index_buildTablesList_tableMap a r names :
  IndexMjs.reader a = Some r →
  getTableNames r = Ok names →
  IndexMjs.tableMap (IndexMjs.buildTablesList a).2
  = (catalog_entries r names (IndexMjs.tableMap a)).2.
Proof.
  intros Hr Hn. unfold IndexMjs.buildTablesList.
  unfold etry, ebind at 1, egets. rewrite Hr.
  unfold ebind at 1, elift. unfold ebind at 1. rewrite Hn.
  unfold ebind at 1, ezoom.
  destruct (catalog_entries_run r names (IndexMjs.tableMap a)) as [tm ->].
  unfold ebind at 1, emodify.
  set (tables := map _ names).
  set (a1 := IndexMjs.set_leftRowData tables (IndexMjs.set_tableMap tm a)).
  destruct tables as [|e es] eqn:Ht.
  - reflexivity.
  - pose proof (index_showTable_tableMap (entry_name e) a1) as Hs.
    destruct (IndexMjs.showTable (entry_name e) a1) as [[[]|err] a2];
      simpl in *; exact Hs.
Qed.

Lemma part000_buildTablesList_tableMap a r names :
  Part000.reader a = Some r →
  getTableNames r = Ok names →
  Part000.tableMap (Part000.buildTablesList a).2
  = (catalog_entries r names (Part000.tableMap a)).2.
Proof.
  intros Hr Hn. unfold Part000.buildTablesList.
  unfold ebind at 1, egets. rewrite Hr.
  unfold ebind at 1, elift. unfold ebind at 1. rewrite Hn.
  unfold ebind at 1, ezoom.
  destruct (catalog_entries_run r names (Part000.tableMap a)) as [tm ->].
  unfold Part000.renderTablesGrid. eff_unfold. simpl.
  destruct (getTable r "MSysRelationships") as [t|e]; simpl.
  - destruct (getData t (limit_opts 10000)); simpl;
      destruct (Part000.tablesGrid a); reflexivity.
  - destruct (Part000.tablesGrid a); reflexivity.
Qed.

(** X10. The table cache only grows.  After [buildTablesList] of
    either variant, a listed name whose table opens and reports a row
    count is cached with that handle; every other name, listed or not,
    keeps the handle it had before: the handles of a database opened
    earlier stay in the cache and remain reachable under their names. *)
Theorem buildTablesList_cache (r : Reader) (names : list string)
    (a : IndexMjs.App) (b : Part000.App) (name : string) :
  IndexMjs.reader a = Some r →
  Part000.reader b = Some r →
  getTableNames r = Ok names →
  IndexMjs.tableMap (IndexMjs.buildTablesList a).2 !! name
  = cached_after r names (IndexMjs.tableMap a) name ∧
  Part000.tableMap (Part000.buildTablesList b).2 !! name
  = cached_after r names (Part000.tableMap b) name.
Proof.
  intros Ha Hb Hn.
  rewrite (index_buildTablesList_tableMap a r names Ha Hn).
  rewrite (part000_buildTablesList_tableMap b r names Hb Hn).
  by rewrite !catalog_entries_cache.
Qed.

(** X11. [buildTablesList] of [index.mjs] never throws, and it shows
    the first table of the catalog at once: when that table opens,
    reports a row count and its rows can be fetched, the right grid holds
    all its rows and the status line is untouched; when the database
    lists no table at all, the right grid is emptied. *)
Theorem buildTablesList_shows_first_table (a : IndexMjs.App) (r : Reader)
    (names : list string) :
  IndexMjs.reader a = Some r →
  getTableNames r = Ok names →
  ∃ a',
    IndexMjs.buildTablesList a = (Ok tt, a') ∧
    match names with
    | [] => IndexMjs.rightColumnDefs a' = [] ∧ IndexMjs.rightRowData a' = []
    | first :: _ =>
        ∀ t rc rows,
          getTable r first = Ok t → rowCount t = Ok rc →
          getData t no_opts = Ok rows →
          IndexMjs.rightRowData a' = rows ∧
          IndexMjs.status a' = IndexMjs.status a
    end.
Proof.
  intros Hr Hn. unfold IndexMjs.buildTablesList.
  unfold etry, ebind at 1, egets. rewrite Hr.
  unfold ebind at 1, elift. unfold ebind at 1. rewrite Hn.
  unfold ebind at 1, ezoom.
  pose proof (catalog_entries_cache r names (IndexMjs.tableMap a)) as Hcache.
  destruct (catalog_entries_run r names (IndexMjs.tableMap a)) as [tm Hrun].
  rewrite Hrun in Hcache |- *. simpl in Hcache.
  unfold ebind at 1, emodify.
  destruct names as [|first rest]; cbn [map].
  - eexists. split; [reflexivity|]. done.
  - set (a1 := IndexMjs.set_leftRowData _ (IndexMjs.set_tableMap tm a)).
    cbn [entry_name].
    destruct (showTable_frame first a1) as (_ & _ & Hst).
    destruct (IndexMjs.showTable first a1) as [[[]|err] a2] eqn:Hshow.
    + eexists. split; [reflexivity|].
      intros t rc rows Ht Hrc Hd.
      assert (IndexMjs.tableMap a1 !! first = Some t) as Hlook.
      { simpl. rewrite Hcache. unfold cached_after, opened.
        rewrite decide_True by left. by rewrite Ht, Hrc. }
      destruct (showTable_rows first t rows a1 Hlook Hd) as [_ Hrows].
      rewrite Hshow in Hrows. simpl in *. done.
    + eexists. split; [reflexivity|].
      intros t rc rows Ht Hrc Hd.
      assert (IndexMjs.tableMap a1 !! first = Some t) as Hlook.
      { simpl. rewrite Hcache. unfold cached_after, opened.
        rewrite decide_True by left. by rewrite Ht, Hrc. }
      destruct (showTable_rows first t rows a1 Hlook Hd) as [Hok _].
      rewrite Hshow in Hok. done.
Qed.

End Cache.

(** ** The display ceiling and the catalog *)

Lemma selectTable_ceiling (name : string) (tbl : TableHandle)
    (rows : list Row) (a : Part000.App) :
  honours tbl rows →
  is_ok (columnCount tbl) = true →
  is_ok (getColumnNames tbl) = true →
  Part000.tableMap a !! name = Some tbl →
  (∃ opts,
     Part000.rowsGridOptions (Part000.selectTable name a).2 = Some opts ∧
     Part000.opt_rowData opts = take (N.to_nat 5000) rows ∧
     N.of_nat (length (Part000.opt_rowData opts)) <= 5000 ∧
     (Part000.rowsGrid a = None →
      Part000.rowsGrid (Part000.selectTable name a).2
      = Some (take (N.to_nat 5000) rows))) ∧
  (∃ cc,
     Part000.tableInfo (Part000.selectTable name a).2
     = Some (cc, N.of_nat (length rows))).
Proof.
  intros Hh Hcc Hcn Ha.
  pose proof (honours_limit tbl rows 5000 Hh) as Hd.
  assert (N.of_nat (N.to_nat 5000) = 5000) as Hk by lia.
  revert Hd Hk. generalize (N.to_nat 5000). intros k Hd Hk.
  assert (N.of_nat (length (take k rows)) <= 5000) as Hlen
    by (rewrite length_take; lia).
  unfold Part000.selectTable, Part000.renderRowsGrid,
    Part000.highlightTableInList.
  eff_unfold. simpl. rewrite Ha. simpl.
  destruct (columnCount tbl) as [cc|]; [simpl|done].
  rewrite (proj1 Hh). simpl. rewrite Hd. simpl.
  destruct (getColumnNames tbl) as [cols|]; [simpl|done].
  destruct (Part000.rowsGrid a) as [g|]; simpl;
    destruct (Part000.tablesApi a); simpl;
    (split; [eexists; split; [reflexivity|]; simpl; split; [done|]; by split
            |by exists cc]).
Qed.

Section DisplayCeiling.
Context `{Platform}.

(** C8 (as amended). In the second variant, for a table the database
    lists and whose handle honours the row limit: the catalog built by
    [buildTablesList] shows the true row count of the table, and so does
    the table info; [selectTable] fetches with [rowLimit: 5000] and hands
    the rows grid the first 5000 rows of the table at most (all of them
    for a smaller table).  [showTable] of [index.mjs] fetches with no
    limit and hands the grid every row of the table. *)
Theorem display_fetch_ceiling (r : Reader) (names : list string)
    (name : string) (tbl : TableHandle) (rows : list Row)
    (a : Part000.App) (b : IndexMjs.App) :
  honours tbl rows →
  is_ok (columnCount tbl) = true →
  is_ok (getColumnNames tbl) = true →
  Part000.reader a = Some r →
  getTableNames r = Ok names →
  name ∈ names →
  getTable r name = Ok tbl →
  IndexMjs.tableMap b !! name = Some tbl →
  let a1 := (Part000.buildTablesList a).2 in
  (∃ e, e ∈ Part000.tables a1 ∧ entry_name e = name) ∧
  (∀ e, e ∈ Part000.tables a1 → entry_name e = name →
        entry_rowCount e = N.of_nat (length rows)) ∧
  (∃ opts,
     Part000.rowsGridOptions (Part000.selectTable name a1).2 = Some opts ∧
     Part000.opt_rowData opts = take (N.to_nat 5000) rows ∧
     N.of_nat (length (Part000.opt_rowData opts)) <= 5000 ∧
     (Part000.rowsGrid a1 = None →
      Part000.rowsGrid (Part000.selectTable name a1).2
      = Some (take (N.to_nat 5000) rows))) ∧
  (∃ cc,
     Part000.tableInfo (Part000.selectTable name a1).2
     = Some (cc, N.of_nat (length rows))) ∧
  IndexMjs.rightRowData (IndexMjs.showTable name b).2 = rows.
Proof.
  intros Hh Hcc Hcn Hr Hn Hin Ht Hb a1.
  assert (reported_count r name = Some (N.of_nat (length rows))) as Hcount.
  { unfold reported_count. by rewrite Ht, (proj1 Hh). }
  assert (Part000.tables a1
          = map (fun n => mkEntry n (default 0 (reported_count r n))) names)
    as Htables by (by apply part000_buildTablesList_rows).
  assert (Part000.tableMap a1 !! name = Some tbl) as Hmap.
  { unfold a1. rewrite (part000_buildTablesList_tableMap a r names Hr Hn).
    rewrite catalog_entries_cache. unfold cached_after, opened.
    rewrite decide_True by done. by rewrite Ht, (proj1 Hh). }
  clearbody a1.
  split.
  { exists (mkEntry name (default 0 (reported_count r name))).
    split; [|done]. rewrite Htables. apply list_elem_of_fmap. by exists name. }
  split.
  { intros e He Hname. rewrite Htables in He.
    apply list_elem_of_fmap in He as (n & -> & _). simpl in *. subst n.
    by rewrite Hcount. }
  destruct (selectTable_ceiling name tbl rows a1 Hh Hcc Hcn Hmap)
    as [Hopts Hinfo].
  split; [exact Hopts|]. split; [exact Hinfo|].
  apply (showTable_rows name tbl rows b Hb). by apply honours_all.
Qed.

End DisplayCeiling.

(** ** Sampling when block fetches fail *)



(** ** The right grid of [index.mjs] *)

Section RightGrid.
Context `{Platform}.

Lemma computeColumnWidths_range cols sample c :
  c ∈ cols → c ≠ "__proto__" →
  ∃ w, IndexMjs.computeColumnWidths cols sample !! c = Some w ∧
       (60 <= w <= 800)%Z.
Proof.
  intros Hin Hp. unfold IndexMjs.computeColumnWidths.
  rewrite foldl_assign_lookup.
  rewrite decide_True by done. eexists. split; [reflexivity|].
  unfold IndexMjs.minWidth, IndexMjs.maxWidth. lia.
Qed.

Lemma computeColumnWidths_proto cols sample :
  IndexMjs.computeColumnWidths cols sample !! "__proto__" = None.
Proof.
  unfold IndexMjs.computeColumnWidths. rewrite foldl_assign_lookup.
  rewrite decide_False; [done|]. by intros [_ ?].
Qed.

(** X12. When the fetch, the column names and the sampling succeed,
    [showTable] hands the right grid one column definition per column
    name, in order, and all the rows.  The definition of a column not
    named [__proto__] carries the width [computeColumnWidths] gives the
    column, which lies between 60 and 800 pixels; that of a column named
    [__proto__], for which no width is stored, carries
    [Object.prototype] in place of a number.  The default of 100 in
    [widths[c] || 100] is never used. *)
Theorem showTable_column_widths (name : string) (t : TableHandle)
    (rows sample : list Row) (cols : list string) (a : IndexMjs.App) :
  IndexMjs.tableMap a !! name = Some t →
  getData t no_opts = Ok rows →
  getColumnNames t = Ok cols →
  IndexMjs.sampleRowsForTable t 1000 = Ok sample →
  ∃ a',
    IndexMjs.showTable name a = (Ok tt, a') ∧
    IndexMjs.rightRowData a' = rows ∧
    map field (IndexMjs.rightColumnDefs a') = cols ∧
    Forall (fun d =>
              if decide (field d = "__proto__")
              then width d = Some (WidthMember "__proto__")
              else
                ∃ w, width d = Some (WidthPx w) ∧ (60 <= w <= 800)%Z ∧
                     IndexMjs.computeColumnWidths cols sample !! field d
                     = Some w)
      (IndexMjs.rightColumnDefs a').
Proof.
  intros Ht Hd Hc Hs. unfold IndexMjs.showTable. eff_unfold. simpl.
  rewrite Ht. simpl. rewrite Hd, Hc, Hs.
  eexists. split; [reflexivity|]. simpl. split; [done|].
  split.
  - rewrite map_map. simpl. apply map_id.
  - apply Forall_forall. intros d Hin.
    apply list_elem_of_fmap in Hin as (c & -> & Hin). simpl.
    unfold IndexMjs.width_or_default.
    destruct (decide (c = "__proto__")) as [->|Hp].
    + by rewrite computeColumnWidths_proto.
    + destruct (computeColumnWidths_range cols sample c Hin Hp)
        as (w & Hw & Hr).
      exists w. rewrite Hw.
      destruct (Z.eqb_spec w 0); [lia|done].
Qed.

End RightGrid.

(** ** The divider and the drag indicators of [index.mjs] *)

Lemma onMouseMove_range x l d w :
  IndexMjs.leftWidth (IndexMjs.onMouseMove x l d) = Some w →
  IndexMjs.leftWidth d = Some w ∨ (160 # 1 <= w)%Q ∧ (w <= 900 # 1)%Q.
Proof.
  unfold IndexMjs.onMouseMove.
  destruct (IndexMjs.isDragging d); simpl; [|by left].
  intros [= <-]. right.
  unfold IndexMjs.minLeft, IndexMjs.maxLeft.
  destruct (Qlt_le_dec (x - l) (160 # 1)) as [H1|H1];
    destruct (Qlt_le_dec (900 # 1) _) as [H2|H2]; split;
    try done; try (by apply Qlt_le_weak); try apply Qle_refl.
Qed.

(** X14. Dragging the divider keeps the left panel between 160 and
    900 pixels: after any sequence of [mousedown], [mousemove] and
    [mouseup] events, with any pointer positions, a width written to the
    left panel lies in that range. *)
Theorem divider_width_in_range (events : list IndexMjs.MouseEvent) (w : Q) :
  IndexMjs.leftWidth (foldl IndexMjs.dispatch IndexMjs.divider_init events)
  = Some w →
  (160 # 1 <= w)%Q ∧ (w <= 900 # 1)%Q.
Proof.
  induction events as [|e events IH] using rev_ind; [done|].
  rewrite foldl_app. simpl.
  destruct e as [|x l|]; simpl.
  - exact IH.
  - intros Hw. destruct (onMouseMove_range _ _ _ _ Hw) as [Hd|Hr]; [by apply IH|done].
  - unfold IndexMjs.onMouseUp. by destruct (IndexMjs.isDragging _).
Qed.

Lemma toolbar_after_leave (c : gset string) :
  (c ∖ {["drag-invalid"]} ∪ {["drag-valid"]}) ∖ {["drag-invalid"]}
    ∖ {["drag-valid"]}
  = c ∖ {["drag-invalid"]} ∖ {["drag-valid"]} ∧
  (c ∪ {["drag-invalid"]}) ∖ {["drag-invalid"]} ∖ {["drag-valid"]}
  = c ∖ {["drag-invalid"]} ∖ {["drag-valid"]}.
Proof.
  split; apply set_eq; intros x;
    rewrite !elem_of_difference, elem_of_union, ?elem_of_difference,
      !elem_of_singleton; tauto.
Qed.

(** X15. The indicator shown while something is dragged over the page,
    for every kind of first item.  With no item, [dragenter] changes
    nothing.  When [getAsFile()] gives a file, the toolbar carries
    [drag-invalid] after [dragenter] exactly when the name of the file is
    not allowed, as the check of the drop decides, and [drag-valid] when it
    is allowed.  When [getAsFile()] gives [null] or throws, the toolbar
    loses [drag-invalid] and carries [drag-valid], whatever is dropped
    afterwards.  A following [dragleave] removes both classes and nothing
    else.  Neither listener throws or touches anything but the
    toolbar. *)
Theorem drag_feedback_by_item (items : list IndexMjs.DragItem)
    (a : IndexMjs.App) :
  ∃ a1 a2,
    IndexMjs.onDragEnter items a = (Ok tt, a1) ∧
    IndexMjs.toolbar a1
    = match items with
      | [] => IndexMjs.toolbar a
      | IndexMjs.ItemFile f :: _ =>
          if IndexMjs.isAllowedFileName (file_name f)
          then IndexMjs.toolbar a ∖ {["drag-invalid"]} ∪ {["drag-valid"]}
          else IndexMjs.toolbar a ∪ {["drag-invalid"]}
      | IndexMjs.ItemNull :: _ | IndexMjs.ItemThrows _ :: _ =>
          IndexMjs.toolbar a ∖ {["drag-invalid"]} ∪ {["drag-valid"]}
      end ∧
    match items with
    | [] => True
    | IndexMjs.ItemFile f :: _ =>
        ("drag-invalid" ∈ IndexMjs.toolbar a1
         ↔ IndexMjs.isAllowedFileName (file_name f) = false) ∧
        (IndexMjs.isAllowedFileName (file_name f) = true →
         "drag-valid" ∈ IndexMjs.toolbar a1)
    | IndexMjs.ItemNull :: _ | IndexMjs.ItemThrows _ :: _ =>
        ("drag-invalid" ∉ IndexMjs.toolbar a1) ∧
        ("drag-valid" ∈ IndexMjs.toolbar a1)
    end ∧
    a1 = IndexMjs.set_toolbar (fun _ => IndexMjs.toolbar a1) a ∧
    IndexMjs.onDragLeave a1 = (Ok tt, a2) ∧
    IndexMjs.toolbar a2
    = IndexMjs.toolbar a ∖ {["drag-invalid"]} ∖ {["drag-valid"]} ∧
    a2 = IndexMjs.set_toolbar (fun _ => IndexMjs.toolbar a2) a.
Proof.
  destruct a as [w rd tm left cols rows st tb ti].
  destruct (toolbar_after_leave tb) as [Hv Hi].
  assert (("drag-invalid" ∉ tb ∖ {["drag-invalid"]} ∪ {["drag-valid"]}) ∧
          ("drag-valid" ∈ tb ∖ {["drag-invalid"]} ∪ {["drag-valid"]}))
    as [Hno Hyes].
  { rewrite !elem_of_union, elem_of_difference, !elem_of_singleton.
    split; [intros [[_ Hn]|[=]]; by destruct Hn|by right]. }
  unfold IndexMjs.onDragEnter, IndexMjs.onDragLeave. eff_unfold.
  destruct items as [|[f| |e] rest];
    [|destruct (IndexMjs.isAllowedFileName (file_name f))| |]; simpl;
    eexists _, _; (split; [reflexivity|]); simpl;
    (split; [reflexivity|]).
  all: repeat split; simpl; rewrite ?Hv, ?Hi; try done.
  intros _. apply elem_of_union_r. by apply elem_of_singleton.
Qed.

(** ** The grids of the second variant after their creation *)

Section StaleGrids.
Context `{Platform}.

Lemma part000_buildTablesList_grid a g :
  Part000.tablesGrid a = Some g →
  ∃ r a',
    Part000.buildTablesList a = (r, a') ∧
    Part000.tablesGrid a' = Some g ∧
    Part000.world a' = Part000.world a ∧
    (r = Ok tt → Part000.tablesApi a' = false).
Proof.
  intros Hg. unfold Part000.buildTablesList.
  unfold ebind at 1, egets.
  destruct (Part000.reader a) as [r|];
    [|eexists _, _; split; [reflexivity|done]].
  unfold ebind at 1, elift. unfold ebind at 1.
  destruct (getTableNames r) as [names|e];
    [|eexists _, _; split; [reflexivity|done]].
  unfold ebind at 1, ezoom.
  destruct (catalog_entries_run r names (Part000.tableMap a)) as [tm ->].
  unfold Part000.renderTablesGrid. eff_unfold. simpl.
  destruct (getTable r "MSysRelationships") as [t|e]; simpl;
    [destruct (getData t (limit_opts 10000)); simpl|];
    rewrite Hg; (eexists _, _; split; [reflexivity|done]).
Qed.

Lemma saveFileToLocalStorage_grid base64 name a :
  ∃ a',
    Part000.saveFileToLocalStorage base64 name a = (Ok tt, a') ∧
    Part000.tablesGrid a' = Part000.tablesGrid a ∧
    Part000.tablesApi a' = Part000.tablesApi a.
Proof.
  unfold Part000.saveFileToLocalStorage, Part000.setStatus,
    localStorage_setItem.
  eff_unfold. simpl.
  destruct (ls_fault _ _ "mdb-reader:lastFile" base64); simpl;
    [by eexists|].
  destruct (ls_fault _ _ "mdb-reader:lastFileName" name); simpl; by eexists.
Qed.

(** X18. In the second variant the tables grid is filled once.  When
    it exists already, loading another file leaves it listing the rows
    it was created with, whatever the new catalog is; and after such a
    load has succeeded (status ['Loaded']) the options object in use has
    no [api], so that neither the hover highlighting nor the selection
    highlighting changes anything any more. *)
Theorem tables_grid_filled_once (a : Part000.App) (droppedFile : option File)
    (g : list Part000.GridNode) :
  Part000.tablesGrid a = Some g →
  ∃ a',
    Part000.loadFile droppedFile a = (Ok tt, a') ∧
    Part000.tablesGrid a' = Some g ∧
    (Part000.status a' = "Loaded" →
     ∀ value originTable originCol name,
       Part000.highlightTablesReferencingValue value originTable originCol a'
       = (Ok tt, a') ∧
       Part000.highlightTableInList name a' = (Ok tt, a')).
Proof.
  intros Hg. unfold Part000.loadFile.
  unfold ebind at 1, Part000.setStatus at 1, emodify.
  set (a0 := Part000.mkApp _ _ _ _ _ _ _ _ _ _ _ _ "Loading file..." _).
  assert (Part000.tablesGrid a0 = Some g) as Hg0 by done.
  assert (Part000.status a0 = "Loading file...") as Hs0 by done.
  clearbody a0. clear a Hg.
  unfold ebind at 1, egets.
  destruct (match droppedFile with
            | Some f => Some f
            | None => match Part000.input_files a0 with
                      | [f] => Some f
                      | _ => None
                      end
            end) as [file|].
  2:{ eexists. split; [reflexivity|]. split; [done|]. done. }
  unfold ebind at 1, egets.
  destruct (read_arrayBuffer_fault (Part000.world a0) file).
  { eexists. split; [reflexivity|]. split; [done|]. by rewrite Hs0. }
  unfold etry at 1. unfold ebind at 1, elift.
  destruct (MDBReader_new (file_bytes file)) as [rd|e].
  2:{ eexists. split; [reflexivity|]. split; [done|]. done. }
  unfold ebind at 1, emodify. unfold ebind at 1.
  destruct (saveFileToLocalStorage_grid
              (Part000.arrayBufferToBase64 (file_bytes file)) (file_name file)
              (Part000.set_reader rd a0)) as (a1 & Hsave & Hg1 & _).
  unfold etry at 1. rewrite Hsave.
  unfold ebind at 1.
  destruct (part000_buildTablesList_grid a1 g) as (r & a2 & Hb & Hg2 & _ & Hapi);
    [by rewrite Hg1|].
  rewrite Hb. destruct r as [[]|e].
  - eexists. split; [reflexivity|]. split; [done|].
    intros _ value originTable originCol name.
    unfold Part000.highlightTablesReferencingValue,
      Part000.highlightTableInList, emodify. simpl.
    by rewrite (Hapi eq_refl).
  - eexists. split; [reflexivity|]. split; [done|]. done.
Qed.

End StaleGrids.

(** X19. The rows grid too is filled once.  When it exists already,
    [selectTable] on a cached table whose reads succeed runs to its end
    and moves the current-table label and the table info to the new
    table, but the grid keeps the rows it was created with. *)
Theorem rows_grid_filled_once (a : Part000.App) (name : string)
    (tbl : TableHandle) (g : list Row) :
  Part000.rowsGrid a = Some g →
  Part000.tableMap a !! name = Some tbl →
  navigable tbl = true →
  ∃ a',
    Part000.selectTable name a = (Ok tt, a') ∧
    Part000.currentTable a' = name ∧
    (∃ cc rc, columnCount tbl = Ok cc ∧ rowCount tbl = Ok rc ∧
              Part000.tableInfo a' = Some (cc, rc)) ∧
    Part000.rowsGrid a' = Some g.
Proof.
  intros Hg Ht Hn. unfold navigable in Hn.
  unfold Part000.selectTable, Part000.renderRowsGrid,
    Part000.highlightTableInList.
  eff_unfold. simpl. rewrite Ht. simpl.
  destruct (columnCount tbl) as [cc|]; [simpl|done].
  destruct (rowCount tbl) as [rc|]; [simpl|done].
  destruct (getData tbl (limit_opts 5000)) as [rows|]; [simpl|done].
  destruct (getColumnNames tbl) as [cols|]; [simpl|done].
  rewrite Hg. simpl.
  destruct (Part000.tablesApi a); simpl;
    (eexists; split; [reflexivity|]; simpl; split; [done|];
     split; [by exists cc, rc|done]).
Qed.

(** ** The effects of a click *)

Lemma selectTable_effects name a :
  ∃ r a',
    Part000.selectTable name a = (r, a') ∧
    click_frame a a' ∧
    Part000.status a' = Part000.status a ∧
    Part000.timers a' = Part000.timers a ∧
    (r = Ok tt → is_Some (Part000.tableMap a !! name) →
     Part000.currentTable a' = name).
Proof.
  unfold Part000.selectTable, Part000.renderRowsGrid,
    Part000.highlightTableInList, click_frame.
  eff_unfold. simpl.
  destruct (Part000.tableMap a !! name) as [tbl|]; simpl.
  2:{ eexists _, _. split; [reflexivity|]. repeat (split; [done|]).
      by intros _ [? [=]]. }
  destruct (columnCount tbl), (rowCount tbl),
    (getData tbl (limit_opts 5000)), (getColumnNames tbl); simpl;
    try (eexists _, _; split; [reflexivity|]; done);
    destruct (Part000.rowsGrid a); simpl;
    destruct (Part000.tablesApi a); simpl;
    (eexists _, _; split; [reflexivity|]; done).
Qed.

Lemma follow_one_effects t value a :
  ∃ r a',
    Part000.follow_one t value a = (r, a') ∧
    click_frame a a' ∧
    Part000.status a' = Part000.status a ∧
    match r with
    | Ok (Some name) =>
        name = entry_name t ∧
        Part000.currentTable a' = name ∧
        Part000.timers a'
        = Part000.timers a ++ [mkTimer 50 (SelectMatchingRows name value)]
    | _ => Part000.timers a' = Part000.timers a
    end.
Proof.
  destruct (Part000.tableMap a !! entry_name t) as [tbl|] eqn:Ht.
  2:{ unfold Part000.follow_one. eff_unfold. simpl. rewrite Ht. simpl.
      eexists _, _. split; [reflexivity|]. done. }
  destruct (getData tbl (limit_opts 10000)) as [data|e] eqn:Hd.
  2:{ unfold Part000.follow_one. eff_unfold. simpl. rewrite Ht. simpl.
      rewrite Hd. eexists _, _. split; [reflexivity|]. done. }
  rewrite (follow_one_eq t value a tbl data Ht Hd).
  destruct (existsb _ data).
  2:{ eexists _, _. split; [reflexivity|]. done. }
  destruct (selectTable_effects (entry_name t) a)
    as (r & a1 & -> & Hfr & Hst & Htm & Hcur).
  destruct r as [[]|e].
  - eexists _, _. split; [reflexivity|]. simpl.
    split; [done|]. split; [done|]. split; [done|].
    split; [by apply Hcur|]. by rewrite Htm.
  - eexists _, _. split; [reflexivity|]. done.
Qed.

Lemma click_frame_trans a b c :
  click_frame a b → click_frame b c → click_frame a c.
Proof.
  unfold click_frame. intros (?&?&?&?&?) (?&?&?&?&?).
  repeat split; congruence.
Qed.

Lemma follow_tables_effects ts origin value a :
  ∃ hit a',
    Part000.follow_tables ts origin value a = (Ok hit, a') ∧
    click_frame a a' ∧
    match hit with
    | Some name =>
        Part000.currentTable a' = name ∧
        Part000.status a' = Part000.status a ∧
        Part000.timers a'
        = Part000.timers a ++ [mkTimer 50 (SelectMatchingRows name value)]
    | None =>
        Part000.status a' = "No matching value found in other tables" ∧
        Part000.timers a' = Part000.timers a
    end.
Proof.
  revert a. induction ts as [|t ts IH]; intros a.
  - eexists _, _. split; [reflexivity|]. done.
  - cbn [Part000.follow_tables].
    destruct (String.eqb (entry_name t) origin); [apply IH|].
    unfold ebind at 1, etry.
    destruct (follow_one_effects t value a) as (r & a1 & -> & Hfr & Hst & Hr).
    destruct r as [[name|]|e].
    + destruct Hr as (-> & Hc & Htm).
      eexists _, _. split; [reflexivity|]. done.
    + destruct (IH a1) as (hit & a2 & -> & Hfr2 & Hh).
      eexists _, _. split; [reflexivity|].
      split; [by eapply click_frame_trans|].
      destruct hit; [by rewrite <- Hst, <- Hr|by rewrite <- Hr].
    + unfold eret.
      destruct (IH a1) as (hit & a2 & -> & Hfr2 & Hh).
      eexists _, _. split; [reflexivity|].
      split; [by eapply click_frame_trans|].
      destruct hit; [by rewrite <- Hst, <- Hr|by rewrite <- Hr].
Qed.

(** X20. A click never throws and never touches the storage, the
    database handle, the catalog, the table cache or the relationships.
    When it navigates to a table, that table is the current one, the
    status still reads ['Searching referenced tables...'] and exactly
    one timer of 50 ms, selecting the matching rows of that table, has
    been added; when it finds nothing, the status reads ['No matching
    value found in other tables'] and no timer has been added. *)
Theorem followValue_effects (a : Part000.App) (originTable originCol : string)
    (value : Value) :
  ∃ hit a',
    Part000.followValue originTable originCol value a = (Ok hit, a') ∧
    click_frame a a' ∧
    match hit with
    | Some name =>
        Part000.currentTable a' = name ∧
        Part000.status a' = "Searching referenced tables..." ∧
        Part000.timers a'
        = Part000.timers a ++ [mkTimer 50 (SelectMatchingRows name value)]
    | None =>
        Part000.status a' = "No matching value found in other tables" ∧
        Part000.timers a' = Part000.timers a
    end.
Proof.
  unfold Part000.followValue.
  unfold ebind at 1, Part000.setStatus at 1, emodify.
  set (a0 := Part000.mkApp _ _ _ _ _ _ _ _ _ _ _ _ _ _).
  unfold ebind at 1, egets.
  destruct (follow_tables_effects (Part000.tables a0) originTable value a0)
    as (hit & a' & -> & Hfr & Hh).
  exists hit, a'. split; [done|]. split; [exact Hfr|exact Hh].
Qed.

(** ** Escaping cell text *)

Ltac escape_cases c :=
  unfold Part000.escape_char;
  destruct (Ascii.eqb_spec c "&") as [->|?];
  [|destruct (Ascii.eqb_spec c "<") as [->|?];
    [|destruct (Ascii.eqb_spec c ">") as [->|?];
      [|destruct (Ascii.eqb_spec c "034") as [->|?];
        [|destruct (Ascii.eqb_spec c "'") as [->|?]]]]].

Lemma list_ascii_of_string_app (s t : string) :
  list_ascii_of_string (s +:+ t)
  = list_ascii_of_string s ++ list_ascii_of_string t.
Proof. induction s as [|c s IH]; simpl; [done|]. by rewrite <- IH. Qed.

Lemma escape_char_no_markup (c x : ascii) :
  In x (list_ascii_of_string (Part000.escape_char c)) → is_markup x = false.
Proof.
  escape_cases c; simpl; intros Hin;
    repeat (destruct Hin as [<-|Hin]; [try reflexivity|]); try done.
  unfold is_markup.
  repeat match goal with
         | Hn : c ≠ _ |- _ => apply Ascii.eqb_neq in Hn; rewrite ?Hn; clear Hn
         end.
  done.
Qed.

Lemma escape_char_inj (c1 c2 : ascii) (r1 r2 : string) :
  Part000.escape_char c1 +:+ r1 = Part000.escape_char c2 +:+ r2 →
  c1 = c2 ∧ r1 = r2.
Proof.
  escape_cases c1; escape_cases c2; simpl; intros Heq;
    try discriminate; try (by injection Heq); try congruence.
Qed.

(** X21. [escapeHtml] makes cell text inert and loses nothing: its
    result contains none of the characters [<], [>], the double quote
    and the single quote, and two different texts never have the same
    escaped form. *)
Theorem escapeHtml_inert_and_injective (s : string) :
  (∀ c, In c (list_ascii_of_string (Part000.escapeHtml s)) →
        is_markup c = false) ∧
  (∀ t, Part000.escapeHtml s = Part000.escapeHtml t → s = t).
Proof.
  split.
  - induction s as [|x s IH]; simpl; [done|].
    intros c. rewrite list_ascii_of_string_app, in_app_iff.
    intros [Hin|Hin]; [by apply (escape_char_no_markup x)|by apply IH].
  - induction s as [|x s IH]; intros [|y t]; cbn [Part000.escapeHtml].
    + done.
    + intros Heq. exfalso. revert Heq. escape_cases y; discriminate.
    + intros Heq. exfalso. revert Heq. escape_cases x; discriminate.
    + intros Heq. apply escape_char_inj in Heq as [-> Heq].
      f_equal. by apply IH.
Qed.

(** ** The column definitions of the rows grid *)

Lemma sample_loop_acc rows step todo i acc :
  Part000.sample_loop rows step todo i acc
  = acc ++ Part000.sample_loop rows step todo i [].
Proof.
  revert i acc. induction todo as [|todo IH]; intros i acc;
    cbn [Part000.sample_loop].
  - by rewrite app_nil_r.
  - destruct (i <? length rows)%nat; [|by rewrite app_nil_r].
    rewrite IH. rewrite (IH _ ([] ++ _)). by rewrite app_assoc.
Qed.

Lemma sample_loop_lookup rows step todo i j :
  (0 < step)%nat → (length rows <= i + todo)%nat →
  Part000.sample_loop rows step todo i [] !! j = rows !! (i + j * step)%nat.
Proof.
  intros Hs. revert i j. induction todo as [|todo IH]; intros i j Hf;
    cbn [Part000.sample_loop].
  - rewrite lookup_nil. symmetry. apply lookup_ge_None. nia.
  - destruct (Nat.ltb_spec i (length rows)) as [Hlt|Hge].
    + rewrite sample_loop_acc. simpl.
      destruct (lookup_lt_is_Some_2 rows i Hlt) as [r Hr]. rewrite Hr. simpl.
      destruct j as [|j]; simpl.
      * by rewrite Nat.add_0_r.
      * rewrite IH by lia. f_equal. lia.
    + rewrite lookup_nil. symmetry. apply lookup_ge_None. nia.
Qed.

(** X22. The rows [renderRowsGrid] measures.  Up to 1000 rows, all of
    them.  Beyond, exactly 1000 rows: those at the positions [0],
    [step], [2 * step], ..., [999 * step], with [step] the integer part
    of a thousandth of the number of rows; so the rows after position
    [999 * step] are never measured, and with fewer than 2000 rows the
    sample is simply the first 1000 rows. *)
Theorem sampleRows_positions (rows : list Row) :
  (N.of_nat (length rows) <= 1000 → Part000.sampleRows rows = rows) ∧
  (1000 < N.of_nat (length rows) →
   N.of_nat (length (Part000.sampleRows rows)) = 1000 ∧
   (∀ j, N.of_nat j < 1000 →
      Part000.sampleRows rows !! j
      = rows !! (j * N.to_nat (N.of_nat (length rows) / 1000))%nat) ∧
   (N.of_nat (length rows) < 2000 →
    Part000.sampleRows rows = take (N.to_nat 1000) rows)).
Proof.
  unfold Part000.sampleRows, Part000.SAMPLE_LIMIT, floor_div.
  split; intros Hlen.
  - destruct (N.ltb_spec 1000 (N.of_nat (length rows))); [lia|done].
  - destruct (N.ltb_spec 1000 (N.of_nat (length rows))); [|lia].
    set (step := N.to_nat (N.max 1 (N.of_nat (length rows) / 1000))).
    assert (step = N.to_nat (N.of_nat (length rows) / 1000)) as Hstep.
    { unfold step. f_equal. apply N.max_r. divlia. }
    assert (N.of_nat step * 1000 <= N.of_nat (length rows)) as Hfit.
    { rewrite Hstep, N2Nat.id. divlia. }
    assert (0 < step)%nat as Hpos.
    { rewrite Hstep. assert (1 <= N.of_nat (length rows) / 1000); [|lia].
      divlia. }
    assert (∀ j, N.of_nat j < 1000 →
              take (N.to_nat 1000)
                (Part000.sample_loop rows step (length rows) 0 []) !! j
              = rows !! (j * step)%nat) as Hlook.
    { intros j Hj. rewrite lookup_take_lt by lia.
      by rewrite sample_loop_lookup by lia. }
    split; [|split].
    + rewrite length_take.
      assert (N.to_nat 1000
              <= length (Part000.sample_loop rows step (length rows) 0 []))%nat;
        [|lia].
      destruct (Nat.le_gt_cases (N.to_nat 1000)
                  (length (Part000.sample_loop rows step (length rows) 0 [])))
        as [|Hshort]; [done|exfalso].
      set (k := length (Part000.sample_loop rows step (length rows) 0 [])) in *.
      assert (Part000.sample_loop rows step (length rows) 0 [] !! k = None)
        as Hnone by (by apply lookup_ge_None).
      rewrite sample_loop_lookup in Hnone by lia.
      apply lookup_ge_None in Hnone. nia.
    + intros j Hj. rewrite Hlook by done. by rewrite Hstep.
    + intros Hsmall.
      assert (step = 1%nat) as H1.
      { rewrite Hstep.
        assert (N.of_nat (length rows) / 1000 = 1); [|lia]. divlia. }
      apply list_eq. intros j.
      destruct (N.ltb_spec (N.of_nat j) 1000) as [Hj|Hj].
      * rewrite Hlook by done. rewrite H1, Nat.mul_1_r.
        by rewrite lookup_take_lt by lia.
      * rewrite !lookup_take_ge by lia. done.
Qed.

Section ColumnDefs.
Context `{Platform}.
Variable JSON_stringify : positive → string.
Variable measureTextWidth : string → Z.

Lemma content_width_bounds c sample init :
  let result :=
    foldl (fun maxWidth row =>
             let v := row_get row c in
             if Part000.is_nullish v then maxWidth
             else
               let w := measureTextWidth (Part000.cell_string JSON_stringify v) in
               if (maxWidth <? w)%Z then w else maxWidth)
      init sample in
  (init <= result)%Z ∧
  ∀ row, row ∈ sample → Part000.is_nullish (row_get row c) = false →
    (measureTextWidth (Part000.cell_string JSON_stringify (row_get row c))
     <= result)%Z.
Proof.
  revert init. induction sample as [|r sample IH]; intros init; cbn [foldl].
  - split; [simpl; lia|]. intros row Hin. by apply elem_of_nil in Hin.
  - cbv zeta in IH |- *.
    set (init' := if Part000.is_nullish (row_get r c) then init
                  else if (init <? measureTextWidth
                                     (Part000.cell_string JSON_stringify
                                        (row_get r c)))%Z
                       then measureTextWidth
                              (Part000.cell_string JSON_stringify (row_get r c))
                       else init).
    destruct (IH init') as [Hge Hall].
    assert (init <= init')%Z as Hinit.
    { unfold init'. destruct (Part000.is_nullish _); [lia|].
      destruct (Z.ltb_spec init
                  (measureTextWidth
                     (Part000.cell_string JSON_stringify (row_get r c)))); lia. }
    split; [lia|].
    intros row Hin Hnn. apply elem_of_cons in Hin as [->|Hin]; [|by apply Hall].
    assert (measureTextWidth (Part000.cell_string JSON_stringify (row_get r c))
            <= init')%Z; [|lia].
    unfold init'. rewrite Hnn.
    destruct (Z.ltb_spec init
                (measureTextWidth
                   (Part000.cell_string JSON_stringify (row_get r c)))); lia.
Qed.

(** X23. The column definitions of the rows grid.  Whatever the
    canvas measures, every column is between 52 and 2000 pixels wide
    (the lower clamp of 40 is never reached, since the width starts from
    24 + 28), and no measured cell is wider than its column short of the
    2000 pixel cap: the width is at least the measured width of every
    sampled cell that is neither [null] nor [undefined], plus the
    padding of 28.  A column is right-aligned exactly when the table
    has rows and each of them holds [null] or a number in that column
    (a row without the property makes it left-aligned). *)
Theorem columnDef_width (rows : list Row) (c : string) :
  let d := Part000.columnDef JSON_stringify measureTextWidth rows c in
  Part000.col_field d = c ∧
  (52 <= Part000.col_width d <= 2000)%Z ∧
  (∀ row, row ∈ Part000.sampleRows rows →
     Part000.is_nullish (row_get row c) = false →
     (Z.min (measureTextWidth
               (Part000.cell_string JSON_stringify (row_get row c)) + 28) 2000
      <= Part000.col_width d)%Z) ∧
  (Part000.col_rightAligned d = true
   ↔ rows ≠ [] ∧
     ∀ row, row ∈ rows →
       row !! c = Some VNull ∨ ∃ n, row !! c = Some (VNumber n)).
Proof.
  cbv zeta. unfold Part000.columnDef, Part000.content_width. simpl.
  destruct (content_width_bounds c (Part000.sampleRows rows) 24) as [Hge Hall].
  cbv zeta in Hge, Hall.
  split; [done|]. split; [lia|]. split.
  - intros row Hin Hnn. specialize (Hall row Hin Hnn). lia.
  - unfold Part000.isNumeric.
    rewrite andb_true_iff, negb_true_iff, Nat.eqb_neq, forallb_forall.
    split.
    + intros [Hne Hall']. split; [by destruct rows|].
      intros row Hin. apply list_elem_of_In in Hin.
      specialize (Hall' row Hin). unfold row_get in Hall'.
      destruct (row !! c) as [[]|]; simpl in Hall'; try done; eauto.
    + intros [Hne Hall']. split; [by destruct rows|].
      intros row Hin. apply list_elem_of_In in Hin.
      unfold row_get.
      destruct (Hall' row Hin) as [->|[n ->]]; done.
Qed.

End ColumnDefs.

(** ** The further properties on concrete data *)

(** X3 on a file too large for the fast store: the save goes to
    IndexedDB. *)
Lemma saveFile_backend_holds_file_witness :
  ("indexedDB" = "localStorage" ∧
   ls_items (IndexMjs.saveFile Demo.new_file (Demo.world [])).2 !! "mdb-base64"
   = Some (base64_encode (file_bytes Demo.new_file)) ∧
   ls_items (IndexMjs.saveFile Demo.new_file (Demo.world [])).2 !! "mdb-name"
   = Some (file_name Demo.new_file) ∧
   idb_files (IndexMjs.saveFile Demo.new_file (Demo.world [])).2
   = idb_files (Demo.world []) ∧
   idb_faults (IndexMjs.saveFile Demo.new_file (Demo.world [])).2
   = idb_faults (Demo.world [])) ∨
  ("indexedDB" = "indexedDB" ∧
   idb_files (IndexMjs.saveFile Demo.new_file (Demo.world [])).2 !! "file"
   = Some (mkIdbEntry Demo.new_file (file_name Demo.new_file))).
Proof.
  apply (saveFile_backend_holds_file Demo.new_file (Demo.world [])).
  reflexivity.
Defined.

(** X4 on the same file, saved on an empty origin and restored. *)
Lemma save_restore_round_trip_witness :
  ∃ name w2,
    IndexMjs.loadStoredFile (IndexMjs.saveFile Demo.new_file (Demo.world [])).2
    = (Ok (Some (IndexMjs.mkStored (file_bytes Demo.new_file) name)), w2).
Proof.
  apply (save_restore_round_trip Demo.new_file (Demo.world [])
           (IndexMjs.saveFile Demo.new_file (Demo.world [])).2 "indexedDB");
    [reflexivity|reflexivity|done|exact I|reflexivity].
Defined.

(** X5 on an origin whose fast store holds three percent signs. *)
Lemma corrupt_record_blocks_restore_witness :
  IndexMjs.loadStoredFile Demo.corrupt_world
  = (Throw invalid_character, Demo.corrupt_world) ∧
  @IndexMjs.initFromStorage Demo.platform (Demo.index_init Demo.corrupt_world)
  = (Ok tt, Demo.index_init Demo.corrupt_world).
Proof.
  apply (@corrupt_record_blocks_restore Demo.platform
           (Demo.index_init Demo.corrupt_world) "%%%");
    [reflexivity|done|reflexivity].
Defined.

(** X6 on an origin whose IndexedDB fails. *)
Lemma loadStoredFile_never_throws_on_idb_witness :
  ∃ w',
    IndexMjs.loadStoredFile (Demo.world [Some Demo.idb_error])
    = (Ok None, w') ∧
    ls_items w' = ls_items (Demo.world [Some Demo.idb_error]) ∧
    idb_files w' = idb_files (Demo.world [Some Demo.idb_error]).
Proof.
  apply (loadStoredFile_never_throws_on_idb (Demo.world [Some Demo.idb_error])).
  reflexivity.
Defined.

(** X7 on two files. *)
Lemma idb_save_load_delete_witness :
  ((IndexMjs.idbSaveFile Demo.new_file "new.mdb" ;;; IndexMjs.idbLoadFile)
     (Demo.world [])).1
  = Ok (Some (IndexMjs.mkStored (file_bytes Demo.new_file) (Some "new.mdb"))) ∧
  ((IndexMjs.idbSaveFile Demo.old_file "old.mdb" ;;;
    IndexMjs.idbSaveFile Demo.new_file "new.mdb" ;;; IndexMjs.idbLoadFile)
     (Demo.world [])).1
  = Ok (Some (IndexMjs.mkStored (file_bytes Demo.new_file) (Some "new.mdb"))) ∧
  ((IndexMjs.idbSaveFile Demo.new_file "new.mdb" ;;; IndexMjs.idbDeleteFile ;;;
    IndexMjs.idbLoadFile) (Demo.world [])).1
  = Ok None.
Proof.
  apply (idb_save_load_delete Demo.new_file Demo.old_file "new.mdb" "old.mdb"
           (Demo.world [])); reflexivity.
Defined.

(** X8 on an origin where nothing can be stored. *)
Lemma handleFile_opens_despite_storage_witness :
  ∃ a',
    @IndexMjs.handleFile Demo.platform Demo.old_file
      (Demo.index_init Demo.hostile_world) = (Ok tt, a') ∧
    IndexMjs.reader a' = Some Demo.warehouse ∧
    IndexMjs.status a' = file_name Demo.old_file ∧
    IndexMjs.world a'
    = (IndexMjs.saveFile Demo.old_file
         (IndexMjs.world (Demo.index_init Demo.hostile_world))).2 ∧
    ∀ names, getTableNames Demo.warehouse = Ok names →
      IndexMjs.leftRowData a'
      = map (fun name =>
               mkEntry name (default 0 (reported_count Demo.warehouse name)))
          names.
Proof.
  apply (@handleFile_opens_despite_storage Demo.platform Demo.old_file
           (Demo.index_init Demo.hostile_world) Demo.warehouse); reflexivity.
Defined.

(** X9 on an empty file, which the platform of the examples rejects. *)
Lemma rejected_file_only_status_witness :
  @IndexMjs.handleFile Demo.platform (mkFile "empty.mdb" [])
    (Demo.index_init (Demo.world []))
  = (Ok tt, Demo.index_init (Demo.world [])) ∧
  @Part000.loadFile Demo.platform (Some (mkFile "empty.mdb" []))
    (Demo.part000_init (Demo.world []))
  = (Ok tt,
     Part000.mkApp (Demo.world []) [] None [] ∅ [] None false None None
       EmptyString None "Error loading file: Wrong file type" []).
Proof.
  apply (@rejected_file_only_status Demo.platform (mkFile "empty.mdb" [])
           (Demo.index_init (Demo.world []))
           (Demo.part000_init (Demo.world []))
           (mkError "Error" 0 "Wrong file type")); reflexivity.
Defined.

(** X10: after [second_db] is opened over [northwind], whose table [A]
    it cannot open, the cache of either variant still maps [A] to the
    table of [northwind]. *)
Lemma buildTablesList_cache_witness :
  IndexMjs.tableMap
    (@IndexMjs.buildTablesList Demo.platform
       (IndexMjs.set_reader Demo.second_db (Demo.index_with Demo.northwind))).2
  !! "A" = Some Demo.table_A ∧
  Part000.tableMap
    (Part000.buildTablesList
       (Part000.set_reader Demo.second_db (Demo.part000_with Demo.northwind))).2
  !! "A" = Some Demo.table_A.
Proof.
  destruct (@buildTablesList_cache Demo.platform Demo.second_db ["A"; "C"]
              (IndexMjs.set_reader Demo.second_db
                 (Demo.index_with Demo.northwind))
              (Part000.set_reader Demo.second_db
                 (Demo.part000_with Demo.northwind))
              "A" eq_refl eq_refl eq_refl) as [Hi Hp].
  split; [rewrite Hi|rewrite Hp]; reflexivity.
Defined.

(** X11 on [northwind], whose first table is [A]. *)
Lemma buildTablesList_shows_first_table_witness :
  ∃ a',
    @IndexMjs.buildTablesList Demo.platform
      (IndexMjs.set_reader Demo.northwind (Demo.index_init (Demo.world [])))
    = (Ok tt, a') ∧
    ∀ t rc rows,
      getTable Demo.northwind "A" = Ok t → rowCount t = Ok rc →
      getData t no_opts = Ok rows →
      IndexMjs.rightRowData a' = rows ∧
      IndexMjs.status a'
      = IndexMjs.status
          (IndexMjs.set_reader Demo.northwind (Demo.index_init (Demo.world []))).
Proof.
  apply (@buildTablesList_shows_first_table Demo.platform
           (IndexMjs.set_reader Demo.northwind (Demo.index_init (Demo.world [])))
           Demo.northwind ["A"; "B"; "Broken"; "NoCount"; "C"]); reflexivity.
Defined.

(** X12 on the table [C] of [northwind]. *)
Lemma showTable_column_widths_witness :
  ∃ a',
    @IndexMjs.showTable Demo.platform "C" (Demo.index_with Demo.northwind)
    = (Ok tt, a') ∧
    IndexMjs.rightRowData a'
    = [ {["ref" := Demo.num 7; "label" := VString "seven"]};
        {["ref" := Demo.num 42; "label" := VNull]} ] ∧
    map field (IndexMjs.rightColumnDefs a') = ["ref"; "label"] ∧
    Forall (fun d =>
              if decide (field d = "__proto__")
              then width d = Some (WidthMember "__proto__")
              else
                ∃ w, width d = Some (WidthPx w) ∧ (60 <= w <= 800)%Z ∧
                     @IndexMjs.computeColumnWidths Demo.platform
                       ["ref"; "label"]
                       [ {["ref" := Demo.num 7; "label" := VString "seven"]};
                         {["ref" := Demo.num 42; "label" := VNull]} ]
                     !! field d = Some w)
      (IndexMjs.rightColumnDefs a').
Proof.
  apply (@showTable_column_widths Demo.platform "C" Demo.table_C); reflexivity.
Defined.


(** X14 on a drag that pulls the divider to the left of the lower
    bound, preceded and followed by moves outside any drag. *)
Lemma divider_width_in_range_witness :
  (160 # 1 <= 160 # 1)%Q ∧ (160 # 1 <= 900 # 1)%Q.
Proof.
  apply (divider_width_in_range
           [IndexMjs.MouseMove (500 # 1) 0; IndexMjs.MouseDown;
            IndexMjs.MouseMove (100 # 1) (20 # 1); IndexMjs.MouseUp;
            IndexMjs.MouseMove (700 # 1) 0]).
  reflexivity.
Defined.

(** X16 on a small file and a fresh page over the storage it was
    saved to. *)
Lemma save_then_reload_witness :
  ∃ a1,
    Part000.saveFileToLocalStorage
      (Part000.arrayBufferToBase64 (file_bytes Demo.old_file))
      (file_name Demo.old_file) (Demo.part000_init (Demo.world []))
    = (Ok tt, a1) ∧
    Part000.status a1 = "Saved to local storage" ∧
    (Part000.world (Demo.part000_init (Part000.world a1)) = Part000.world a1 →
     ∃ b',
       @Part000.tryLoadFromLocalStorage Demo.platform
         (Demo.part000_init (Part000.world a1)) = (Ok tt, b') ∧
       Part000.reader b' = Some Demo.warehouse ∧
       Part000.status b' = "Loaded from local storage" ∧
       Part000.tables b'
       = map (fun name =>
                mkEntry name (default 0 (reported_count Demo.warehouse name)))
           ["A"; "Late"; "C"; "Orders"]).
Proof.
  destruct (@save_then_reload Demo.platform Demo.old_file
              (Demo.part000_init (Demo.world []))
              (Demo.part000_init
                 (Part000.world
                    (Part000.saveFileToLocalStorage
                       (Part000.arrayBufferToBase64 (file_bytes Demo.old_file))
                       (file_name Demo.old_file)
                       (Demo.part000_init (Demo.world []))).2))
              Demo.warehouse ["A"; "Late"; "C"; "Orders"])
    as (a1 & Hsave & Hst & Hload);
    [done|reflexivity|reflexivity|reflexivity|].
  exists a1. split; [exact Hsave|]. split; [exact Hst|].
  rewrite Hsave in Hload. exact Hload.
Defined.

(** X18: [northwind] is open, then a file holding [warehouse] is
    dropped. *)
Lemma tables_grid_filled_once_witness :
  ∃ a',
    @Part000.loadFile Demo.platform (Some Demo.old_file)
      (Demo.part000_with Demo.northwind) = (Ok tt, a') ∧
    Part000.tablesGrid a'
    = Some (map (fun e => Part000.mkNode e EmptyString false)
              [mkEntry "A" 1; mkEntry "B" 1; mkEntry "Broken" 0;
               mkEntry "NoCount" 0; mkEntry "C" 2]) ∧
    (Part000.status a' = "Loaded" →
     ∀ value originTable originCol name,
       Part000.highlightTablesReferencingValue value originTable originCol a'
       = (Ok tt, a') ∧
       Part000.highlightTableInList name a' = (Ok tt, a')).
Proof.
  apply (@tables_grid_filled_once Demo.platform
           (Demo.part000_with Demo.northwind) (Some Demo.old_file)).
  reflexivity.
Defined.

(** X19: the table [A] of [northwind] is selected, then the table
    [C]. *)
Lemma rows_grid_filled_once_witness :
  ∃ a',
    Part000.selectTable "C"
      (Part000.selectTable "A" (Demo.part000_with Demo.northwind)).2
    = (Ok tt, a') ∧
    Part000.currentTable a' = "C" ∧
    (∃ cc rc, columnCount Demo.table_C = Ok cc ∧ rowCount Demo.table_C = Ok rc ∧
              Part000.tableInfo a' = Some (cc, rc)) ∧
    Part000.rowsGrid a' = Some [ {["id" := Demo.num 42]} ].
Proof.
  apply (rows_grid_filled_once
           (Part000.selectTable "A" (Demo.part000_with Demo.northwind)).2
           "C" Demo.table_C); reflexivity.
Defined.

(** X24 on a small file picked on an empty origin. *)
Lemma picked_file_survives_reload_witness :
  ∃ a',
    @IndexMjs.onInputChange Demo.platform [Demo.old_file]
      (Demo.index_init (Demo.world [])) = (Ok tt, a') ∧
    IndexMjs.reader a' = Some Demo.warehouse ∧
    (IndexMjs.world
       (Demo.index_init (IndexMjs.saveFile Demo.old_file (Demo.world [])).2)
     = IndexMjs.world a' →
     ∃ b',
       @IndexMjs.initFromStorage Demo.platform
         (Demo.index_init (IndexMjs.saveFile Demo.old_file (Demo.world [])).2)
       = (Ok tt, b') ∧
       IndexMjs.reader b' = Some Demo.warehouse ∧
       IndexMjs.status b' = file_name Demo.old_file ∧
       IndexMjs.world b' = IndexMjs.world a' ∧
       ∀ names, getTableNames Demo.warehouse = Ok names →
         IndexMjs.leftRowData b' = IndexMjs.leftRowData a').
Proof.
  apply (@picked_file_survives_reload Demo.platform Demo.old_file []
           (Demo.index_init (Demo.world []))
           (Demo.index_init
              (IndexMjs.saveFile Demo.old_file (Demo.world [])).2)
           Demo.warehouse);
    [reflexivity|reflexivity|done|reflexivity|reflexivity].
Defined.

(** The property of C8 on the table [Orders] of 50000 rows. *)
Lemma display_fetch_ceiling_witness :
  let a1 :=
    (Part000.buildTablesList
       (Part000.set_reader Demo.warehouse
          (Demo.part000_init (Demo.world [])))).2 in
  (∃ e, e ∈ Part000.tables a1 ∧ entry_name e = "Orders") ∧
  (∀ e, e ∈ Part000.tables a1 → entry_name e = "Orders" →
        entry_rowCount e = N.of_nat (length Demo.orders_rows)) ∧
  (∃ opts,
     Part000.rowsGridOptions (Part000.selectTable "Orders" a1).2 = Some opts ∧
     Part000.opt_rowData opts = take (N.to_nat 5000) Demo.orders_rows ∧
     N.of_nat (length (Part000.opt_rowData opts)) <= 5000 ∧
     (Part000.rowsGrid a1 = None →
      Part000.rowsGrid (Part000.selectTable "Orders" a1).2
      = Some (take (N.to_nat 5000) Demo.orders_rows))) ∧
  (∃ cc,
     Part000.tableInfo (Part000.selectTable "Orders" a1).2
     = Some (cc, N.of_nat (length Demo.orders_rows))) ∧
  IndexMjs.rightRowData
    (@IndexMjs.showTable Demo.platform "Orders"
       (Demo.index_with Demo.warehouse)).2
  = Demo.orders_rows.
Proof.
  apply (@display_fetch_ceiling Demo.platform Demo.warehouse
           ["A"; "Late"; "C"; "Orders"] "Orders" Demo.table_Orders
           Demo.orders_rows
           (Part000.set_reader Demo.warehouse
              (Demo.part000_init (Demo.world [])))
           (Demo.index_with Demo.warehouse));
    [apply table_of_honours|reflexivity|reflexivity|reflexivity|reflexivity
    | |reflexivity|reflexivity].
  do 3 (apply elem_of_cons; right). apply elem_of_cons. by left.
Defined.

(** The property of X26 on the column [label] of the two rows of the
    table [C]. *)
Lemma computeColumnWidths_percentile_witness :
  ("label" ∉ Object_prototype_keys) ∧
  @IndexMjs.computeColumnWidths Demo.platform ["ref"; "label"]
    [ {["ref" := Demo.num 7; "label" := VString "seven"]};
      {["ref" := Demo.num 42; "label" := VNull]} ] !! "label"
  = if decide ("label" ∈ ["ref"; "label"])
    then Some (@estimated_width Demo.platform "label"
                 [ {["ref" := Demo.num 7; "label" := VString "seven"]};
                   {["ref" := Demo.num 42; "label" := VNull]} ])
    else None.
Proof.
  assert ("label" ∉ Object_prototype_keys) as Hord.
  { intros Hin. unfold Object_prototype_keys in Hin.
    repeat (apply elem_of_cons in Hin as [Hin|Hin]; [discriminate|]).
    by apply elem_of_nil in Hin. }
  split; [exact Hord|].
  apply (@computeColumnWidths_percentile Demo.platform). exact Hord.
Defined.
